(** * pytds: the TDS session engine of [src/pytds/tds.py]

    A shallow embedding of the packet writer, the packet reader, the session
    state machine, the DONE/ENVCHANGE token handlers, the PRELOGIN reply
    parser and the LOGIN7 password mangling, followed by the properties the
    specification states about them.

    Python objects are records, Python integers are [Z], byte strings and
    [bytearray]s are [list Z] (every element in [0, 256)), methods are
    functions in a state-and-exception monad: a raised exception leaves the
    mutations made before it in place, as in Python. *)

From Stdlib Require Import String Ascii.
From Stdlib Require Import ZArith List Bool Lia.
From Stdlib Require Import DecimalString DecimalN.
Import ListNotations.
Open Scope string_scope.
Open Scope list_scope.
Open Scope Z_scope.

Set Implicit Arguments.

(* ===================================================================== *)
(** * Part I: the model                                                   *)
(* ===================================================================== *)

(** ** Exceptions and the state-and-exception monad *)

(** [Message(TypedDict)], the record [process_msg] appends to
    [session.messages]. *)
Record Message := mkMessage {
  marker : Z;
  msgno : Z;
  msg_state : Z;
  severity : Z;
  priv_msg_type : Z;
  message : string;
  server : string;
  proc_name : string;
  line_number : Z
}.

(** The attributes [_create_exception_by_message] stores on the exception:
    the text passed to the constructor and the message it was built from. *)
Record DbError := mkDbError {
  error_msg : string;
  source_msg : Message
}.

Inductive exn : Type :=
| InterfaceError (text : string)
| Error (text : string)
| ProgrammingError (e : DbError)
| IntegrityError (e : DbError)
| OperationalError (e : DbError)
| ClosedConnectionError
| TimeoutError
| IndexError
| KeyError
| ValueError
| LookupError
| AssertionError
| StructError.

(** What running a piece of code gives: a value, a raised exception, or no
    answer within the fuel given to a [while] loop. *)
Inductive outcome (A : Type) : Type :=
| Ok (a : A)
| Raise (e : exn)
| OutOfFuel.

Arguments Ok {A} a.
Arguments Raise {A} e.
Arguments OutOfFuel {A}.

Definition M (S A : Type) : Type := S -> S * outcome A.

Definition ret {S A} (a : A) : M S A := fun s => (s, Ok a).

Definition bind {S A B} (c : M S A) (k : A -> M S B) : M S B :=
  fun s =>
    match c s with
    | (s', Ok a) => k a s'
    | (s', Raise e) => (s', Raise e)
    | (s', OutOfFuel) => (s', OutOfFuel)
    end.

Definition raise {S A} (e : exn) : M S A := fun s => (s, Raise e).
Definition diverge {S A} : M S A := fun s => (s, OutOfFuel).
Definition get {S} : M S S := fun s => (s, Ok s).
Definition gets {S A} (f : S -> A) : M S A := fun s => (s, Ok (f s)).
Definition modify {S} (f : S -> S) : M S unit := fun s => (f s, Ok tt).

(** Run a computation on a component of the state ([self._writer.flush()]
    inside a session method). *)
Definition zoom {S T A} (proj : S -> T) (upd : T -> S -> S) (c : M T A) : M S A :=
  fun s => let (t', r) := c (proj s) in (upd t' s, r).

Declare Scope monad_scope.
Delimit Scope monad_scope with monad.
Notation "x <- c ;; k" := (bind c (fun x => k))
  (at level 61, c at next level, right associativity) : monad_scope.
Notation "c ;; k" := (bind c (fun _ => k))
  (at level 61, right associativity) : monad_scope.
Open Scope monad_scope.

(** ** Byte strings *)

Definition len {A} (l : list A) : Z := Z.of_nat (length l).

(** [l[a:b]] for [0 <= a <= b]. *)
Definition slice {A} (l : list A) (a b : Z) : list A :=
  firstn (Z.to_nat (b - a)) (skipn (Z.to_nat a) l).

(** [l[a:b] = xs] on a [bytearray], for [0 <= a <= b]: the elements from [a]
    up to [b] are replaced by [xs] (past the end, [xs] is appended). *)
Definition slice_assign {A} (l : list A) (a b : Z) (xs : list A) : list A :=
  firstn (Z.to_nat a) l ++ xs ++ skipn (Z.to_nat b) l.

Definition is_u8 (v : Z) : bool := (0 <=? v) && (v <=? 255).
Definition is_u16 (v : Z) : bool := (0 <=? v) && (v <=? 65535).

Definition is_byte (v : Z) : Prop := 0 <= v < 256.

(** ** [tds7_crypt_pass] *)

(** [((ch << 4) & 0xff | (ch >> 4)) ^ 0xA5]; in Python [&] binds tighter
    than [|]. *)
Definition crypt_byte (ch : Z) : Z :=
  Z.lxor (Z.lor (Z.land (Z.shiftl ch 4) 255) (Z.shiftr ch 4)) 165.

(** [encoded[i] = v] on a [bytearray]: [v] must be in [range(256)]. *)
Definition bytearray_setitem (i : nat) (v : Z) : M (list Z) unit :=
  fun encoded =>
    if is_u8 v
    then (firstn i encoded ++ v :: skipn (S i) encoded, Ok tt)
    else (encoded, Raise ValueError).

(** [for i, ch in enumerate(encoded): encoded[i] = ...]: the element at [i]
    is read from the array being overwritten; [n] counts the elements still
    to visit. *)
Fixpoint crypt_loop (n i : nat) : M (list Z) unit :=
  match n with
  | O => ret tt
  | S n' =>
      encoded <- get ;;
      match nth_error encoded i with
      | None => ret tt
      | Some ch => bytearray_setitem i (crypt_byte ch) ;; crypt_loop n' (S i)
      end
  end.

(** The loop of [tds7_crypt_pass] on the encoded bytes. *)
Definition crypt_bytes (encoded : list Z) : outcome (list Z) :=
  match crypt_loop (length encoded) 0 encoded with
  | (encoded', Ok _) => Ok encoded'
  | (_, Raise e) => Raise e
  | (_, OutOfFuel) => OutOfFuel
  end.

(** [collate.ucs2_codec] is not part of this file of the repository; its
    encoder is a parameter. *)
Class Ucs2Codec := { ucs2_encode : string -> list Z }.

Definition tds7_crypt_pass `{Ucs2Codec} (password : string) : outcome (list Z) :=
  crypt_bytes (ucs2_encode password).

(** The inverse the specification names: XOR with 0xA5, then swap the
    nibbles. *)
Definition uncrypt_byte (c : Z) : Z :=
  let x := Z.lxor c 165 in
  Z.lor (Z.land (Z.shiftl x 4) 255) (Z.shiftr x 4).

Definition tds7_uncrypt_pass (mangled : list Z) : list Z := map uncrypt_byte mangled.

(** A little-endian two-byte encoder for ASCII text, used to run the model
    on concrete passwords. *)
Fixpoint ascii_ucs2 (s : string) : list Z :=
  match s with
  | EmptyString => []
  | String c s' => Z.of_nat (nat_of_ascii c) :: 0 :: ascii_ucs2 s'
  end.

Definition ascii_codec : Ucs2Codec := {| ucs2_encode := ascii_ucs2 |}.

(** ** The transport *)

(** What the peer does at one [recv_into] call: deliver bytes (an empty
    delivery is a closed connection) or let the socket time out. *)
Inductive event : Type :=
| Bytes (bs : list Z)
| TimedOut.

(** The transport shared by the reader and the writer of a session: the
    script of what is still to arrive, and every buffer passed to [sendall],
    oldest first. *)
Record Transport := mkTransport {
  inbox : list event;
  outbox : list (list Z);
  closed : bool
}.

Definition after_sendall (pkt : list Z) (t : Transport) : Transport :=
  {| inbox := inbox t; outbox := outbox t ++ [pkt]; closed := closed t |}.

Definition sendall (pkt : list Z) : M Transport unit := modify (after_sendall pkt).

Definition close : M Transport unit :=
  modify (fun t => {| inbox := inbox t; outbox := outbox t; closed := true |}).

(** ** [_TdsWriter] *)

Record TdsWriter := mkWriter {
  w_pos : Z;
  w_buf : list Z;
  w_packet_no : Z;
  w_type : Z
}.

(** [_TdsWriter.__init__]. *)
Definition new_writer (bufsize : Z) : TdsWriter :=
  {| w_pos := 0; w_buf := repeat 0 (Z.to_nat bufsize); w_packet_no := 0; w_type := 0 |}.

(** A writer together with the transport it sends on. *)
Definition WT : Type := (TdsWriter * Transport)%type.

Definition bufsize (w : TdsWriter) : Z := len (w_buf w).

(** The [bufsize] setter. *)
Definition set_bufsize (bufsize : Z) (w : TdsWriter) : TdsWriter :=
  if len (w_buf w) =? bufsize then w
  else if len (w_buf w) <? bufsize then
    {| w_pos := w_pos w;
       w_buf := w_buf w ++ repeat 0 (Z.to_nat (bufsize - len (w_buf w)));
       w_packet_no := w_packet_no w; w_type := w_type w |}
  else
    {| w_pos := w_pos w; w_buf := slice (w_buf w) 0 bufsize;
       w_packet_no := w_packet_no w; w_type := w_type w |}.

Definition begin_packet (packet_type : Z) : M WT unit :=
  modify (fun '(w, t) =>
    ({| w_pos := 8; w_buf := w_buf w; w_packet_no := w_packet_no w;
        w_type := packet_type |}, t)).

(** [_header.pack_into(buf, 0, type, status, size, spid, packet_no)] with
    [_header = struct.Struct('>BBHHBx')]: eight bytes at the front of the
    buffer, [struct.error] when the buffer is shorter or a field is out of
    the range of its format. *)
Definition header_pack_into (buf : list Z) (ty status size spid packet_no : Z)
  : outcome (list Z) :=
  if len buf <? 8 then Raise StructError
  else if is_u8 ty && is_u8 status && is_u16 size && is_u16 spid && is_u8 packet_no
  then Ok ([ty; status; size / 256; size mod 256; spid / 256; spid mod 256; packet_no; 0]
             ++ skipn 8 buf)
  else Raise StructError.

Definition _write_packet (final : bool) : M WT unit :=
  fun '(w, t) =>
    let status := if final then 1 else 0 in
    match header_pack_into (w_buf w) (w_type w) status (w_pos w) 0 (w_packet_no w) with
    | Ok buf' =>
        let packet_no' := (w_packet_no w + 1) mod 256 in
        let (t', _) := sendall (slice buf' 0 (w_pos w)) t in
        (({| w_pos := 8; w_buf := buf'; w_packet_no := packet_no'; w_type := w_type w |}, t'),
         Ok tt)
    | Raise e => ((w, t), Raise e)
    | OutOfFuel => ((w, t), OutOfFuel)
    end.

Definition flush : M WT unit := _write_packet true.

(** The [while data_off < len(data)] loop of [write]; [fuel] bounds the
    number of iterations. *)
Fixpoint write_loop (fuel : nat) (data : list Z) (data_off : Z) : M WT unit :=
  match fuel with
  | O => diverge
  | S fuel' =>
      if data_off <? len data then
        wt <- get ;;
        let w := fst wt in
        let left := len (w_buf w) - w_pos w in
        if left <=? 0 then
          _write_packet false ;;
          write_loop fuel' data data_off
        else
          let to_write := Z.min left (len data - data_off) in
          modify (fun '(w, t) =>
            ({| w_pos := w_pos w + to_write;
                w_buf := slice_assign (w_buf w) (w_pos w) (w_pos w + to_write)
                           (slice data data_off (data_off + to_write));
                w_packet_no := w_packet_no w; w_type := w_type w |}, t)) ;;
          write_loop fuel' data (data_off + to_write)
      else ret tt
  end.

Definition write (fuel : nat) (data : list Z) : M WT unit := write_loop fuel data 0.

(** A logical message: the payload handed over in chunks, one [write] per
    chunk, then one [flush]. *)
Fixpoint write_chunks (fuel : nat) (chunks : list (list Z)) : M WT unit :=
  match chunks with
  | [] => ret tt
  | data :: rest => write fuel data ;; write_chunks fuel rest
  end.

Definition write_message (fuel : nat) (chunks : list (list Z)) : M WT unit :=
  write_chunks fuel chunks ;; flush.

(** Reading a packet as it went on the wire. *)
Definition payload (pkt : list Z) : list Z := skipn 8 pkt.
Definition packet_status (pkt : list Z) : Z := nth 1 pkt 0.
Definition packet_number (pkt : list Z) : Z := nth 6 pkt 0.
Definition is_final (pkt : list Z) : bool := Z.testbit (packet_status pkt) 0.

(** The bytes copied into the buffer since the last packet left. *)
Definition pending (w : TdsWriter) : list Z := skipn 8 (firstn (Z.to_nat (w_pos w)) (w_buf w)).

(** A writer that can carry payload: the buffer holds more than the header
    and its size fits the 16-bit length field; position, type and packet
    number are what [begin_packet] and [_write_packet] leave. *)
Definition writer_ok (w : TdsWriter) : Prop :=
  8 < len (w_buf w) <= 65535 /\ 8 <= w_pos w <= len (w_buf w) /\
  0 <= w_type w <= 255 /\ 0 <= w_packet_no w <= 255.

(** The eight header bytes [_write_packet] packs. *)
Definition header_of (w : TdsWriter) (final : bool) : list Z :=
  [w_type w; if final then 1 else 0; w_pos w / 256; w_pos w mod 256; 0; 0;
   w_packet_no w; 0].

(** The packet [_write_packet] hands to [sendall]. *)
Definition packet_of (w : TdsWriter) (final : bool) : list Z :=
  slice (header_of w final ++ skipn 8 (w_buf w)) 0 (w_pos w).

Definition after_packet (w : TdsWriter) (final : bool) : TdsWriter :=
  {| w_pos := 8; w_buf := header_of w final ++ skipn 8 (w_buf w);
     w_packet_no := (w_packet_no w + 1) mod 256; w_type := w_type w |}.

(** What the specification asks of the packets of one logical message: their
    payloads concatenate to the data, the last one carries the final-status
    bit and no other does. *)
Definition framed (packets : list (list Z)) (data : list Z) : Prop :=
  exists init last,
    packets = init ++ [last] /\
    concat (map payload packets) = data /\
    Forall (fun pkt => is_final pkt = false) init /\
    is_final last = true.

(** Concrete runs: a fresh transport, a writer with a 12-byte buffer after
    [begin_packet(QUERY)], and two one-byte messages sent one after the other
    on a fresh 16-byte writer. *)
Definition empty_transport : Transport :=
  {| inbox := []; outbox := []; closed := false |}.

Definition small_writer : WT :=
  fst (begin_packet 1 (new_writer 12, empty_transport)).

Definition two_messages : M WT unit :=
  begin_packet 1 ;; write_message 8 [[65]] ;;
  begin_packet 1 ;; write_message 8 [[66]].

(** ** The session and its connection *)

Inductive tds_state : Type :=
| TDS_IDLE | TDS_QUERYING | TDS_PENDING | TDS_READING | TDS_DEAD.

Definition state_eqb (a b : tds_state) : bool :=
  match a, b with
  | TDS_IDLE, TDS_IDLE | TDS_QUERYING, TDS_QUERYING | TDS_PENDING, TDS_PENDING
  | TDS_READING, TDS_READING | TDS_DEAD, TDS_DEAD => true
  | _, _ => false
  end.

Record TdsReader := mkReader {
  r_buf : list Z;
  r_pos : Z;
  r_have : Z;
  r_size : Z;
  r_type : option Z;
  r_status : option Z
}.

(** [_TdsReader.__init__]. *)
Definition new_reader : TdsReader :=
  {| r_buf := repeat 0 4096; r_pos := 4096; r_have := 0; r_size := 0;
     r_type := None; r_status := None |}.

(** [_Results]; the column list holds serializers, which are outside this
    file, and is left out. *)
Record Results := mkResults {
  row_count : Z;
  more_results : option bool
}.

Record Route := mkRoute { route_server : string; route_port : Z }.

Record TdsEnv := mkEnv {
  database : option string;
  language : option string;
  charset : option string
}.

(** [_TdsSocket], the connection.  A collation is kept as its five wire
    bytes, a codec as the name it was looked up under. *)
Record TdsSocket := mkSocket {
  env : TdsEnv;
  collation : option (list Z);
  tds72_transaction : Z;
  server_codec : option string;
  comp_flags : option string;
  route : option Route;
  tds_version : Z;
  server_library_version : option (Z * Z);
  _mars_enabled : bool
}.

(** Calls into the [tls] module, which is outside this file: they are
    recorded, oldest first. *)
Inductive tls_call : Type := establish_channel | revert_to_clear.

Record TdsSession := mkSession {
  _transport : Transport;
  _reader : TdsReader;
  _writer : TdsWriter;
  state : tds_state;
  in_cancel : bool;
  messages : list Message;
  rows_affected : Z;
  internal_sp_called : Z;
  done_flags : Z;
  end_marker : Z;
  more_rows : bool;
  res_info : option Results;
  _spid : Z;
  tls_calls : list tls_call;
  conn : TdsSocket
}.

Definition with_transport (v : Transport) (s : TdsSession) : TdsSession :=
  mkSession v (_reader s) (_writer s) (state s) (in_cancel s) (messages s)
    (rows_affected s) (internal_sp_called s) (done_flags s) (end_marker s) (more_rows s)
    (res_info s) (_spid s) (tls_calls s) (conn s).
Definition with_reader (v : TdsReader) (s : TdsSession) : TdsSession :=
  mkSession (_transport s) v (_writer s) (state s) (in_cancel s) (messages s)
    (rows_affected s) (internal_sp_called s) (done_flags s) (end_marker s) (more_rows s)
    (res_info s) (_spid s) (tls_calls s) (conn s).
Definition with_writer (v : TdsWriter) (s : TdsSession) : TdsSession :=
  mkSession (_transport s) (_reader s) v (state s) (in_cancel s) (messages s)
    (rows_affected s) (internal_sp_called s) (done_flags s) (end_marker s) (more_rows s)
    (res_info s) (_spid s) (tls_calls s) (conn s).
Definition with_state (v : tds_state) (s : TdsSession) : TdsSession :=
  mkSession (_transport s) (_reader s) (_writer s) v (in_cancel s) (messages s)
    (rows_affected s) (internal_sp_called s) (done_flags s) (end_marker s) (more_rows s)
    (res_info s) (_spid s) (tls_calls s) (conn s).
Definition with_in_cancel (v : bool) (s : TdsSession) : TdsSession :=
  mkSession (_transport s) (_reader s) (_writer s) (state s) v (messages s)
    (rows_affected s) (internal_sp_called s) (done_flags s) (end_marker s) (more_rows s)
    (res_info s) (_spid s) (tls_calls s) (conn s).
Definition with_messages (v : list Message) (s : TdsSession) : TdsSession :=
  mkSession (_transport s) (_reader s) (_writer s) (state s) (in_cancel s) v
    (rows_affected s) (internal_sp_called s) (done_flags s) (end_marker s) (more_rows s)
    (res_info s) (_spid s) (tls_calls s) (conn s).
Definition with_rows_affected (v : Z) (s : TdsSession) : TdsSession :=
  mkSession (_transport s) (_reader s) (_writer s) (state s) (in_cancel s) (messages s)
    v (internal_sp_called s) (done_flags s) (end_marker s) (more_rows s)
    (res_info s) (_spid s) (tls_calls s) (conn s).
Definition with_internal_sp_called (v : Z) (s : TdsSession) : TdsSession :=
  mkSession (_transport s) (_reader s) (_writer s) (state s) (in_cancel s) (messages s)
    (rows_affected s) v (done_flags s) (end_marker s) (more_rows s)
    (res_info s) (_spid s) (tls_calls s) (conn s).
Definition with_done_flags (v : Z) (s : TdsSession) : TdsSession :=
  mkSession (_transport s) (_reader s) (_writer s) (state s) (in_cancel s) (messages s)
    (rows_affected s) (internal_sp_called s) v (end_marker s) (more_rows s)
    (res_info s) (_spid s) (tls_calls s) (conn s).
Definition with_end_marker (v : Z) (s : TdsSession) : TdsSession :=
  mkSession (_transport s) (_reader s) (_writer s) (state s) (in_cancel s) (messages s)
    (rows_affected s) (internal_sp_called s) (done_flags s) v (more_rows s)
    (res_info s) (_spid s) (tls_calls s) (conn s).
Definition with_more_rows (v : bool) (s : TdsSession) : TdsSession :=
  mkSession (_transport s) (_reader s) (_writer s) (state s) (in_cancel s) (messages s)
    (rows_affected s) (internal_sp_called s) (done_flags s) (end_marker s) v
    (res_info s) (_spid s) (tls_calls s) (conn s).
Definition with_res_info (v : option Results) (s : TdsSession) : TdsSession :=
  mkSession (_transport s) (_reader s) (_writer s) (state s) (in_cancel s) (messages s)
    (rows_affected s) (internal_sp_called s) (done_flags s) (end_marker s) (more_rows s)
    v (_spid s) (tls_calls s) (conn s).
Definition with_spid (v : Z) (s : TdsSession) : TdsSession :=
  mkSession (_transport s) (_reader s) (_writer s) (state s) (in_cancel s) (messages s)
    (rows_affected s) (internal_sp_called s) (done_flags s) (end_marker s) (more_rows s)
    (res_info s) v (tls_calls s) (conn s).
Definition with_tls_calls (v : list tls_call) (s : TdsSession) : TdsSession :=
  mkSession (_transport s) (_reader s) (_writer s) (state s) (in_cancel s) (messages s)
    (rows_affected s) (internal_sp_called s) (done_flags s) (end_marker s) (more_rows s)
    (res_info s) (_spid s) v (conn s).
Definition with_conn (v : TdsSocket) (s : TdsSession) : TdsSession :=
  mkSession (_transport s) (_reader s) (_writer s) (state s) (in_cancel s) (messages s)
    (rows_affected s) (internal_sp_called s) (done_flags s) (end_marker s) (more_rows s)
    (res_info s) (_spid s) (tls_calls s) v.

(** A writer method called from a session method: it runs on the session's
    writer and on the transport the session shares with it. *)
Definition on_writer {A} (c : M WT A) : M TdsSession A :=
  zoom (fun s => (_writer s, _transport s))
       (fun '(w, t) s => with_transport t (with_writer w s)) c.

(** ** What [tds_base] and the other modules supply *)

(** Constants, tables and helpers of [tds_base], [collate] and the Python
    library that [tds.py] uses and that are not in this file.  The token
    readers ([get_byte], [read_ucs2], ...) are methods of [_TdsReader] built on
    [tds_base.readall] and [readall_fast]; they run on the session because
    reading a packet writes [session._spid] and may send a CANCEL. *)
Class TdsBase := {
  state_names : tds_state -> string;
  TDS_NO_COUNT : Z;
  prog_errors : list Z;
  integrity_errors : list Z;
  IS_TDS72_PLUS : TdsSession -> bool;
  TDS_ENV_SQLCOLLATION : Z;
  TDS_ENV_BEGINTRANS : Z;
  TDS_ENV_COMMITTRANS : Z;
  TDS_ENV_ROLLBACKTRANS : Z;
  TDS_ENV_PACKSIZE : Z;
  TDS_ENV_DATABASE : Z;
  TDS_ENV_LANG : Z;
  TDS_ENV_CHARSET : Z;
  TDS_ENV_DB_MIRRORING_PARTNER : Z;
  TDS_ENV_LCID : Z;
  TDS_ENV_UNICODE_DATA_SORT_COMP_FLAGS : Z;
  PreLoginToken_VERSION : Z;
  PreLoginToken_ENCRYPTION : Z;
  PreLoginToken_INSTOPT : Z;
  PreLoginToken_MARS : Z;
  lcid2charset : Z -> string;
  codecs_lookup : string -> outcome string;
  int_of_str : string -> outcome Z;
  get_byte : M TdsSession Z;
  get_smallint : M TdsSession Z;
  get_usmallint : M TdsSession Z;
  get_int : M TdsSession Z;
  get_int8 : M TdsSession Z;
  get_uint8 : M TdsSession Z;
  read_ucs2 : Z -> M TdsSession string;
  get_collation : M TdsSession (list Z);
  skipall : Z -> M TdsSession unit
}.

(** Modelled from the spec: the DONE status bits of [tds_base], which is not
    in this file (section 6: MORE=0x01, ERROR=0x02, COUNT=0x10,
    CANCELLED=0x20). *)
Definition TDS_DONE_MORE_RESULTS : Z := 0x01.
Definition TDS_DONE_ERROR : Z := 0x02.
Definition TDS_DONE_COUNT : Z := 0x10.
Definition TDS_DONE_CANCELLED : Z := 0x20.

(** Modelled from the spec: the DONE, DONEPROC and DONEINPROC token markers
    of [tds_base] (section 4.3: 0xFD, 0xFE, 0xFF). *)
Definition TDS_DONE_TOKEN : Z := 0xFD.
Definition TDS_DONEPROC_TOKEN : Z := 0xFE.
Definition TDS_DONEINPROC_TOKEN : Z := 0xFF.

(** Modelled from the spec: the CANCEL packet type of [tds_base.PacketType]
    (section 3: CANCEL=6). *)
Definition PacketType_CANCEL : Z := 6.

(** Truth of a Python integer. *)
Definition truthy (v : Z) : bool := negb (v =? 0).

(** ** [set_state] *)

Definition logic_error `{TdsBase} (verb : string) (prior_state st : tds_state) : exn :=
  InterfaceError ("logic error: cannot " ++ verb ++ " query state from "
                  ++ state_names prior_state ++ " to " ++ state_names st)%string.

(** The five constants are the only values the callers pass; on them the
    closing [else: assert False] is never reached. *)
Definition set_state `{TdsBase} (st : tds_state) : M TdsSession tds_state :=
  prior_state <- gets state ;;
  if state_eqb st prior_state then ret st
  else
    (match st with
     | TDS_PENDING =>
         match prior_state with
         | TDS_READING | TDS_QUERYING => modify (with_state TDS_PENDING)
         | _ => raise (logic_error "chage" prior_state st)
         end
     | TDS_READING =>
         cur <- gets state ;;
         if negb (state_eqb cur TDS_PENDING)
         then raise (logic_error "change" prior_state st)
         else modify (with_state st)
     | TDS_IDLE =>
         (if state_eqb prior_state TDS_DEAD
          then raise (logic_error "change" prior_state st)
          else ret tt) ;;
         modify (with_state st)
     | TDS_DEAD => modify (with_state st)
     | TDS_QUERYING =>
         cur <- gets state ;;
         if state_eqb cur TDS_DEAD then raise (logic_error "change" prior_state st)
         else if negb (state_eqb cur TDS_IDLE)
         then raise (logic_error "change" prior_state st)
         else
           modify (with_rows_affected TDS_NO_COUNT) ;;
           modify (with_internal_sp_called 0) ;;
           modify (with_state st)
     end) ;;
    gets state.

(** The transitions the specification documents: staying put is always
    allowed; QUERYING only from IDLE, READING only from PENDING, PENDING only
    from QUERYING or READING, IDLE from anywhere but DEAD, DEAD from anywhere. *)
Definition documented_transition (from to : tds_state) : bool :=
  state_eqb from to ||
  match to with
  | TDS_QUERYING => state_eqb from TDS_IDLE
  | TDS_READING => state_eqb from TDS_PENDING
  | TDS_PENDING => state_eqb from TDS_QUERYING || state_eqb from TDS_READING
  | TDS_IDLE => negb (state_eqb from TDS_DEAD)
  | TDS_DEAD => true
  end.

(** What a permitted transition leaves behind: the new state, and on entering
    QUERYING the two counters reset. *)
Definition entered `{TdsBase} (st : tds_state) (s : TdsSession) : TdsSession :=
  if state_eqb st (state s) then s
  else match st with
       | TDS_QUERYING =>
           with_state st (with_internal_sp_called 0 (with_rows_affected TDS_NO_COUNT s))
       | _ => with_state st s
       end.

(** ** [raise_db_exception] *)

Definition mem (v : Z) (l : list Z) : bool := existsb (Z.eqb v) l.

Definition _create_exception_by_message `{TdsBase}
  (msg : Message) (custom_error_msg : option string) : exn :=
  let msg_no := msgno msg in
  let text := match custom_error_msg with
              | Some custom => custom
              | None => message msg
              end in
  let ex := {| error_msg := text; source_msg := msg |} in
  if mem msg_no prog_errors then ProgrammingError ex
  else if mem msg_no integrity_errors then IntegrityError ex
  else OperationalError ex.

(** [l[-1]], which raises [IndexError] on an empty list. *)
Definition last_item {A} (l : list A) : option A :=
  match rev l with
  | [] => None
  | x :: _ => Some x
  end.

(** The [while True] loop of [raise_db_exception]. *)
Fixpoint skip_terminated (fuel : nat) : M TdsSession Message :=
  match fuel with
  | O => diverge
  | S fuel' =>
      msgs <- gets messages ;;
      match last_item msgs with
      | None => raise IndexError
      | Some msg =>
          if msgno msg =? 3621
          then modify (with_messages (removelast msgs)) ;; skip_terminated fuel'
          else ret msg
      end
  end.

(** The loop drops one message per pass, so one pass more than there are
    messages is enough fuel. *)
Definition raise_db_exception `{TdsBase} : M TdsSession unit :=
  msgs <- gets messages ;;
  match msgs with
  | [] => raise (Error "Request failed, server didn't send error message")
  | _ =>
      msg <- skip_terminated (S (length msgs)) ;;
      msgs' <- gets messages ;;
      let error_msg := String.concat " " (map message msgs') in
      raise (_create_exception_by_message msg (Some error_msg))
  end.

Definition is_db_exception (e : exn) : bool :=
  match e with
  | ProgrammingError _ | IntegrityError _ | OperationalError _ => true
  | _ => false
  end.

(** The messages left once the trailing 3621 ("the statement has been
    terminated") messages are dropped. *)
Fixpoint drop_trailing_3621 (msgs : list Message) : list Message :=
  match msgs with
  | [] => []
  | m :: rest =>
      match drop_trailing_3621 rest with
      | [] => if msgno m =? 3621 then [] else [m]
      | kept => m :: kept
      end
  end.

(** ** [process_end] *)

Definition is_done_marker (marker : Z) : bool :=
  (marker =? TDS_DONE_TOKEN) || (marker =? TDS_DONEINPROC_TOKEN)
  || (marker =? TDS_DONEPROC_TOKEN).

(** The first half of [process_end]: the token's fields are read.  It gives
    the status word and the row count. *)
Definition read_done_token `{TdsBase} (marker : Z) : M TdsSession (Z * Z) :=
  modify (with_end_marker marker) ;;
  modify (with_more_rows false) ;;
  status <- get_usmallint ;;
  _ <- get_usmallint ;;
  let more_results := truthy (Z.land status TDS_DONE_MORE_RESULTS) in
  modify (fun s =>
    match res_info s with
    | Some info =>
        with_res_info
          (Some {| row_count := row_count info; more_results := Some more_results |}) s
    | None => s
    end) ;;
  s <- get ;;
  rows <- (if IS_TDS72_PLUS s then get_int8 else get_int) ;;
  ret (status, rows).

(** The second half: [code_to_str[marker]] for the log line, then the state
    change, the row count and the error check. *)
Definition apply_done_token `{TdsBase} (marker status rows : Z) : M TdsSession unit :=
  let more_results := truthy (Z.land status TDS_DONE_MORE_RESULTS) in
  let was_cancelled := truthy (Z.land status TDS_DONE_CANCELLED) in
  let done_count_valid := truthy (Z.land status TDS_DONE_COUNT) in
  (if is_done_marker marker then ret tt else raise KeyError) ;;
  cancelling <- gets in_cancel ;;
  (if was_cancelled || (negb more_results && negb cancelling)
   then modify (with_in_cancel false) ;; _ <- set_state TDS_IDLE ;; ret tt
   else ret tt) ;;
  modify (with_rows_affected (if done_count_valid then rows else -1)) ;;
  modify (with_done_flags status) ;;
  flags <- gets done_flags ;;
  cancelling' <- gets in_cancel ;;
  if truthy (Z.land flags TDS_DONE_ERROR) && negb was_cancelled && negb cancelling'
  then raise_db_exception
  else ret tt.

Definition process_end `{TdsBase} (marker : Z) : M TdsSession unit :=
  token <- read_done_token marker ;;
  apply_done_token marker (fst token) (snd token).

(** ** [put_cancel] and [_TdsReader._read_packet] *)

Definition put_cancel : M TdsSession unit :=
  on_writer (begin_packet PacketType_CANCEL) ;;
  on_writer flush ;;
  modify (with_in_cancel true).

Definition with_inbox (evs : list event) (t : Transport) : Transport :=
  {| inbox := evs; outbox := outbox t; closed := closed t |}.

Definition with_r_buf (buf : list Z) (r : TdsReader) : TdsReader :=
  {| r_buf := buf; r_pos := r_pos r; r_have := r_have r; r_size := r_size r;
     r_type := r_type r; r_status := r_status r |}.
Definition with_r_pos (v : Z) (r : TdsReader) : TdsReader :=
  {| r_buf := r_buf r; r_pos := v; r_have := r_have r; r_size := r_size r;
     r_type := r_type r; r_status := r_status r |}.
Definition with_r_have (v : Z) (r : TdsReader) : TdsReader :=
  {| r_buf := r_buf r; r_pos := r_pos r; r_have := v; r_size := r_size r;
     r_type := r_type r; r_status := r_status r |}.

(** [self._transport.recv_into(self._bufview[pos:], n)] with [n > 0], on a
    socket: asking for more than the view holds is a [ValueError]; otherwise
    the next event of the script happens.  Bytes beyond the [n] asked for stay
    in the transport; the end of the script reads as a closed connection. *)
Definition recv_into (pos n : Z) : M TdsSession Z :=
  fun s =>
    let r := _reader s in
    let t := _transport s in
    if Z.max 0 (len (r_buf r) - pos) <? n then (s, Raise ValueError)
    else
      match inbox t with
      | [] => (s, Ok 0)
      | TimedOut :: rest => (with_transport (with_inbox rest t) s, Raise TimeoutError)
      | Bytes bs :: rest =>
          let got := firstn (Z.to_nat n) bs in
          let rest' := match skipn (Z.to_nat n) bs with
                       | [] => rest
                       | unread => Bytes unread :: rest
                       end in
          (with_transport (with_inbox rest' t)
             (with_reader
                (with_r_buf (slice_assign (r_buf r) pos (pos + len got) got) r) s),
           Ok (len got))
      end.

(** [try: body  except tds_base.TimeoutError: handler]. *)
Definition except_timeout {S A} (body handler : M S A) : M S A :=
  fun s =>
    match body s with
    | (s', Raise TimeoutError) => handler s'
    | other => other
    end.

(** [while pos < _header.size], the header loop. *)
Fixpoint read_header_loop (fuel : nat) (pos : Z) : M TdsSession Z :=
  match fuel with
  | O => diverge
  | S fuel' =>
      if pos <? 8 then
        received <- recv_into pos (8 - pos) ;;
        if received =? 0 then raise ClosedConnectionError
        else read_header_loop fuel' (pos + received)
      else ret pos
  end.

(** [while pos < self._size], the body loop. *)
Fixpoint read_body_loop (fuel : nat) (pos : Z) : M TdsSession unit :=
  match fuel with
  | O => diverge
  | S fuel' =>
      size <- gets (fun s => r_size (_reader s)) ;;
      if pos <? size then
        received <- recv_into pos (size - pos) ;;
        if received =? 0 then raise ClosedConnectionError
        else
          modify (fun s => with_reader (with_r_have (r_have (_reader s) + received)
                                          (_reader s)) s) ;;
          read_body_loop fuel' (pos + received)
      else ret tt
  end.

(** [_header.unpack_from(self._bufview, 0)]: type, status, size and spid go
    to the reader and the session, the packet number is dropped. *)
Definition unpack_header : M TdsSession unit :=
  modify (fun s =>
    let r := _reader s in
    let buf := r_buf r in
    with_spid (256 * nth 4 buf 0 + nth 5 buf 0)
      (with_reader
         {| r_buf := buf; r_pos := r_pos r; r_have := r_have r;
            r_size := 256 * nth 2 buf 0 + nth 3 buf 0;
            r_type := Some (nth 0 buf 0); r_status := Some (nth 1 buf 0) |} s)).

(** Every pass of either loop receives at least one byte and one more pass
    sees the loop condition fail, so nine passes cover the header and
    [size + 1] passes the body. *)
Definition _read_packet : M TdsSession unit :=
  pos <- except_timeout (read_header_loop 9 0) (put_cancel ;; raise TimeoutError) ;;
  modify (fun s => with_reader (with_r_pos 8 (_reader s)) s) ;;
  unpack_header ;;
  modify (fun s => with_reader (with_r_have pos (_reader s)) s) ;;
  size <- gets (fun s => r_size (_reader s)) ;;
  read_body_loop (S (Z.to_nat size)) pos.

(** The CANCEL packet [put_cancel] sends: an empty final packet of type 6. *)
Definition cancel_packet (packet_no : Z) : list Z := [6; 1; 0; 8; 0; 0; packet_no; 0].

(** The length field of a packet, read off the first bytes of the stream. *)
Definition wire_size (stream : list Z) : Z := 256 * nth 2 stream 0 + nth 3 stream 0.

(** ** [process_env_chg] *)

Definition lift_outcome {S A} (o : outcome A) : M S A := fun s => (s, o).

Definition with_conn_collation (v : option (list Z)) (c : TdsSocket) : TdsSocket :=
  mkSocket (env c) v (tds72_transaction c) (server_codec c) (comp_flags c) (route c)
    (tds_version c) (server_library_version c) (_mars_enabled c).
Definition with_conn_transaction (v : Z) (c : TdsSocket) : TdsSocket :=
  mkSocket (env c) (collation c) v (server_codec c) (comp_flags c) (route c)
    (tds_version c) (server_library_version c) (_mars_enabled c).
Definition with_conn_env (v : TdsEnv) (c : TdsSocket) : TdsSocket :=
  mkSocket v (collation c) (tds72_transaction c) (server_codec c) (comp_flags c) (route c)
    (tds_version c) (server_library_version c) (_mars_enabled c).
Definition with_conn_codec (v : option string) (c : TdsSocket) : TdsSocket :=
  mkSocket (env c) (collation c) (tds72_transaction c) v (comp_flags c) (route c)
    (tds_version c) (server_library_version c) (_mars_enabled c).
Definition with_conn_comp_flags (v : option string) (c : TdsSocket) : TdsSocket :=
  mkSocket (env c) (collation c) (tds72_transaction c) (server_codec c) v (route c)
    (tds_version c) (server_library_version c) (_mars_enabled c).
Definition with_conn_route (v : option Route) (c : TdsSocket) : TdsSocket :=
  mkSocket (env c) (collation c) (tds72_transaction c) (server_codec c) (comp_flags c) v
    (tds_version c) (server_library_version c) (_mars_enabled c).
Definition with_conn_library_version (v : option (Z * Z)) (c : TdsSocket) : TdsSocket :=
  mkSocket (env c) (collation c) (tds72_transaction c) (server_codec c) (comp_flags c)
    (route c) (tds_version c) v (_mars_enabled c).
Definition with_conn_mars (v : bool) (c : TdsSocket) : TdsSocket :=
  mkSocket (env c) (collation c) (tds72_transaction c) (server_codec c) (comp_flags c)
    (route c) (tds_version c) (server_library_version c) v.

Definition on_conn (f : TdsSocket -> TdsSocket) : M TdsSession unit :=
  modify (fun s => with_conn (f (conn s)) s).

(** [self._writer.bufsize = new_block_size]. *)
Definition assign_bufsize (new_block_size : Z) : M TdsSession unit :=
  modify (fun s => with_writer (set_bufsize new_block_size (_writer s)) s).

Definition process_env_chg `{TdsBase} : M TdsSession unit :=
  size <- get_smallint ;;
  type_id <- get_byte ;;
  if type_id =? TDS_ENV_SQLCOLLATION then
    size <- get_byte ;;
    coll <- get_collation ;;
    on_conn (with_conn_collation (Some coll)) ;;
    skipall (size - 5) ;;
    old <- get_byte ;;
    skipall old
  else if type_id =? TDS_ENV_BEGINTRANS then
    size <- get_byte ;;
    (if size =? 8 then ret tt else raise AssertionError) ;;
    descriptor <- get_uint8 ;;
    on_conn (with_conn_transaction descriptor) ;;
    old <- get_byte ;;
    skipall old
  else if (type_id =? TDS_ENV_COMMITTRANS) || (type_id =? TDS_ENV_ROLLBACKTRANS) then
    on_conn (with_conn_transaction 0) ;;
    new <- get_byte ;;
    skipall new ;;
    old <- get_byte ;;
    skipall old
  else if type_id =? TDS_ENV_PACKSIZE then
    n <- get_byte ;;
    newval <- read_ucs2 n ;;
    n' <- get_byte ;;
    _ <- read_ucs2 n' ;;
    new_block_size <- lift_outcome (int_of_str newval) ;;
    if 512 <=? new_block_size then assign_bufsize new_block_size else ret tt
  else if type_id =? TDS_ENV_DATABASE then
    n <- get_byte ;;
    newval <- read_ucs2 n ;;
    n' <- get_byte ;;
    _ <- read_ucs2 n' ;;
    on_conn (fun c => with_conn_env
               {| database := Some newval; language := language (env c);
                  charset := charset (env c) |} c)
  else if type_id =? TDS_ENV_LANG then
    n <- get_byte ;;
    newval <- read_ucs2 n ;;
    n' <- get_byte ;;
    _ <- read_ucs2 n' ;;
    on_conn (fun c => with_conn_env
               {| database := database (env c); language := Some newval;
                  charset := charset (env c) |} c)
  else if type_id =? TDS_ENV_CHARSET then
    n <- get_byte ;;
    newval <- read_ucs2 n ;;
    n' <- get_byte ;;
    _ <- read_ucs2 n' ;;
    on_conn (fun c => with_conn_env
               {| database := database (env c); language := language (env c);
                  charset := Some newval |} c) ;;
    codec <- lift_outcome
               (codecs_lookup (if String.eqb newval "iso_1" then "iso8859-1" else newval)) ;;
    on_conn (with_conn_codec (Some codec))
  else if type_id =? TDS_ENV_DB_MIRRORING_PARTNER then
    n <- get_byte ;;
    _ <- read_ucs2 n ;;
    n' <- get_byte ;;
    _ <- read_ucs2 n' ;;
    ret tt
  else if type_id =? TDS_ENV_LCID then
    n <- get_byte ;;
    text <- read_ucs2 n ;;
    lcid <- lift_outcome (int_of_str text) ;;
    codec <- lift_outcome (codecs_lookup (lcid2charset lcid)) ;;
    on_conn (with_conn_codec (Some codec)) ;;
    n' <- get_byte ;;
    _ <- read_ucs2 n' ;;
    ret tt
  else if type_id =? TDS_ENV_UNICODE_DATA_SORT_COMP_FLAGS then
    n <- get_byte ;;
    _ <- read_ucs2 n ;;
    n' <- get_byte ;;
    flags <- read_ucs2 n' ;;
    on_conn (with_conn_comp_flags (Some flags))
  else if type_id =? 20 then
    _ <- get_usmallint ;;
    _ <- get_byte ;;
    protocol_property <- get_usmallint ;;
    n <- get_usmallint ;;
    alt_server <- read_ucs2 n ;;
    on_conn (with_conn_route
               (Some {| route_server := alt_server; route_port := protocol_property |})) ;;
    _ <- get_usmallint ;;
    ret tt
  else
    skipall (size - 1).

(** The reader hands over a packet-size ENVCHANGE whose new value is the
    string [newval], and leaves the session as [s']. *)
Definition reads_packsize_change `{TdsBase}
  (s : TdsSession) (newval : string) (s' : TdsSession) : Prop :=
  exists size s1 s2 n s3 s4 n' s5 oldval,
    get_smallint s = (s1, Ok size) /\
    get_byte s1 = (s2, Ok TDS_ENV_PACKSIZE) /\
    get_byte s2 = (s3, Ok n) /\
    read_ucs2 n s3 = (s4, Ok newval) /\
    get_byte s4 = (s5, Ok n') /\
    read_ucs2 n' s5 = (s', Ok oldval).

(** ** [parse_prelogin] *)

(** The fields of [_TdsLogin] the PRELOGIN exchange uses; [server_enc_flag]
    is the attribute [parse_prelogin] stores on the login object. *)
Record TdsLogin := mkLogin {
  enc_flag : Z;
  server_enc_flag : option Z
}.

(** Modelled from the spec: the values of [tds_base.PreLoginEnc] and the
    terminator of [tds_base.PreLoginToken], which are not in this file
    (section 6: OFF=0, ON=1, REQ=2, NOT_SUP=3; terminator option 0xFF). *)
Definition ENCRYPT_OFF : Z := 0.
Definition ENCRYPT_ON : Z := 1.
Definition ENCRYPT_REQ : Z := 2.
Definition ENCRYPT_NOT_SUP : Z := 3.
Definition PreLoginToken_TERMINATOR : Z := 0xFF.

(** [struct.Struct(...).unpack_from(p, off)] for [off >= 0] and a structure
    of [size] bytes: [struct.error] unless the buffer holds all of it. *)
Definition unpack_from {S A} (size : Z) (decode : list Z -> A) (p : list Z) (off : Z)
  : M S A :=
  if off + size <=? len p
  then ret (decode (slice p off (off + size)))
  else raise StructError.

Definition be_uint (bs : list Z) : Z := fold_left (fun acc b => 256 * acc + b) bs 0.

(** ['B'], ['>HH'] and ['>LH']. *)
Definition byte_struct {S} : list Z -> Z -> M S Z :=
  unpack_from 1 (fun bs => nth 0 bs 0).
Definition off_len_struct {S} : list Z -> Z -> M S (Z * Z) :=
  unpack_from 4 (fun bs => (be_uint (firstn 2 bs), be_uint (skipn 2 bs))).
Definition prod_version_struct {S} : list Z -> Z -> M S (Z * Z) :=
  unpack_from 6 (fun bs => (be_uint (firstn 4 bs), be_uint (skipn 4 bs))).

(** [bad_stream]: close the transport, raise [InterfaceError]. *)
Definition bad_stream {A} (msg : string) : M TdsSession A :=
  modify (fun s => with_transport (fst (close (_transport s))) s) ;;
  raise (InterfaceError msg).

(** The option loop of [parse_prelogin]; it gives the encryption byte the
    server sent, or the default it started from. *)
Fixpoint prelogin_options `{TdsBase} (fuel : nat) (p : list Z) (i crypt_flag : Z)
  : M TdsSession Z :=
  match fuel with
  | O => diverge
  | S fuel' =>
      let size := len p in
      (if size <=? i then bad_stream "Invalid size of PRELOGIN structure" else ret tt) ;;
      type_id <- byte_struct p i ;;
      if type_id =? PreLoginToken_TERMINATOR then ret crypt_flag
      else
        (if size <? i + 4 then bad_stream "Invalid size of PRELOGIN structure"
         else ret tt) ;;
        off_l <- off_len_struct p (i + 1) ;;
        let off := fst off_l in
        let l := snd off_l in
        (if (size <? off) || (size <? off + l)
         then bad_stream "Invalid offset in PRELOGIN structure" else ret tt) ;;
        crypt_flag' <-
          (if type_id =? PreLoginToken_VERSION then
             version <- prod_version_struct p off ;;
             on_conn (with_conn_library_version (Some version)) ;;
             ret crypt_flag
           else if (type_id =? PreLoginToken_ENCRYPTION) && (1 <=? l) then
             byte_struct p off
           else if type_id =? PreLoginToken_MARS then
             mars <- byte_struct p off ;;
             on_conn (with_conn_mars (truthy mars)) ;;
             ret crypt_flag
           else if type_id =? PreLoginToken_INSTOPT then
             ret crypt_flag
           else ret crypt_flag) ;;
        prelogin_options fuel' p (i + 5) crypt_flag'
  end.

Definition on_session {A} (c : M TdsSession A) : M (TdsSession * TdsLogin) A :=
  zoom fst (fun s' sl => (s', snd sl)) c.

Definition tls_establish_channel : M TdsSession unit :=
  modify (fun s => with_tls_calls (tls_calls s ++ [establish_channel]) s).

(** The loop moves on by five bytes per option and stops at the end of the
    reply, so one pass more than there are bytes is enough fuel. *)
Definition parse_prelogin `{TdsBase} (octets : list Z) : M (TdsSession * TdsLogin) unit :=
  crypt_flag <- on_session (prelogin_options (S (length octets)) octets 0 2) ;;
  modify (fun sl => (fst sl, {| enc_flag := enc_flag (snd sl);
                                server_enc_flag := Some crypt_flag |})) ;;
  client <- gets (fun sl => enc_flag (snd sl)) ;;
  if crypt_flag =? ENCRYPT_OFF then
    if client =? ENCRYPT_ON
    then on_session (bad_stream "Server returned unexpected ENCRYPT_ON value")
    else on_session tls_establish_channel
  else if crypt_flag =? ENCRYPT_ON then
    on_session tls_establish_channel
  else if crypt_flag =? ENCRYPT_REQ then
    if client =? ENCRYPT_NOT_SUP
    then raise (Error ("Client does not have encryption enabled but it is required by "
                       ++ "server, enable encryption and try connecting again"))
    else on_session tls_establish_channel
  else if crypt_flag =? ENCRYPT_NOT_SUP then
    if client =? ENCRYPT_ON
    then raise (Error "You requested encryption but it is not supported by server")
    else ret tt
  else
    on_session (bad_stream ("Unexpected value of enc_flag returned by server: "
                            ++ NilZero.string_of_int (Z.to_int crypt_flag))).

(** How much of the traffic ends up encrypted.  After [parse_prelogin],
    [_TdsSocket.login] sends LOGIN7 and then calls [tls.revert_to_clear]
    exactly when [login.server_enc_flag == ENCRYPT_OFF]: a channel established
    under that flag covers the login packet only. *)
Inductive encryption : Type :=
| encrypt_login_only | encrypt_entire_channel | no_encryption.

Definition negotiated_encryption (sl : TdsSession * TdsLogin) : encryption :=
  match tls_calls (fst sl) with
  | [] => no_encryption
  | _ =>
      match server_enc_flag (snd sl) with
      | Some flag => if flag =? ENCRYPT_OFF then encrypt_login_only
                     else encrypt_entire_channel
      | None => encrypt_entire_channel
      end
  end.

Inductive enc_name : Type := OFF | ON | REQ | NOT_SUP.

Definition enc_value (name : enc_name) : Z :=
  match name with
  | OFF => ENCRYPT_OFF
  | ON => ENCRYPT_ON
  | REQ => ENCRYPT_REQ
  | NOT_SUP => ENCRYPT_NOT_SUP
  end.

(** The matrix as the specification prints it, by server flag and client
    flag; [None] is an error. *)
Definition specified_matrix (server_flag client_flag : enc_name) : option encryption :=
  match server_flag, client_flag with
  | OFF, OFF => Some encrypt_login_only
  | OFF, ON => None
  | OFF, REQ => Some encrypt_login_only
  | OFF, NOT_SUP => Some no_encryption
  | ON, NOT_SUP => None
  | ON, _ => Some encrypt_entire_channel
  | REQ, NOT_SUP => None
  | REQ, _ => Some encrypt_entire_channel
  | NOT_SUP, NOT_SUP => Some no_encryption
  | NOT_SUP, _ => None
  end.

(** The matrix [parse_prelogin] implements. *)
Definition implemented_matrix (server_flag client_flag : enc_name) : option encryption :=
  match server_flag, client_flag with
  | OFF, ON => None
  | OFF, _ => Some encrypt_login_only
  | ON, _ => Some encrypt_entire_channel
  | REQ, NOT_SUP => None
  | REQ, _ => Some encrypt_entire_channel
  | NOT_SUP, ON => None
  | NOT_SUP, _ => Some no_encryption
  end.

(** ** An instance to run the model on *)

(** Token readers that decode from the bytes of the packet already in the
    reader's buffer, and report a closed connection when those run out. *)
Definition take_buffered (n : Z) : M TdsSession (list Z) :=
  fun s =>
    let r := _reader s in
    if (0 <=? n) && (r_pos r + n <=? r_size r) && (r_size r <=? len (r_buf r))
    then (with_reader (with_r_pos (r_pos r + n) r) s,
          Ok (slice (r_buf r) (r_pos r) (r_pos r + n)))
    else (s, Raise ClosedConnectionError).

Definition le_uint (bs : list Z) : Z := fold_right (fun b acc => b + 256 * acc) 0 bs.

Definition le_int (bits : Z) (bs : list Z) : Z :=
  let v := le_uint bs in
  if v <? 2 ^ (bits - 1) then v else v - 2 ^ bits.

Fixpoint ucs2_decode_ascii (bs : list Z) : string :=
  match bs with
  | lo :: _ :: rest => String (ascii_of_nat (Z.to_nat lo)) (ucs2_decode_ascii rest)
  | _ => EmptyString
  end.

Fixpoint digits_value (s : string) (acc : Z) : option Z :=
  match s with
  | EmptyString => Some acc
  | String c rest =>
      let d := Z.of_nat (nat_of_ascii c) - 48 in
      if (0 <=? d) && (d <=? 9) then digits_value rest (10 * acc + d) else None
  end.

Definition decimal_int (s : string) : outcome Z :=
  match s with
  | EmptyString => Raise ValueError
  | _ => match digits_value s 0 with
         | Some v => Ok v
         | None => Raise ValueError
         end
  end.

(** Constants as the MS-TDS documents give them. *)
Definition buffered_base : TdsBase := {|
  state_names := fun st =>
    match st with
    | TDS_IDLE => "IDLE" | TDS_QUERYING => "QUERYING" | TDS_PENDING => "PENDING"
    | TDS_READING => "READING" | TDS_DEAD => "DEAD"
    end;
  TDS_NO_COUNT := -1;
  prog_errors := [102; 207; 208; 2812; 4104];
  integrity_errors := [515; 547; 2601; 2627];
  IS_TDS72_PLUS := fun s => 0x72090002 <=? tds_version (conn s);
  TDS_ENV_SQLCOLLATION := 7;
  TDS_ENV_BEGINTRANS := 8;
  TDS_ENV_COMMITTRANS := 9;
  TDS_ENV_ROLLBACKTRANS := 10;
  TDS_ENV_PACKSIZE := 4;
  TDS_ENV_DATABASE := 1;
  TDS_ENV_LANG := 2;
  TDS_ENV_CHARSET := 3;
  TDS_ENV_DB_MIRRORING_PARTNER := 13;
  TDS_ENV_LCID := 5;
  TDS_ENV_UNICODE_DATA_SORT_COMP_FLAGS := 6;
  PreLoginToken_VERSION := 0;
  PreLoginToken_ENCRYPTION := 1;
  PreLoginToken_INSTOPT := 2;
  PreLoginToken_MARS := 4;
  lcid2charset := fun _ => "cp1252";
  codecs_lookup := fun name => Ok name;
  int_of_str := decimal_int;
  get_byte := bs <- take_buffered 1 ;; ret (le_uint bs);
  get_smallint := bs <- take_buffered 2 ;; ret (le_int 16 bs);
  get_usmallint := bs <- take_buffered 2 ;; ret (le_uint bs);
  get_int := bs <- take_buffered 4 ;; ret (le_int 32 bs);
  get_int8 := bs <- take_buffered 8 ;; ret (le_int 64 bs);
  get_uint8 := bs <- take_buffered 8 ;; ret (le_uint bs);
  read_ucs2 := fun num_chars => bs <- take_buffered (num_chars * 2) ;;
                                ret (ucs2_decode_ascii bs);
  get_collation := take_buffered 5;
  skipall := fun n => _ <- take_buffered n ;; ret tt
|}.

(** [_TdsSocket.__init__] (TDS 7.4) and [_TdsSession.__init__]. *)
Definition new_socket : TdsSocket :=
  {| env := {| database := None; language := None; charset := None |};
     collation := None; tds72_transaction := 0; server_codec := None;
     comp_flags := None; route := None; tds_version := 0x74000004;
     server_library_version := None; _mars_enabled := false |}.

Definition new_session (bufsize : Z) : TdsSession :=
  {| _transport := empty_transport; _reader := new_reader;
     _writer := new_writer bufsize; state := TDS_IDLE; in_cancel := false;
     messages := []; rows_affected := -1; internal_sp_called := 0; done_flags := 0;
     end_marker := 0; more_rows := false; res_info := None; _spid := 0;
     tls_calls := []; conn := new_socket |}.

(** A session whose reader holds a packet with the given payload and stands
    behind the packet header. *)
Definition holding (token : list Z) (s : TdsSession) : TdsSession :=
  with_reader
    {| r_buf := slice_assign (r_buf (_reader s)) 8 (8 + len token) token;
       r_pos := 8; r_have := 8 + len token; r_size := 8 + len token;
       r_type := Some 4; r_status := Some 1 |} s.

(** A session with the given peer script ahead of it. *)
Definition expecting (script : list event) (s : TdsSession) : TdsSession :=
  with_transport (with_inbox script (_transport s)) s.

Definition message_numbered (no : Z) (text : string) : Message :=
  {| marker := 0xAA; msgno := no; msg_state := 1; severity := 16; priv_msg_type := 1;
     message := text; server := "srv"; proc_name := ""; line_number := 1 |}.

(** Tokens as they come off the wire: a final DONE with a row count of one,
    a DONE reporting an error, and a packet-size ENVCHANGE from 4096 to
    8192. *)
Definition done_with_count : list Z := [16; 0; 0; 0; 1; 0; 0; 0; 0; 0; 0; 0].
Definition done_with_error : list Z := [2; 0; 0; 0; 0; 0; 0; 0; 0; 0; 0; 0].
Definition packsize_8192 : list Z :=
  [19; 0; 4; 4; 56; 0; 49; 0; 57; 0; 50; 0; 4; 52; 0; 48; 0; 57; 0; 54; 0].

Definition statement_terminated : Message :=
  message_numbered 3621 "The statement has been terminated.".

(** What a computation leaves alone: [keeps f c] when no run of [c] changes
    the [f] of the state. *)
Definition keeps {S A B} (f : S -> B) (c : M S A) : Prop :=
  forall s s' r, c s = (s', r) -> f s' = f s.

(** A computation whose loops were given enough fuel. *)
Definition finishes {S A} (c : M S A) : Prop :=
  forall s, snd (c s) <> OutOfFuel.

(** A PRELOGIN reply: VERSION 11.0.3000, then the ENCRYPTION byte. *)
Definition prelogin_reply (server_flag : Z) : list Z :=
  [0; 0; 11; 0; 6; 1; 0; 17; 0; 1; 255; 11; 0; 11; 184; 0; 0; server_flag].

Definition login_with (client_flag : Z) : TdsLogin :=
  {| enc_flag := client_flag; server_enc_flag := Some ENCRYPT_NOT_SUP |}.

(** What the next [recv_into] on a script runs into, when it is not data:
    a timeout, or a read of zero bytes (an empty delivery, or nothing left). *)
Definition next_read (script : list event) : option exn :=
  match script with
  | [] => Some ClosedConnectionError
  | Bytes [] :: _ => Some ClosedConnectionError
  | Bytes (_ :: _) :: _ => None
  | TimedOut :: _ => Some TimeoutError
  end.

Definition is_timeout (e : exn) : bool :=
  match e with
  | TimeoutError => true
  | _ => false
  end.

(** [put_cancel] will get its packet out: the writer's buffer holds a header
    and its packet number is a byte. *)
Definition cancel_ready (s : TdsSession) : Prop :=
  8 <= len (w_buf (_writer s)) /\ 0 <= w_packet_no (_writer s) <= 255.

(** What reading leaves alone: the writer, what was sent, the cancel flag. *)
Definition beside_reading (s : TdsSession) : TdsWriter * list (list Z) * bool :=
  (_writer s, outbox (_transport s), in_cancel s).

(** A reply packet of twelve bytes whose body never arrives. *)
Definition stalled_body : list event := [Bytes [4; 1; 0; 12; 0; 0; 1; 0]; TimedOut].

(* ===================================================================== *)
(** * Part I, continued: the rest of the reader, the writer and the session *)
(* ===================================================================== *)

(** ** More of [_TdsReader] *)

(** The bytes a script delivers before its first timeout or zero-byte read. *)
Fixpoint incoming (script : list event) : list Z :=
  match script with
  | Bytes (b :: bs) :: rest => (b :: bs) ++ incoming rest
  | _ => []
  end.

(** A Python slice bound, for a sequence of [n] items: negative bounds count
    from the end, and both ends are clipped. *)
Definition slice_bound (n i : Z) : Z :=
  if i <? 0 then Z.max 0 (i + n) else Z.min i n.

(** [l[a:b]] for any integers [a] and [b]. *)
Definition py_slice {A} (l : list A) (a b : Z) : list A :=
  let a' := slice_bound (len l) a in
  let b' := slice_bound (len l) b in
  firstn (Z.to_nat (b' - a')) (skipn (Z.to_nat a') l).

(** [_TdsReader.recv]. *)
Definition recv (size : Z) : M TdsSession (list Z) :=
  r <- gets _reader ;;
  (if r_size r <=? r_pos r then _read_packet else ret tt) ;;
  r <- gets _reader ;;
  let offset := r_pos r in
  let to_read := Z.min size (r_size r - r_pos r) in
  modify (fun s => with_reader (with_r_pos (r_pos (_reader s) + to_read) (_reader s)) s) ;;
  buf <- gets (fun s => r_buf (_reader s)) ;;
  ret (py_slice buf offset (offset + to_read)).

(** [_TdsReader.read_fast]: the buffer itself and the offset into it. *)
Definition read_fast (size : Z) : M TdsSession (list Z * Z) :=
  r <- gets _reader ;;
  (if r_size r <=? r_pos r then _read_packet else ret tt) ;;
  r <- gets _reader ;;
  let offset := r_pos r in
  let to_read := Z.min size (r_size r - r_pos r) in
  modify (fun s => with_reader (with_r_pos (r_pos (_reader s) + to_read) (_reader s)) s) ;;
  buf <- gets (fun s => r_buf (_reader s)) ;;
  ret (buf, offset).

(** A run of [recv] calls, one per requested size. *)
Fixpoint recv_each (sizes : list Z) : M TdsSession (list (list Z)) :=
  match sizes with
  | [] => ret []
  | size :: rest =>
      piece <- recv size ;;
      pieces <- recv_each rest ;;
      ret (piece :: pieces)
  end.

(** The session a completed [_read_packet] leaves: the reader describes the
    packet and stands behind its header, the transport keeps what follows;
    nothing else is touched. *)
Definition holding_packet (s : TdsSession) (buf : list Z) (script : list event)
  (stream : list Z) : TdsSession :=
  with_transport (with_inbox script (_transport s))
    (with_spid (256 * nth 4 stream 0 + nth 5 stream 0)
       (with_reader
          {| r_buf := buf; r_pos := 8; r_have := wire_size stream;
             r_size := wire_size stream;
             r_type := Some (nth 0 stream 0); r_status := Some (nth 1 stream 0) |} s)).

Definition total (sizes : list Z) : Z := fold_right Z.add 0 sizes.

(** The small writer with three payload bytes buffered, and the pieces in
    which its flushed packet, followed by two more bytes, reaches a reader. *)
Definition loaded_writer : WT := fst (write 8 [1; 2; 3] small_writer).

Definition flushed_in_pieces : list event :=
  [Bytes [1; 1; 0; 11; 0]; Bytes [0; 0; 0; 1; 2; 3; 9; 9]].

(** ** [querying_context] *)

(** [try: body  except: handler; raise  else: orelse]: the bare [except]
    catches every exception. *)
Definition try_except_else {S A} (body : M S A) (handler : M S unit) (orelse : M S unit)
  : M S unit :=
  fun s =>
    match body s with
    | (s', Ok _) => orelse s'
    | (s', Raise e) => (handler ;; raise e) s'
    | (s', OutOfFuel) => (s', OutOfFuel)
    end.

(** The context manager around a request: [body] is the managed block. *)
Definition querying_context `{TdsBase} (packet_type : Z) (body : M TdsSession unit)
  : M TdsSession unit :=
  st <- set_state TDS_QUERYING ;;
  (if negb (state_eqb st TDS_QUERYING) then raise (Error "Couldn't switch to state")
   else ret tt) ;;
  on_writer (begin_packet packet_type) ;;
  try_except_else body
    (cur <- gets state ;;
     if negb (state_eqb cur TDS_DEAD) then _ <- set_state TDS_IDLE ;; ret tt else ret tt)
    (_ <- set_state TDS_PENDING ;; on_writer flush).

(** The session as the managed block finds it: in QUERYING state, the writer
    at the start of a message of the given type. *)
Definition query_started `{TdsBase} (packet_type : Z) (s : TdsSession) : TdsSession :=
  fst (on_writer (begin_packet packet_type) (entered TDS_QUERYING s)).

(** The packets of a message all carry the type the message was begun with. *)
Definition packet_type_of (pkt : list Z) : Z := nth 0 pkt 0.

(** Writing a request body in chunks, as the submit methods do. *)
Definition write_body (fuel : nat) (chunks : list (list Z)) : M TdsSession unit :=
  on_writer (write_chunks fuel chunks).

(** A run of [set_state] calls, each caller going on whether its call
    returned or raised. *)
Fixpoint request_states `{TdsBase} (requests : list tds_state) (s : TdsSession)
  : TdsSession :=
  match requests with
  | [] => s
  | st :: rest => request_states rest (fst (set_state st s))
  end.

(** What [process_end] records of the token once its state change is done:
    the row count if the token says it is valid, and the status word. *)
Definition done_recorded (status rows : Z) (s : TdsSession) : TdsSession :=
  with_done_flags status
    (with_rows_affected (if truthy (Z.land status TDS_DONE_COUNT) then rows else -1) s).

(** A DONE token announcing a cancelled request and an error at once. *)
Definition done_cancelled_with_error : list Z := [34; 0; 0; 0; 0; 0; 0; 0; 0; 0; 0; 0].


(** ** [_TdsWriter.write_string] *)

(** The indices [range(0, stop, step)] yields, for a positive [step]. *)
Fixpoint range_loop (fuel i stop step : nat) : list nat :=
  match fuel with
  | O => []
  | S fuel' => if Nat.ltb i stop then i :: range_loop fuel' (i + step) stop step else []
  end.

Definition range (stop step : nat) : list nat := range_loop stop 0 stop step.

(** [codec.encode(chunk)]: the bytes and the number of characters consumed,
    or the codec's exception. *)
Definition Encoder : Type := string -> outcome (list Z * Z).

(** The body of the [for] loop, once per index. *)
Fixpoint write_string_loop (fuel : nat) (s : string) (encode : Encoder) (starts : list nat)
  : M WT unit :=
  match starts with
  | [] => ret tt
  | i :: rest =>
      wt <- get ;;
      let chunk := substring i (Z.to_nat (bufsize (fst wt))) s in
      match encode chunk with
      | Ok (buf, consumed) =>
          if consumed =? Z.of_nat (String.length chunk) then
            write fuel buf ;;
            write_string_loop fuel s encode rest
          else raise AssertionError
      | Raise e => raise e
      | OutOfFuel => diverge
      end
  end.

(** [range] refuses a step of zero with [ValueError]. *)
Definition write_string (fuel : nat) (s : string) (encode : Encoder) : M WT unit :=
  wt <- get ;;
  let step := bufsize (fst wt) in
  if step =? 0 then raise ValueError
  else write_string_loop fuel s encode (range (String.length s) (Z.to_nat step)).

(** The encoder of [ascii_ucs2], reporting every character consumed, and
    what it makes of one character. *)
Definition ascii_encoder : Encoder :=
  fun s => Ok (ascii_ucs2 s, Z.of_nat (String.length s)).

Definition ascii_char (c : ascii) : list Z := [Z.of_nat (nat_of_ascii c); 0].

(** The characters of the slices [s[i:i + step]], one slice per index. *)
Definition pieces (s : string) (step : Z) (starts : list nat) : list (list ascii) :=
  map (fun j => firstn (Z.to_nat step) (skipn j (list_ascii_of_string s))) starts.

(** ** [_parse_instances] *)

(** A [dict] with [str] keys, in insertion order: assigning to a key that is
    there replaces its value in place, a new key goes to the end. *)
Definition dict (V : Type) : Type := list (string * V).

Fixpoint dict_set {V} (d : dict V) (k : string) (v : V) : dict V :=
  match d with
  | [] => [(k, v)]
  | (k', v') :: rest =>
      if String.eqb k' k then (k', v) :: rest else (k', v') :: dict_set rest k v
  end.

Fixpoint dict_get {V} (d : dict V) (k : string) : option V :=
  match d with
  | [] => None
  | (k', v) :: rest => if String.eqb k' k then Some v else dict_get rest k
  end.

(** [bytes.decode('ascii')]: a byte above 127 is a [UnicodeDecodeError],
    which is a [ValueError]. *)
Fixpoint text_of (bs : list Z) : string :=
  match bs with
  | [] => EmptyString
  | b :: rest => String (ascii_of_nat (Z.to_nat b)) (text_of rest)
  end.

Definition decode_ascii (bs : list Z) : outcome string :=
  if forallb (fun b => b <? 128) bs then Ok (text_of bs) else Raise ValueError.

(** [str.split(sep)] for a separator of one character. *)
Fixpoint split (sep : ascii) (s : string) : list string :=
  match s with
  | EmptyString => [EmptyString]
  | String c rest =>
      if Ascii.eqb c sep then EmptyString :: split sep rest
      else match split sep rest with
           | tok :: toks => String c tok :: toks
           | [] => [String c EmptyString]
           end
  end.

(** [str.upper] on ASCII text. *)
Definition upper_char (c : ascii) : ascii :=
  let n := nat_of_ascii c in
  if Nat.leb 97 n && Nat.leb n 122 then ascii_of_nat (n - 32) else c.

Fixpoint upper (s : string) : string :=
  match s with
  | EmptyString => EmptyString
  | String c rest => String (upper_char c) (upper rest)
  end.

Definition is_empty_str (s : string) : bool :=
  match s with
  | EmptyString => true
  | String _ _ => false
  end.

Definition is_empty_dict {V} (d : dict V) : bool :=
  match d with
  | [] => true
  | _ :: _ => false
  end.

(** The [for token in tokens] loop.  [name] is [None] before the loop; it is
    read only while [got_name] holds, which a token has set by then. *)
Fixpoint parse_tokens (tokens : list string) (name : string) (got_name : bool)
  (instdict : dict string) (results : dict (dict string))
  : outcome (dict (dict string)) :=
  match tokens with
  | [] => Ok results
  | token :: rest =>
      if got_name then
        parse_tokens rest name false (dict_set instdict name token) results
      else if is_empty_str token then
        if is_empty_dict instdict then Ok results
        else
          match dict_get instdict "InstanceName" with
          | None => Raise KeyError
          | Some inst =>
              parse_tokens rest token false [] (dict_set results (upper inst) instdict)
          end
      else parse_tokens rest token true instdict results
  end.

(** [None] is what the function returns when the test on the message
    fails. *)
Definition _parse_instances (msg : list Z) : outcome (option (dict (dict string))) :=
  if (3 <? len msg) && (nth 0 msg 0 =? 5) then
    match decode_ascii (skipn 3 msg) with
    | Ok text =>
        match parse_tokens (split ";" text) EmptyString false [] [] with
        | Ok results => Ok (Some results)
        | Raise e => Raise e
        | OutOfFuel => OutOfFuel
        end
    | Raise e => Raise e
    | OutOfFuel => OutOfFuel
    end
  else Ok None.

(** The text of a browser reply: each record is its [name;value;] pairs
    followed by one more semicolon. *)
Definition record_text (r : list (string * string)) : string :=
  fold_right
    (fun kv acc => String.append (fst kv) (String ";" (String.append (snd kv) (String ";" acc))))
    (String ";" EmptyString) r.

Definition reply_text (rs : list (list (string * string))) : string :=
  fold_right (fun r acc => String.append (record_text r) acc) EmptyString rs.

(** ASCII text as bytes. *)
Fixpoint wire (s : string) : list Z :=
  match s with
  | EmptyString => []
  | String c rest => Z.of_nat (nat_of_ascii c) :: wire rest
  end.

Fixpoint all_chars (P : ascii -> bool) (s : string) : bool :=
  match s with
  | EmptyString => true
  | String c rest => P c && all_chars P rest
  end.

(** A name or value a record can carry: ASCII without a semicolon. *)
Definition field_ok (s : string) : bool :=
  all_chars (fun c => negb (Ascii.eqb c ";") && Nat.ltb (nat_of_ascii c) 128) s.

(** A record with at least one pair, no name empty. *)
Definition record_ok (r : list (string * string)) : bool :=
  negb (is_empty_dict r) &&
  forallb (fun kv => negb (is_empty_str (fst kv)) && field_ok (fst kv) && field_ok (snd kv)) r.

(** The dictionary the pairs of a record build, and what becomes of the
    records one after the other. *)
Definition dict_of (r : list (string * string)) : dict string :=
  fold_left (fun d kv => dict_set d (fst kv) (snd kv)) r [].

Fixpoint collect (rs : list (list (string * string))) (results : dict (dict string))
  : outcome (option (dict (dict string))) :=
  match rs with
  | [] => Ok (Some results)
  | r :: rest =>
      match dict_get (dict_of r) "InstanceName" with
      | None => Raise KeyError
      | Some inst => collect rest (dict_set results (upper inst) (dict_of r))
      end
  end.

(** A reply with two instances, as SQL Server Browser sends it. *)
Definition two_instances : list (list (string * string)) :=
  [[("ServerName", "HOST"); ("InstanceName", "sqlexpress"); ("tcp", "1433")];
   [("ServerName", "HOST"); ("InstanceName", "Dev"); ("np", "pipe")]]%string.
(* ===================================================================== *)
(** * Part II: properties                                                 *)
(* ===================================================================== *)

(** ** Monad and list helpers *)

Lemma len_nonneg {A} (l : list A) : 0 <= len l.
Proof. unfold len. lia. Qed.

Lemma len_app {A} (l1 l2 : list A) : len (l1 ++ l2) = len l1 + len l2.
Proof. unfold len. rewrite length_app. lia. Qed.

(** ** [tds7_crypt_pass] *)

Lemma byte_cases (P : Z -> bool) :
  forallb (fun n => P (Z.of_nat n)) (seq 0 256) = true ->
  forall b, is_byte b -> P b = true.
Proof.
  intros H b Hb.
  rewrite forallb_forall in H.
  specialize (H (Z.to_nat b)).
  rewrite Z2Nat.id in H by (unfold is_byte in Hb; lia).
  apply H. apply in_seq. unfold is_byte in Hb. lia.
Qed.

Lemma crypt_byte_range b : is_byte b -> is_u8 (crypt_byte b) = true.
Proof. apply (byte_cases (fun b => is_u8 (crypt_byte b))). vm_compute. reflexivity. Qed.

Lemma uncrypt_crypt_byte b : is_byte b -> uncrypt_byte (crypt_byte b) = b.
Proof.
  intros Hb. apply Z.eqb_eq.
  revert b Hb. apply (byte_cases (fun b => uncrypt_byte (crypt_byte b) =? b)).
  vm_compute. reflexivity.
Qed.

Lemma crypt_loop_map (done todo : list Z) :
  Forall is_byte todo ->
  crypt_loop (length todo) (length done) (done ++ todo)
  = (done ++ map crypt_byte todo, Ok tt).
Proof.
  revert done. induction todo as [|ch todo IH]; intros done Hall.
  - reflexivity.
  - inversion Hall as [|? ? Hch Htodo]; subst.
    cbn [crypt_loop length]. unfold bind at 1, get.
    rewrite nth_error_app2 by lia. rewrite Nat.sub_diag. cbn [nth_error].
    unfold bind, bytearray_setitem. rewrite (crypt_byte_range Hch).
    rewrite firstn_app, Nat.sub_diag, firstn_all. cbn [firstn]. rewrite app_nil_r.
    replace (skipn (S (length done)) (done ++ ch :: todo)) with todo.
    2:{ rewrite skipn_app. rewrite skipn_all2 by lia.
        replace (S (length done) - length done)%nat with 1%nat by lia. reflexivity. }
    specialize (IH (done ++ [crypt_byte ch]) Htodo).
    rewrite length_app in IH. cbn [length] in IH.
    replace (length done + 1)%nat with (S (length done)) in IH by lia.
    rewrite <- app_assoc in IH. cbn [app] in IH.
    rewrite IH. cbn [map]. rewrite <- app_assoc. reflexivity.
Qed.

Lemma crypt_bytes_map encoded :
  Forall is_byte encoded -> crypt_bytes encoded = Ok (map crypt_byte encoded).
Proof.
  intros H. unfold crypt_bytes.
  generalize (crypt_loop_map [] H). cbn [app length]. intros ->. reflexivity.
Qed.

Lemma uncrypt_crypt_map encoded :
  Forall is_byte encoded -> tds7_uncrypt_pass (map crypt_byte encoded) = encoded.
Proof.
  unfold tds7_uncrypt_pass. induction 1 as [|b l Hb _ IH]; cbn [map].
  - reflexivity.
  - rewrite uncrypt_crypt_byte by assumption. now rewrite IH.
Qed.

(** C9: [tds7_crypt_pass] replaces every byte [b] of the UCS-2-LE encoding of
    the password by [(((b << 4) & 0xFF) | (b >> 4)) xor 0xA5], and undoing the
    XOR and then swapping the nibbles again gives the encoded bytes back. *)
Theorem tds7_crypt_pass_invertible `{Ucs2Codec} (password : string) :
  Forall is_byte (ucs2_encode password) ->
  exists mangled,
    tds7_crypt_pass password = Ok mangled /\
    mangled = map (fun b => Z.lxor (Z.lor (Z.land (Z.shiftl b 4) 255) (Z.shiftr b 4)) 165)
                  (ucs2_encode password) /\
    tds7_uncrypt_pass mangled = ucs2_encode password.
Proof.
  intros Hbytes. exists (map crypt_byte (ucs2_encode password)).
  split; [|split].
  - unfold tds7_crypt_pass. now apply crypt_bytes_map.
  - reflexivity.
  - now apply uncrypt_crypt_map.
Qed.

Lemma tds7_crypt_pass_invertible_witness :
  exists mangled,
    @tds7_crypt_pass ascii_codec "pw" = Ok mangled /\
    mangled = map (fun b => Z.lxor (Z.lor (Z.land (Z.shiftl b 4) 255) (Z.shiftr b 4)) 165)
                  (@ucs2_encode ascii_codec "pw") /\
    tds7_uncrypt_pass mangled = @ucs2_encode ascii_codec "pw".
Proof.
  apply (@tds7_crypt_pass_invertible ascii_codec "pw").
  repeat constructor; unfold is_byte; cbn; lia.
Defined.

(** ** [_TdsWriter] *)

Lemma bind_ok_inv {S A B} (c : M S A) (k : A -> M S B) s s2 b :
  bind c k s = (s2, Ok b) ->
  exists s1 a, c s = (s1, Ok a) /\ k a s1 = (s2, Ok b).
Proof.
  unfold bind. destruct (c s) as [s1 [a|e|]]; intros E; try discriminate.
  now exists s1, a.
Qed.

Lemma bind_ok {S A B} (c : M S A) (k : A -> M S B) s s1 a :
  c s = (s1, Ok a) -> bind c k s = k a s1.
Proof. unfold bind. now intros ->. Qed.

Lemma write_packet_inv final w t wt' :
  _write_packet final (w, t) = (wt', Ok tt) ->
  8 <= len (w_buf w) /\ 0 <= w_type w <= 255 /\ 0 <= w_pos w <= 65535 /\
  0 <= w_packet_no w <= 255 /\
  wt' = (after_packet w final,
         after_sendall (packet_of w final) t).
Proof.
  unfold _write_packet, header_pack_into.
  destruct (len (w_buf w) <? 8) eqn:Hlen; [discriminate|].
  destruct (is_u8 (w_type w) && is_u8 (if final then 1 else 0) && is_u16 (w_pos w)
            && is_u16 0 && is_u8 (w_packet_no w)) eqn:Hr; [|discriminate].
  intros E. injection E as <-.
  unfold is_u8, is_u16 in Hr.
  repeat (apply andb_prop in Hr; destruct Hr as [Hr ?]).
  repeat split; try lia; reflexivity.
Qed.

Lemma write_packet_ok final w t :
  8 <= len (w_buf w) -> 0 <= w_type w <= 255 -> 0 <= w_pos w <= 65535 ->
  0 <= w_packet_no w <= 255 ->
  _write_packet final (w, t)
  = ((after_packet w final,
      after_sendall (packet_of w final) t), Ok tt).
Proof.
  intros Hlen Hty Hpos Hno. unfold _write_packet, header_pack_into.
  replace (len (w_buf w) <? 8) with false by (symmetry; apply Z.ltb_ge; lia).
  replace (is_u8 (w_type w) && is_u8 (if final then 1 else 0) && is_u16 (w_pos w)
            && is_u16 0 && is_u8 (w_packet_no w)) with true.
  - reflexivity.
  - symmetry. unfold is_u8, is_u16.
    repeat (apply andb_true_intro; split); try (apply Z.leb_le; lia);
      destruct final; reflexivity.
Qed.

Lemma slice_0 {A} (l : list A) (p : Z) : slice l 0 p = firstn (Z.to_nat p) l.
Proof. unfold slice. rewrite Z.sub_0_r. reflexivity. Qed.

Lemma packet_of_payload w final :
  8 <= w_pos w -> 8 <= len (w_buf w) -> payload (packet_of w final) = pending w.
Proof.
  intros Hpos Hlen. unfold payload, packet_of, pending. rewrite slice_0.
  remember (Z.to_nat (w_pos w)) as p eqn:Hp.
  assert (Hp8 : (8 <= p)%nat) by lia.
  assert (Hb : (8 <= length (w_buf w))%nat) by (unfold len in Hlen; lia).
  assert (Hh : length (header_of w final) = 8%nat) by reflexivity.
  rewrite firstn_app, Hh.
  rewrite firstn_all2 by lia.
  rewrite skipn_app, Hh. rewrite skipn_all2 by lia.
  rewrite Nat.sub_diag, skipn_O. cbn [app].
  rewrite <- (firstn_skipn 8 (w_buf w)) at 2.
  rewrite firstn_app, length_firstn, Nat.min_l by lia.
  rewrite (firstn_all2 (firstn 8 (w_buf w))) by (rewrite length_firstn; lia).
  rewrite skipn_app, length_firstn, Nat.min_l by lia.
  rewrite (skipn_all2 (firstn 8 (w_buf w))) by (rewrite length_firstn; lia).
  rewrite Nat.sub_diag, skipn_O. reflexivity.
Qed.

Lemma packet_of_status w final :
  2 <= w_pos w -> packet_status (packet_of w final) = if final then 1 else 0.
Proof.
  intros Hpos. unfold packet_status, packet_of. rewrite slice_0.
  destruct (Z.to_nat (w_pos w)) as [|[|p]] eqn:Hp; try lia. reflexivity.
Qed.

Lemma packet_of_number w final :
  7 <= w_pos w -> packet_number (packet_of w final) = w_packet_no w.
Proof.
  intros Hpos. unfold packet_number, packet_of. rewrite slice_0.
  destruct (Z.to_nat (w_pos w)) as [|[|[|[|[|[|[|p]]]]]]] eqn:Hp; try lia. reflexivity.
Qed.

Lemma packet_of_final w final : 2 <= w_pos w -> is_final (packet_of w final) = final.
Proof.
  intros Hpos. unfold is_final. rewrite packet_of_status by assumption.
  now destruct final.
Qed.

Lemma pending_after_packet w final : pending (after_packet w final) = [].
Proof. reflexivity. Qed.

(** One pass of the copying branch of [write]. *)
Lemma pending_after_copy (buf data : list Z) (pos off k : Z) :
  8 <= pos -> 0 <= off -> 0 < k -> pos + k <= len buf -> off + k <= len data ->
  skipn 8 (firstn (Z.to_nat (pos + k))
             (slice_assign buf pos (pos + k) (slice data off (off + k))))
    ++ skipn (Z.to_nat (off + k)) data
  = skipn 8 (firstn (Z.to_nat pos) buf) ++ skipn (Z.to_nat off) data.
Proof.
  intros Hpos Hoff Hk Hbuf Hdata. unfold slice_assign, slice, len in *.
  replace (off + k - off) with k by lia.
  set (chunk := firstn (Z.to_nat k) (skipn (Z.to_nat off) data)).
  assert (Hchunk : length chunk = Z.to_nat k).
  { unfold chunk. rewrite length_firstn, length_skipn. lia. }
  assert (Hfront : length (firstn (Z.to_nat pos) buf) = Z.to_nat pos).
  { rewrite length_firstn. lia. }
  rewrite app_assoc, firstn_app.
  rewrite firstn_all2 by (rewrite length_app; lia).
  replace (Z.to_nat (pos + k) - length (firstn (Z.to_nat pos) buf ++ chunk))%nat
    with 0%nat by (rewrite length_app; lia).
  cbn [firstn]. rewrite app_nil_r.
  rewrite skipn_app. replace (8 - length (firstn (Z.to_nat pos) buf))%nat with 0%nat by lia.
  cbn [skipn]. rewrite <- app_assoc. f_equal.
  unfold chunk. replace (Z.to_nat (off + k)) with (Z.to_nat k + Z.to_nat off)%nat by lia.
  rewrite <- skipn_skipn. apply firstn_skipn.
Qed.

Lemma len_after_packet w final :
  8 <= len (w_buf w) -> len (w_buf (after_packet w final)) = len (w_buf w).
Proof.
  intros H. unfold len in *. cbn [after_packet w_buf].
  rewrite length_app, length_skipn. cbn [header_of length]. lia.
Qed.

Lemma len_slice_assign (buf data : list Z) (pos off k : Z) :
  0 <= pos -> 0 <= off -> 0 <= k -> pos + k <= len buf -> off + k <= len data ->
  len (slice_assign buf pos (pos + k) (slice data off (off + k))) = len buf.
Proof.
  intros. unfold slice_assign, slice, len in *.
  rewrite !length_app, !length_firstn, !length_skipn. lia.
Qed.

Lemma write_loop_partial fuel : forall data off w t w' t',
  0 <= off -> 8 <= w_pos w ->
  write_loop fuel data off (w, t) = ((w', t'), Ok tt) ->
  8 <= w_pos w' /\ inbox t' = inbox t /\
  exists ps,
    outbox t' = outbox t ++ ps /\
    Forall (fun pkt => is_final pkt = false) ps /\
    concat (map payload ps) ++ pending w' = pending w ++ skipn (Z.to_nat off) data.
Proof.
  induction fuel as [|fuel IH]; intros data off w t w' t' Hoff Hpos Hrun.
  - discriminate.
  - cbn [write_loop] in Hrun.
    destruct (off <? len data) eqn:Hmore.
    + apply Z.ltb_lt in Hmore.
      unfold bind at 1, get in Hrun. cbn [fst] in Hrun.
      destruct (len (w_buf w) - w_pos w <=? 0) eqn:Hleft.
      * apply bind_ok_inv in Hrun. destruct Hrun as ([w1 t1] & [] & Hpkt & Hrest).
        apply write_packet_inv in Hpkt.
        destruct Hpkt as (Hlen & _ & _ & _ & E). injection E as -> ->.
        apply IH in Hrest; [|lia|cbn; lia].
        destruct Hrest as (Hpos' & Hin & ps & Hout & Hnf & Hcat).
        split; [assumption|]. split; [assumption|].
        exists (packet_of w false :: ps). cbn [outbox after_sendall] in Hout.
        split; [rewrite Hout, <- app_assoc; reflexivity|].
        split; [constructor; [apply packet_of_final; lia | assumption]|].
        cbn [map concat]. rewrite <- app_assoc, Hcat.
        rewrite pending_after_packet, packet_of_payload by lia. reflexivity.
      * apply Z.leb_gt in Hleft.
        unfold bind at 1, modify in Hrun.
        set (k := Z.min (len (w_buf w) - w_pos w) (len data - off)) in *.
        assert (Hk : 0 < k /\ w_pos w + k <= len (w_buf w) /\ off + k <= len data)
          by (unfold k; lia).
        apply IH in Hrun; [|lia|cbn; lia].
        destruct Hrun as (Hpos' & Hin & ps & Hout & Hnf & Hcat).
        split; [assumption|]. split; [assumption|].
        exists ps. split; [assumption|]. split; [assumption|].
        rewrite Hcat. unfold pending at 1. cbn [w_pos w_buf].
        apply pending_after_copy; lia.
    + apply Z.ltb_ge in Hmore. injection Hrun as <- <-.
      split; [assumption|]. split; [reflexivity|].
      exists []. split; [now rewrite app_nil_r|]. split; [constructor|].
      cbn [map concat app]. rewrite skipn_all2 by (unfold len in Hmore; lia).
      now rewrite app_nil_r.
Qed.

Lemma write_loop_total fuel : forall data off w t,
  writer_ok w -> 0 <= off <= len data ->
  2 * (len data - off) + (if w_pos w =? len (w_buf w) then 1 else 0) < Z.of_nat fuel ->
  exists w' t',
    write_loop fuel data off (w, t) = ((w', t'), Ok tt) /\
    writer_ok w' /\ len (w_buf w') = len (w_buf w).
Proof.
  induction fuel as [|fuel IH]; intros data off w t Hok Hoff Hfuel.
  - destruct (w_pos w =? len (w_buf w)); lia.
  - destruct Hok as (Hbuf & Hpos & Hty & Hno).
    cbn [write_loop]. destruct (off <? len data) eqn:Hmore.
    + apply Z.ltb_lt in Hmore. unfold bind at 1, get. cbn [fst].
      destruct (len (w_buf w) - w_pos w <=? 0) eqn:Hleft.
      * apply Z.leb_le in Hleft.
        assert (Hfull : w_pos w = len (w_buf w)) by lia.
        rewrite Hfull, Z.eqb_refl in Hfuel.
        erewrite bind_ok by (apply write_packet_ok; lia).
        pose proof (len_after_packet w false ltac:(lia)) as Hlen'.
        destruct (IH data off (after_packet w false)
                    (after_sendall (packet_of w false) t))
          as (w' & t' & Hrun & Hok' & Hlen'').
        { unfold writer_ok. rewrite Hlen'. cbn [after_packet w_pos w_type w_packet_no].
          pose proof (Z.mod_pos_bound (w_packet_no w + 1) 256). lia. }
        { lia. }
        { rewrite Hlen'. cbn [after_packet w_pos].
          replace (8 =? len (w_buf w)) with false by (symmetry; apply Z.eqb_neq; lia). lia. }
        exists w', t'. split; [assumption|]. split; [assumption|]. lia.
      * apply Z.leb_gt in Hleft. unfold bind at 1, modify.
        set (k := Z.min (len (w_buf w) - w_pos w) (len data - off)) in *.
        assert (Hk : 0 < k /\ w_pos w + k <= len (w_buf w) /\ off + k <= len data)
          by (unfold k; lia).
        pose proof (@len_slice_assign (w_buf w) data (w_pos w) off k) as Hlen'.
        specialize (Hlen' ltac:(lia) ltac:(lia) ltac:(lia) ltac:(lia) ltac:(lia)).
        match goal with |- context [write_loop fuel data (off + k) (?w1, t)] =>
          destruct (IH data (off + k) w1 t) as (w' & t' & Hrun & Hok' & Hlen'') end.
        { unfold writer_ok. cbn [w_pos w_buf w_type w_packet_no]. rewrite Hlen'. lia. }
        { lia. }
        { cbn [w_pos w_buf]. rewrite Hlen'.
          destruct (w_pos w =? len (w_buf w)), (w_pos w + k =? len (w_buf w)); lia. }
        exists w', t'. split; [assumption|]. split; [assumption|].
        cbn [w_buf] in Hlen''. lia.
    + exists w, t. split; [reflexivity|]. split; [repeat split; lia | reflexivity].
Qed.

Lemma write_chunks_partial fuel : forall chunks w t w' t',
  8 <= w_pos w ->
  write_chunks fuel chunks (w, t) = ((w', t'), Ok tt) ->
  8 <= w_pos w' /\ inbox t' = inbox t /\
  exists ps,
    outbox t' = outbox t ++ ps /\
    Forall (fun pkt => is_final pkt = false) ps /\
    concat (map payload ps) ++ pending w' = pending w ++ concat chunks.
Proof.
  induction chunks as [|data rest IH]; intros w t w' t' Hpos Hrun.
  - injection Hrun as <- <-. split; [assumption|]. split; [reflexivity|].
    exists []. now rewrite !app_nil_r.
  - cbn [write_chunks] in Hrun. apply bind_ok_inv in Hrun.
    destruct Hrun as ([w1 t1] & [] & Hone & Hrest).
    apply write_loop_partial in Hone; [|lia|assumption].
    destruct Hone as (Hpos1 & Hin1 & ps1 & Hout1 & Hnf1 & Hcat1).
    apply IH in Hrest; [|assumption].
    destruct Hrest as (Hpos' & Hin' & ps2 & Hout2 & Hnf2 & Hcat2).
    split; [assumption|]. split; [congruence|].
    exists (ps1 ++ ps2).
    split; [rewrite Hout2, Hout1, app_assoc; reflexivity|].
    split; [apply Forall_app; now split|].
    rewrite map_app, concat_app, <- app_assoc, Hcat2, app_assoc, Hcat1.
    cbn [concat Z.to_nat]. rewrite skipn_O, <- app_assoc. reflexivity.
Qed.

Lemma write_chunks_total fuel : forall chunks w t,
  writer_ok w ->
  2 * len (concat chunks) + 1 < Z.of_nat fuel ->
  exists w' t',
    write_chunks fuel chunks (w, t) = ((w', t'), Ok tt) /\ writer_ok w'.
Proof.
  induction chunks as [|data rest IH]; intros w t Hok Hfuel.
  - exists w, t. now split.
  - cbn [concat] in Hfuel. rewrite len_app in Hfuel.
    pose proof (len_nonneg data). pose proof (len_nonneg (concat rest)).
    destruct (@write_loop_total fuel data 0 w t Hok) as (w1 & t1 & Hone & Hok1 & _).
    { lia. }
    { destruct (w_pos w =? len (w_buf w)); lia. }
    destruct (IH w1 t1 Hok1) as (w' & t' & Hrest & Hok'); [lia|].
    exists w', t'. split; [|assumption].
    cbn [write_chunks]. unfold write. erewrite bind_ok by exact Hone. exact Hrest.
Qed.

Lemma pending_at_8 w : w_pos w = 8 -> pending w = [].
Proof.
  intros E. unfold pending. rewrite E.
  apply skipn_all2. rewrite length_firstn. lia.
Qed.

(** Whenever [write ... write flush] returns, the packets it sent frame the
    payload; no assumption on the buffer size. *)
Lemma write_message_partial fuel chunks w t w' t' :
  w_pos w = 8 ->
  write_message fuel chunks (w, t) = ((w', t'), Ok tt) ->
  exists sent, outbox t' = outbox t ++ sent /\ framed sent (concat chunks).
Proof.
  intros Hpos Hrun. unfold write_message in Hrun. apply bind_ok_inv in Hrun.
  destruct Hrun as ([w1 t1] & [] & Hchunks & Hflush).
  apply write_chunks_partial in Hchunks; [|lia].
  destruct Hchunks as (Hpos1 & _ & ps & Hout & Hnf & Hcat).
  apply write_packet_inv in Hflush. destruct Hflush as (Hlen & _ & _ & _ & E).
  injection E as -> ->. cbn [outbox after_sendall]. rewrite Hout, <- app_assoc.
  exists (ps ++ [packet_of w1 true]). split; [reflexivity|].
  exists ps, (packet_of w1 true). split; [reflexivity|].
  split; [|split; [assumption | apply packet_of_final; lia]].
  rewrite map_app, concat_app. cbn [map concat]. rewrite app_nil_r.
  rewrite packet_of_payload, Hcat, pending_at_8 by lia. reflexivity.
Qed.

(** With a buffer of 9 to 65535 bytes the loops of [write] end and the
    message goes out. *)
Lemma write_message_total chunks w t :
  writer_ok w ->
  exists fuel w' t', write_message fuel chunks (w, t) = ((w', t'), Ok tt).
Proof.
  intros Hok. set (fuel := Z.to_nat (2 * len (concat chunks) + 2)).
  pose proof (len_nonneg (concat chunks)).
  destruct (@write_chunks_total fuel chunks w t Hok) as (w1 & t1 & Hchunks & Hok1);
    [unfold fuel; lia|].
  destruct Hok1 as (Hbuf & Hpos & Hty & Hno).
  exists fuel. eexists. eexists. unfold write_message.
  erewrite bind_ok by exact Hchunks. unfold flush.
  apply write_packet_ok; lia.
Qed.

(** With a buffer of exactly eight bytes there is never room for payload:
    [write] of a non-empty buffer sends empty packets and never returns. *)
Lemma write_diverges_without_room fuel : forall data w t,
  w_pos w = 8 -> len (w_buf w) = 8 -> data <> [] ->
  0 <= w_type w <= 255 -> 0 <= w_packet_no w <= 255 ->
  snd (write fuel data (w, t)) = OutOfFuel.
Proof.
  unfold write. induction fuel as [|fuel IH]; intros data w t Hpos Hlen Hne Hty Hno.
  - reflexivity.
  - cbn [write_loop].
    replace (0 <? len data) with true
      by (symmetry; apply Z.ltb_lt; destruct data; [congruence | unfold len; cbn; lia]).
    unfold bind at 1, get. cbn [fst].
    replace (len (w_buf w) - w_pos w <=? 0) with true by (symmetry; apply Z.leb_le; lia).
    erewrite bind_ok by (apply write_packet_ok; lia).
    apply IH; try assumption.
    + reflexivity.
    + rewrite len_after_packet; lia.
    + cbn. pose proof (Z.mod_pos_bound (w_packet_no w + 1) 256). lia.
Qed.

(** C1: a logical message written as any sequence of [write] calls followed
    by one [flush] leaves the transport with packets whose payloads (the bytes
    after the eight header bytes) concatenate to exactly the bytes written,
    the final-status bit set on the last packet and on no other.  The first
    part holds for every run that returns; the second says that the run does
    return when the buffer has room for payload and fits the length field. *)
Theorem writer_message_framing (chunks : list (list Z)) (w : TdsWriter) (t : Transport) :
  w_pos w = 8 ->
  (forall fuel w' t',
      write_message fuel chunks (w, t) = ((w', t'), Ok tt) ->
      exists sent, outbox t' = outbox t ++ sent /\ framed sent (concat chunks))
  /\
  (8 < len (w_buf w) <= 65535 -> 0 <= w_type w <= 255 -> 0 <= w_packet_no w <= 255 ->
   exists fuel w' t', write_message fuel chunks (w, t) = ((w', t'), Ok tt)).
Proof.
  intros Hpos. split.
  - intros fuel w' t' Hrun. eapply write_message_partial; eassumption.
  - intros Hbuf Hty Hno. apply write_message_total. unfold writer_ok. lia.
Qed.

Lemma writer_message_framing_witness :
  exists fuel w' t' sent,
    write_message fuel [[1; 2; 3]; [4; 5; 6; 7]] small_writer = ((w', t'), Ok tt) /\
    outbox t' = outbox (snd small_writer) ++ sent /\
    framed sent [1; 2; 3; 4; 5; 6; 7].
Proof.
  destruct (@writer_message_framing [[1; 2; 3]; [4; 5; 6; 7]]
              (fst small_writer) (snd small_writer) eq_refl) as [Hpartial Htotal].
  destruct Htotal as (fuel & w' & t' & Hrun);
    [vm_compute; intuition discriminate ..|].
  destruct (Hpartial fuel w' t' Hrun) as (sent & Hout & Hframed).
  exists fuel, w', t', sent. repeat split; assumption.
Defined.

(** The same message, run: a full non-final packet of four payload bytes,
    then the final packet with the remaining three. *)
Example small_message_on_the_wire :
  outbox (snd (fst (write_message 8 [[1; 2; 3]; [4; 5; 6; 7]] small_writer)))
  = [[1; 0; 0; 12; 0; 0; 0; 0; 1; 2; 3; 4]; [1; 1; 0; 11; 0; 0; 1; 0; 5; 6; 7]].
Proof. vm_compute. reflexivity. Qed.

(** ** The packet number *)

(** C7, as the code has it: every emitted packet carries the writer's packet
    number in its header and leaves the number incremented by one modulo 256,
    within the range of a byte; [begin_packet] does not touch the number, which
    therefore runs on from one logical message to the next. *)
Theorem packet_no_increments_and_is_not_reset
  (final : bool) (ty : Z) (w w' : TdsWriter) (t t' : Transport) :
  8 <= w_pos w ->
  _write_packet final (w, t) = ((w', t'), Ok tt) ->
  (exists pkt, outbox t' = outbox t ++ [pkt] /\ packet_number pkt = w_packet_no w) /\
  w_packet_no w' = (w_packet_no w + 1) mod 256 /\
  0 <= w_packet_no w' <= 255 /\
  w_packet_no (fst (fst (begin_packet ty (w', t')))) = w_packet_no w'.
Proof.
  intros Hpos Hrun. apply write_packet_inv in Hrun.
  destruct Hrun as (_ & _ & _ & Hno & E). injection E as -> ->.
  split; [|split; [|split]].
  - exists (packet_of w final). split; [reflexivity|]. apply packet_of_number. lia.
  - reflexivity.
  - cbn [after_packet w_packet_no].
    pose proof (Z.mod_pos_bound (w_packet_no w + 1) 256). lia.
  - reflexivity.
Qed.

Lemma packet_no_increments_and_is_not_reset_witness :
  (exists pkt,
      outbox (snd (fst (flush small_writer))) = outbox (snd small_writer) ++ [pkt] /\
      packet_number pkt = 0) /\
  w_packet_no (fst (fst (flush small_writer))) = 1 /\
  0 <= w_packet_no (fst (fst (flush small_writer))) <= 255 /\
  w_packet_no (fst (fst (begin_packet 3 (fst (flush small_writer))))) = 1.
Proof.
  exact (@packet_no_increments_and_is_not_reset true 3
           (fst small_writer) (fst (fst (flush small_writer)))
           (snd small_writer) (snd (fst (flush small_writer)))
           ltac:(vm_compute; discriminate) eq_refl).
Defined.

(** C7 as stated fails: on a fresh writer the second logical message starts
    after [begin_packet] with packet number 1, not 0. *)
Lemma begin_packet_does_not_reset_packet_no :
  let wt := fst (two_messages (new_writer 16, empty_transport)) in
  map packet_number (outbox (snd wt)) = [0; 1] /\
  map is_final (outbox (snd wt)) = [true; true] /\
  w_packet_no (fst (fst (begin_packet 1 wt))) <> 0.
Proof. vm_compute. repeat split. discriminate. Qed.

(** ** [set_state] *)

Lemma set_state_spec `{TdsBase} (st : tds_state) (s : TdsSession) :
  state (entered st s) = st /\
  if documented_transition (state s) st
  then set_state st s = (entered st s, Ok st)
  else exists text, set_state st s = (s, Raise (InterfaceError text)).
Proof.
  destruct s as [tr rd wr cur cancel msgs rows sp flags mk more info spid tls cn].
  unfold set_state, entered, logic_error, bind, gets, modify, raise, ret.
  destruct st, cur; cbn; split; try reflexivity; eexists; reflexivity.
Qed.

(** C2: [set_state] permits exactly the documented transitions; a permitted
    request returns the new state, every other request raises
    [InterfaceError] at once and leaves the session, its state included, as it
    was. *)
Theorem set_state_documented_transitions `{TdsBase} (st : tds_state) (s : TdsSession) :
  state (entered st s) = st /\
  if documented_transition (state s) st
  then set_state st s = (entered st s, Ok st)
  else exists text, set_state st s = (s, Raise (InterfaceError text)).
Proof. apply set_state_spec. Qed.

(** ** [raise_db_exception] *)

Lemma last_item_snoc {A} (l : list A) (x : A) : last_item (l ++ [x]) = Some x.
Proof. unfold last_item. now rewrite rev_unit. Qed.

Lemma with_messages_same s : with_messages (messages s) s = s.
Proof. now destruct s. Qed.

Lemma skip_terminated_empties (dropped : list Message) : forall fuel s,
  messages s = dropped ->
  Forall (fun m => msgno m = 3621) dropped ->
  (length dropped < fuel)%nat ->
  skip_terminated fuel s = (with_messages [] s, Raise IndexError).
Proof.
  induction dropped as [|m dropped IH] using rev_ind; intros fuel s Hmsgs Hall Hfuel.
  - destruct fuel as [|fuel]; [inversion Hfuel|].
    cbn [skip_terminated]. unfold bind, gets. rewrite Hmsgs. cbn.
    unfold raise. rewrite <- Hmsgs. now rewrite with_messages_same.
  - destruct fuel as [|fuel]; [inversion Hfuel|].
    apply Forall_app in Hall. destruct Hall as [Hall Hm].
    inversion Hm as [|? ? Hno _]; subst.
    rewrite length_app in Hfuel. cbn [length] in Hfuel.
    cbn [skip_terminated]. unfold bind at 1, gets. rewrite Hmsgs, last_item_snoc.
    rewrite Hno, Z.eqb_refl. unfold bind at 1, modify. rewrite removelast_last.
    rewrite (IH fuel (with_messages dropped s)); [reflexivity|reflexivity|assumption|lia].
Qed.

Lemma skip_terminated_finds (dropped : list Message) : forall fuel s kept m,
  messages s = (kept ++ [m]) ++ dropped ->
  msgno m <> 3621 ->
  Forall (fun m => msgno m = 3621) dropped ->
  (length dropped < fuel)%nat ->
  skip_terminated fuel s = (with_messages (kept ++ [m]) s, Ok m).
Proof.
  induction dropped as [|d dropped IH] using rev_ind; intros fuel s kept m Hmsgs Hm Hall Hfuel.
  - destruct fuel as [|fuel]; [inversion Hfuel|]. rewrite app_nil_r in Hmsgs.
    cbn [skip_terminated]. unfold bind, gets. rewrite Hmsgs, last_item_snoc.
    replace (msgno m =? 3621) with false by (symmetry; now apply Z.eqb_neq).
    unfold ret. rewrite <- Hmsgs. now rewrite with_messages_same.
  - destruct fuel as [|fuel]; [inversion Hfuel|].
    apply Forall_app in Hall. destruct Hall as [Hall Hd].
    inversion Hd as [|? ? Hno _]; subst.
    rewrite length_app in Hfuel. cbn [length] in Hfuel.
    rewrite app_assoc in Hmsgs.
    cbn [skip_terminated]. unfold bind at 1, gets. rewrite Hmsgs, last_item_snoc.
    rewrite Hno, Z.eqb_refl. unfold bind at 1, modify. rewrite removelast_last.
    rewrite (IH fuel (with_messages ((kept ++ [m]) ++ dropped) s) kept m);
      [reflexivity|reflexivity|assumption|assumption|lia].
Qed.

(** Every message list is its trimmed part followed by 3621 messages only,
    and the trimmed part is empty or ends in another message. *)
Lemma drop_trailing_3621_split (msgs : list Message) :
  exists dropped,
    msgs = drop_trailing_3621 msgs ++ dropped /\
    Forall (fun m => msgno m = 3621) dropped /\
    (drop_trailing_3621 msgs = [] \/
     exists kept m, drop_trailing_3621 msgs = kept ++ [m] /\ msgno m <> 3621).
Proof.
  induction msgs as [|m rest IH].
  - exists []. repeat split; [constructor | now left].
  - destruct IH as (dropped & Hsplit & Hall & Hshape). cbn [drop_trailing_3621].
    destruct (drop_trailing_3621 rest) as [|k kept] eqn:Hrest.
    + cbn [app] in Hsplit. subst dropped.
      destruct (msgno m =? 3621) eqn:Hm.
      * apply Z.eqb_eq in Hm. exists (m :: rest).
        repeat split; [now constructor | now left].
      * apply Z.eqb_neq in Hm. exists rest.
        repeat split; [assumption|]. right. exists [], m. now split.
    + exists dropped. split; [cbn [app]; now rewrite Hsplit at 1|].
      split; [assumption|]. right.
      destruct Hshape as [Hnil | (kept' & m' & Heq & Hm')]; [discriminate|].
      exists (m :: kept'), m'. rewrite Heq. now split.
Qed.

Lemma drop_trailing_3621_nil (msgs : list Message) :
  drop_trailing_3621 msgs = [] <-> Forall (fun m => msgno m = 3621) msgs.
Proof.
  induction msgs as [|m rest IH]; cbn [drop_trailing_3621].
  - split; [constructor | reflexivity].
  - destruct (drop_trailing_3621 rest) as [|k kept].
    + destruct (msgno m =? 3621) eqn:Hm.
      * apply Z.eqb_eq in Hm. split; [|reflexivity].
        intros _. constructor; [assumption | now apply IH].
      * apply Z.eqb_neq in Hm. split; [discriminate|].
        intros Hall. inversion Hall; contradiction.
    + split; [discriminate|]. intros Hall. inversion Hall as [|? ? _ Hrest]; subst.
      apply IH in Hrest. discriminate.
Qed.

(** What [raise_db_exception] does on a non-empty message list. *)
Lemma raise_db_exception_spec `{TdsBase} (s : TdsSession) :
  messages s <> [] ->
  raise_db_exception s =
    let kept := drop_trailing_3621 (messages s) in
    match last_item kept with
    | None => (with_messages [] s, Raise IndexError)
    | Some msg =>
        (with_messages kept s,
         Raise (_create_exception_by_message msg
                  (Some (String.concat " " (map message kept)))))
    end.
Proof.
  intros Hne. unfold raise_db_exception. unfold bind at 1, gets.
  destruct (messages s) as [|m0 msgs0] eqn:Hmsgs; [contradiction|].
  rewrite <- Hmsgs.
  destruct (drop_trailing_3621_split (messages s)) as (dropped & Hsplit & Hall & Hshape).
  assert (Hfuel : (length dropped < S (length (messages s)))%nat).
  { rewrite Hsplit at 1. rewrite length_app. lia. }
  cbv zeta.
  destruct Hshape as [Hnil | (kept & m & Hkept & Hm)].
  - rewrite Hnil in *. cbn [app] in Hsplit. cbn [last_item rev].
    unfold bind. rewrite (@skip_terminated_empties dropped); auto.
  - rewrite Hkept in *. rewrite last_item_snoc.
    unfold bind at 1. rewrite (@skip_terminated_finds dropped _ _ kept m); auto.
Qed.

(** C10: on a non-empty message list made of 3621 messages only, the
    trimming loop of [raise_db_exception] empties the list and the index into
    its last element fails with [IndexError]; a typed database exception comes
    out exactly when some accumulated message has another number. *)
Theorem raise_db_exception_only_3621 `{TdsBase} (s : TdsSession) :
  messages s <> [] ->
  (Forall (fun m => msgno m = 3621) (messages s) ->
   raise_db_exception s = (with_messages [] s, Raise IndexError)) /\
  ((exists e, snd (raise_db_exception s) = Raise e /\ is_db_exception e = true) <->
   Exists (fun m => msgno m <> 3621) (messages s)).
Proof.
  intros Hne. rewrite (raise_db_exception_spec s Hne). cbv zeta.
  split.
  - intros Hall. apply drop_trailing_3621_nil in Hall. now rewrite Hall.
  - destruct (last_item (drop_trailing_3621 (messages s))) as [msg|] eqn:Hlast.
    + split.
      * intros _. apply Exists_exists.
        destruct (Forall_Exists_dec (fun m => msgno m = 3621)
                    (fun m => Z.eq_dec (msgno m) 3621) (messages s)) as [Hall | Hex].
        -- apply drop_trailing_3621_nil in Hall. rewrite Hall in Hlast. discriminate.
        -- apply Exists_exists in Hex. exact Hex.
      * intros _. eexists. split; [reflexivity|].
        unfold _create_exception_by_message.
        destruct (mem (msgno msg) prog_errors), (mem (msgno msg) integrity_errors);
          reflexivity.
    + split.
      * intros (e & He & Hdb). cbn [snd] in He. injection He as <-. discriminate.
      * intros Hex. exfalso. apply Exists_exists in Hex. destruct Hex as (m & Hin & Hm).
        assert (Hnil : drop_trailing_3621 (messages s) = []).
        { destruct (drop_trailing_3621 (messages s)) as [|k kept] eqn:E; [reflexivity|].
          unfold last_item in Hlast. destruct (rev (k :: kept)) eqn:Hr; [|discriminate].
          apply (f_equal (@rev _)) in Hr. rewrite rev_involutive in Hr. discriminate. }
        apply drop_trailing_3621_nil in Hnil.
        rewrite Forall_forall in Hnil. apply Hm. now apply Hnil.
Qed.

Lemma raise_db_exception_only_3621_witness :
  let s := with_messages [message_numbered 3621 "The statement has been terminated."]
             (new_session 4096) in
  @raise_db_exception buffered_base s = (with_messages [] s, Raise IndexError) /\
  ((exists e, snd (@raise_db_exception buffered_base s) = Raise e /\ is_db_exception e = true)
   <-> Exists (fun m => msgno m <> 3621) (messages s)).
Proof.
  intros s.
  destruct (@raise_db_exception_only_3621 buffered_base s ltac:(discriminate))
    as [Hall Hdb].
  split; [apply Hall; repeat constructor | exact Hdb].
Defined.

Lemma raise_db_exception_keeps `{TdsBase} (s : TdsSession) :
  state (fst (raise_db_exception s)) = state s /\
  in_cancel (fst (raise_db_exception s)) = in_cancel s.
Proof.
  destruct (messages s) as [|m msgs] eqn:Hmsgs.
  - unfold raise_db_exception, bind, gets. rewrite Hmsgs. now split.
  - rewrite raise_db_exception_spec by congruence. cbv zeta.
    destruct (last_item (drop_trailing_3621 (messages s))); now split.
Qed.

(** ** [process_end] *)

Lemma set_state_idle `{TdsBase} (s : TdsSession) :
  state s <> TDS_DEAD ->
  exists s', set_state TDS_IDLE s = (s', Ok TDS_IDLE) /\
             state s' = TDS_IDLE /\ in_cancel s' = in_cancel s /\
             messages s' = messages s.
Proof.
  intros Halive. destruct (set_state_spec TDS_IDLE s) as [Hst Hrun].
  replace (documented_transition (state s) TDS_IDLE) with true in Hrun
    by (destruct (state s); try reflexivity; contradiction).
  exists (entered TDS_IDLE s). split; [assumption|]. split; [assumption|].
  unfold entered. destruct (state_eqb TDS_IDLE (state s)); now split.
Qed.

(** The state and the cancel flag once the second half of [process_end] has
    run on a token that ends the response with no cancel in flight. *)
Lemma apply_done_token_final `{TdsBase} (marker status rows : Z) (s : TdsSession) :
  is_done_marker marker = true ->
  state s <> TDS_DEAD -> in_cancel s = false ->
  Z.land status TDS_DONE_MORE_RESULTS = 0 ->
  state (fst (apply_done_token marker status rows s)) = TDS_IDLE /\
  in_cancel (fst (apply_done_token marker status rows s)) = false.
Proof.
  intros Hmarker Halive Hcancel Hmore.
  remember (apply_done_token marker status rows s) as res eqn:E.
  unfold apply_done_token in E. rewrite Hmarker, Hmore in E.
  unfold bind at 1, ret at 1 in E. unfold bind at 1, gets at 1 in E.
  rewrite Hcancel in E. cbn [truthy Z.eqb negb andb] in E. rewrite orb_true_r in E.
  destruct (@set_state_idle _ (with_in_cancel false s) Halive)
    as (s' & Hset & Hst & Hic & _).
  unfold bind at 1 in E. unfold bind at 1, modify at 1 in E.
  unfold bind at 1 in E. rewrite Hset in E.
  unfold ret at 1 in E. unfold bind at 1, modify at 1 in E.
  unfold bind at 1, modify at 1 in E.
  unfold bind at 1, gets at 1 in E. unfold bind at 1, gets at 1 in E.
  cbn [in_cancel with_done_flags with_rows_affected done_flags] in E.
  destruct (truthy (Z.land status TDS_DONE_ERROR)
            && negb (truthy (Z.land status TDS_DONE_CANCELLED)) && negb (in_cancel s')).
  - destruct (raise_db_exception_keeps
                (with_done_flags status
                   (with_rows_affected
                      (if truthy (Z.land status TDS_DONE_COUNT) then rows else -1) s')))
      as [Hs Hc].
    subst res. rewrite Hs, Hc. cbn. now split.
  - subst res. cbn. now split.
Qed.

(** C3: once [process_end] has read a DONE, DONEPROC or DONEINPROC token whose
    status has the MORE bit clear, on a session that is not DEAD and has no
    cancel in flight, the session is IDLE and [in_cancel] is false, whether
    the handler returns or raises the database error the token reports. *)
Theorem process_end_final_done_goes_idle `{TdsBase}
  (marker status rows : Z) (s s1 : TdsSession) :
  read_done_token marker s = (s1, Ok (status, rows)) ->
  is_done_marker marker = true ->
  state s1 <> TDS_DEAD ->
  in_cancel s1 = false ->
  Z.land status TDS_DONE_MORE_RESULTS = 0 ->
  state (fst (process_end marker s)) = TDS_IDLE /\
  in_cancel (fst (process_end marker s)) = false.
Proof.
  intros Hread Hmarker Halive Hcancel Hmore.
  unfold process_end. erewrite bind_ok by exact Hread. cbn [fst snd].
  now apply apply_done_token_final.
Qed.

Lemma process_end_final_done_goes_idle_witness :
  let s := holding done_with_count (with_state TDS_READING (new_session 4096)) in
  state (fst (@process_end buffered_base TDS_DONE_TOKEN s)) = TDS_IDLE /\
  in_cancel (fst (@process_end buffered_base TDS_DONE_TOKEN s)) = false.
Proof.
  intros s.
  apply (@process_end_final_done_goes_idle buffered_base TDS_DONE_TOKEN 16 1 s
           (fst (@read_done_token buffered_base TDS_DONE_TOKEN s))).
  - vm_compute. reflexivity.
  - reflexivity.
  - vm_compute. discriminate.
  - reflexivity.
  - reflexivity.
Defined.

(** With the error bit set, no cancel involved and a message other than 3621
    on the list, [process_end] raises the database exception built from the
    last such message, its text the remaining messages joined by spaces. *)
Lemma process_end_raises_db_exception `{TdsBase}
  (marker status rows : Z) (s s1 : TdsSession) (msg : Message) :
  read_done_token marker s = (s1, Ok (status, rows)) ->
  is_done_marker marker = true ->
  state s1 <> TDS_DEAD ->
  in_cancel s1 = false ->
  truthy (Z.land status TDS_DONE_ERROR) = true ->
  truthy (Z.land status TDS_DONE_CANCELLED) = false ->
  last_item (drop_trailing_3621 (messages s1)) = Some msg ->
  snd (process_end marker s)
  = Raise (_create_exception_by_message msg
             (Some (String.concat " " (map message (drop_trailing_3621 (messages s1)))))).
Proof.
  intros Hread Hmarker Halive Hcancel Herr Hnc Hlast.
  unfold process_end. erewrite bind_ok by exact Hread. cbn [fst snd].
  assert (Hne : messages s1 <> []).
  { intros E. rewrite E in Hlast. discriminate. }
  assert (Hraise : forall s2, messages s2 = messages s1 ->
            snd (raise_db_exception s2)
            = Raise (_create_exception_by_message msg
                (Some (String.concat " " (map message (drop_trailing_3621 (messages s1))))))).
  { intros s2 E. rewrite raise_db_exception_spec by congruence. cbv zeta.
    rewrite E, Hlast. reflexivity. }
  unfold apply_done_token. rewrite Hmarker, Hnc.
  unfold bind at 1, ret at 1. unfold bind at 1, gets at 1. rewrite Hcancel.
  cbn [orb negb]. rewrite andb_true_r.
  destruct (negb (truthy (Z.land status TDS_DONE_MORE_RESULTS))).
  - destruct (@set_state_idle _ (with_in_cancel false s1) Halive)
      as (s' & Hset & Hst & Hic & Hmsgs).
    unfold bind at 1. unfold bind at 1, modify at 1. unfold bind at 1. rewrite Hset.
    unfold ret at 1. unfold bind at 1, modify at 1. unfold bind at 1, modify at 1.
    unfold bind at 1, gets at 1. unfold bind at 1, gets at 1.
    cbn [in_cancel with_done_flags with_rows_affected done_flags].
    rewrite Hic. cbn [in_cancel with_in_cancel]. rewrite Herr. cbn [andb negb].
    apply Hraise. cbn. exact Hmsgs.
  - unfold bind at 1, ret at 1. unfold bind at 1, modify at 1.
    unfold bind at 1, modify at 1.
    unfold bind at 1, gets at 1. unfold bind at 1, gets at 1.
    cbn [in_cancel with_done_flags with_rows_affected done_flags].
    rewrite Hcancel, Herr. cbn [andb negb].
    apply Hraise. reflexivity.
Qed.

(** The same path run on two messages: the 3621 message is dropped and the
    constraint violation 547 classifies the error. *)
Example process_end_integrity_error :
  let violation := message_numbered 547 "The INSERT statement conflicted." in
  let s := holding done_with_error
             (with_state TDS_READING
                (with_messages [violation; statement_terminated] (new_session 4096))) in
  snd (@process_end buffered_base TDS_DONE_TOKEN s)
  = Raise (IntegrityError {| error_msg := "The INSERT statement conflicted.";
                             source_msg := violation |}).
Proof. vm_compute. reflexivity. Qed.

(** C4, where the code falls short: the final DONE reports an error, no cancel
    is involved and the message list is not empty, yet [process_end] ends in
    [IndexError] with the list emptied, not in a database exception, because
    the only message is a 3621. *)
Theorem process_end_index_error_on_lone_3621 :
  let s := holding done_with_error
             (with_state TDS_READING
                (with_messages [statement_terminated] (new_session 4096))) in
  messages s <> [] /\
  snd (@process_end buffered_base TDS_DONE_TOKEN s) = Raise IndexError /\
  messages (fst (@process_end buffered_base TDS_DONE_TOKEN s)) = [].
Proof. vm_compute. repeat split. discriminate. Qed.

(** ** [process_env_chg] *)

Lemma bufsize_set_bufsize (v : Z) (w : TdsWriter) :
  0 <= v -> bufsize (set_bufsize v w) = v.
Proof.
  intros Hv. unfold set_bufsize, bufsize.
  destruct (len (w_buf w) =? v) eqn:Heq; [now apply Z.eqb_eq|].
  destruct (len (w_buf w) <? v) eqn:Hlt; cbn [w_buf].
  - apply Z.ltb_lt in Hlt. rewrite len_app. unfold len at 2. rewrite repeat_length. lia.
  - apply Z.ltb_ge in Hlt. rewrite slice_0. unfold len in *. rewrite length_firstn. lia.
Qed.

Lemma set_bufsize_keeps (v : Z) (w : TdsWriter) :
  w_pos (set_bufsize v w) = w_pos w /\
  w_packet_no (set_bufsize v w) = w_packet_no w /\
  w_type (set_bufsize v w) = w_type w.
Proof.
  unfold set_bufsize.
  destruct (len (w_buf w) =? v), (len (w_buf w) <? v); repeat split.
Qed.

(** C8: for a packet-size ENVCHANGE whose new value reads as the number [v],
    the writer's buffer size becomes [v] when [v >= 512] and stays as it is
    otherwise; nothing else in the session or the connection differs from what
    reading the token left, and the writer keeps its position, packet number
    and type. *)
Theorem packsize_change_sets_bufsize `{TdsBase}
  (s s' : TdsSession) (newval : string) (v : Z) :
  reads_packsize_change s newval s' ->
  int_of_str newval = Ok v ->
  TDS_ENV_PACKSIZE <> TDS_ENV_SQLCOLLATION ->
  TDS_ENV_PACKSIZE <> TDS_ENV_BEGINTRANS ->
  TDS_ENV_PACKSIZE <> TDS_ENV_COMMITTRANS ->
  TDS_ENV_PACKSIZE <> TDS_ENV_ROLLBACKTRANS ->
  process_env_chg s
    = (if 512 <=? v then with_writer (set_bufsize v (_writer s')) s' else s', Ok tt) /\
  bufsize (_writer (fst (process_env_chg s)))
    = (if 512 <=? v then v else bufsize (_writer s')) /\
  w_pos (_writer (fst (process_env_chg s))) = w_pos (_writer s') /\
  w_packet_no (_writer (fst (process_env_chg s))) = w_packet_no (_writer s') /\
  w_type (_writer (fst (process_env_chg s))) = w_type (_writer s').
Proof.
  intros (size & s1 & s2 & n & s3 & s4 & n' & s5 & oldval & H1 & H2 & H3 & H4 & H5 & H6)
         Hint Hn1 Hn2 Hn3 Hn4.
  assert (Hrun : process_env_chg s
    = (if 512 <=? v then with_writer (set_bufsize v (_writer s')) s' else s', Ok tt)).
  { unfold process_env_chg.
    erewrite bind_ok by exact H1. erewrite bind_ok by exact H2.
    apply Z.eqb_neq in Hn1, Hn2, Hn3, Hn4. rewrite Hn1, Hn2, Hn3, Hn4.
    cbn [orb]. rewrite Z.eqb_refl.
    erewrite bind_ok by exact H3. erewrite bind_ok by exact H4.
    erewrite bind_ok by exact H5. erewrite bind_ok by exact H6.
    unfold bind, lift_outcome. rewrite Hint.
    destruct (512 <=? v); reflexivity. }
  rewrite Hrun. split; [reflexivity|]. cbn [fst].
  destruct (512 <=? v) eqn:Hbig.
  - apply Z.leb_le in Hbig. cbn [_writer with_writer].
    split; [apply bufsize_set_bufsize; lia | apply set_bufsize_keeps].
  - repeat split.
Qed.

Lemma packsize_change_sets_bufsize_witness :
  let s := holding packsize_8192 (new_session 4096) in
  bufsize (_writer s) = 4096 /\
  bufsize (_writer (fst (@process_env_chg buffered_base s))) = 8192 /\
  snd (@process_env_chg buffered_base s) = Ok tt.
Proof.
  intros s.
  pose (s1 := fst (@get_smallint buffered_base s)).
  pose (s2 := fst (@get_byte buffered_base s1)).
  pose (s3 := fst (@get_byte buffered_base s2)).
  pose (s4 := fst (@read_ucs2 buffered_base 4 s3)).
  pose (s5 := fst (@get_byte buffered_base s4)).
  pose (s6 := fst (@read_ucs2 buffered_base 4 s5)).
  destruct (@packsize_change_sets_bufsize buffered_base s s6 "8192" 8192)
    as (Hrun & Hsize & _).
  - exists 19, s1, s2, 4, s3, s4, 4, s5, "4096".
    repeat apply conj; vm_compute; reflexivity.
  - reflexivity.
  - discriminate.
  - discriminate.
  - discriminate.
  - discriminate.
  - split; [vm_compute; reflexivity|]. split; [exact Hsize | exact (f_equal snd Hrun)].
Defined.

(** A value below 512 is read and dropped. *)
Example packsize_256_is_ignored :
  let s := holding [19; 0; 4; 3; 50; 0; 53; 0; 54; 0; 4; 52; 0; 48; 0; 57; 0; 54; 0]
             (new_session 4096) in
  bufsize (_writer (fst (@process_env_chg buffered_base s))) = 4096 /\
  snd (@process_env_chg buffered_base s) = Ok tt.
Proof. vm_compute. split; reflexivity. Qed.

(** ** What a computation leaves alone, and running out of fuel *)

Lemma keeps_ret {S A B} (f : S -> B) (a : A) : keeps f (ret a).
Proof. intros s s' r E. injection E as <- _. reflexivity. Qed.

Lemma keeps_raise {S A B} (f : S -> B) (e : exn) : keeps f (@raise S A e).
Proof. intros s s' r E. injection E as <- _. reflexivity. Qed.

Lemma keeps_gets {S A B} (f : S -> B) (g : S -> A) : keeps f (gets g).
Proof. intros s s' r E. injection E as <- _. reflexivity. Qed.

Lemma keeps_modify {S B} (f : S -> B) (g : S -> S) :
  (forall s, f (g s) = f s) -> keeps f (modify g).
Proof. intros Hg s s' r E. injection E as <- _. apply Hg. Qed.

Lemma keeps_bind {S A A' B} (f : S -> B) (c : M S A) (k : A -> M S A') :
  keeps f c -> (forall a, keeps f (k a)) -> keeps f (bind c k).
Proof.
  intros Hc Hk s s' r E. unfold bind in E.
  destruct (c s) as [s1 [a|e|]] eqn:Ec.
  - apply Hk in E. apply Hc in Ec. congruence.
  - injection E as <- _. now apply Hc in Ec.
  - injection E as <- _. now apply Hc in Ec.
Qed.

Lemma keeps_if {S A B} (f : S -> B) (b : bool) (c1 c2 : M S A) :
  keeps f c1 -> keeps f c2 -> keeps f (if b then c1 else c2).
Proof. now destruct b. Qed.

Lemma keeps_unpack_from {S A B} (f : S -> B) size (decode : list Z -> A) p off :
  keeps f (@unpack_from S A size decode p off).
Proof. unfold unpack_from. apply keeps_if; [apply keeps_ret | apply keeps_raise]. Qed.

Lemma finishes_ret {S A} (a : A) : finishes (@ret S A a).
Proof. intros s. discriminate. Qed.

Lemma finishes_raise {S A} (e : exn) : finishes (@raise S A e).
Proof. intros s. discriminate. Qed.

Lemma finishes_gets {S A} (g : S -> A) : finishes (gets g).
Proof. intros s. discriminate. Qed.

Lemma finishes_modify {S} (g : S -> S) : finishes (modify g).
Proof. intros s. discriminate. Qed.

Lemma finishes_bind {S A A'} (c : M S A) (k : A -> M S A') :
  finishes c -> (forall a, finishes (k a)) -> finishes (bind c k).
Proof.
  intros Hc Hk s. unfold bind. specialize (Hc s).
  destruct (c s) as [s1 [a|e|]]; cbn [snd] in *.
  - apply Hk.
  - discriminate.
  - contradiction.
Qed.

Lemma finishes_if {S A} (b : bool) (c1 c2 : M S A) :
  finishes c1 -> finishes c2 -> finishes (if b then c1 else c2).
Proof. now destruct b. Qed.

Lemma finishes_unpack_from {S A} size (decode : list Z -> A) p off :
  finishes (@unpack_from S A size decode p off).
Proof. unfold unpack_from. apply finishes_if; [apply finishes_ret | apply finishes_raise]. Qed.

Lemma finishes_bad_stream {A} msg : finishes (@bad_stream A msg).
Proof.
  unfold bad_stream. apply finishes_bind; [apply finishes_modify|].
  intros _. apply finishes_raise.
Qed.

Ltac keeps_step :=
  first
    [ apply keeps_ret | apply keeps_raise | apply keeps_gets
    | apply keeps_unpack_from
    | apply keeps_modify; intros; reflexivity
    | apply keeps_if
    | apply keeps_bind; [|intros ?] ].

Ltac finishes_step :=
  first
    [ apply finishes_ret | apply finishes_raise | apply finishes_gets
    | apply finishes_modify | apply finishes_unpack_from | apply finishes_bad_stream
    | apply finishes_if
    | apply finishes_bind; [|intros ?] ].

(** ** [parse_prelogin] *)

Lemma prelogin_options_keeps_tls `{TdsBase} (fuel : nat) : forall p i crypt_flag,
  keeps tls_calls (prelogin_options fuel p i crypt_flag).
Proof.
  induction fuel as [|fuel IH]; intros p i crypt_flag.
  - intros s s' r E. injection E as <- _. reflexivity.
  - cbn [prelogin_options]. unfold bad_stream, byte_struct, off_len_struct,
      prod_version_struct, on_conn.
    repeat keeps_step; apply IH.
Qed.

(** The option loop always ends within the fuel [parse_prelogin] gives it. *)
Lemma prelogin_options_finishes `{TdsBase} (fuel : nat) : forall p i crypt_flag s,
  Z.max 0 (len p - i) < Z.of_nat fuel ->
  snd (prelogin_options fuel p i crypt_flag s) <> OutOfFuel.
Proof.
  induction fuel as [|fuel IH]; intros p i crypt_flag s Hfuel.
  - lia.
  - cbn [prelogin_options].
    destruct (len p <=? i) eqn:Hend.
    + unfold bind at 1, bad_stream, bind, modify, raise. discriminate.
    + apply Z.leb_gt in Hend. unfold bind at 1, ret at 1.
      revert s. apply finishes_bind; [apply finishes_unpack_from|]. intros type_id.
      apply finishes_if; [apply finishes_ret|].
      apply finishes_bind; [apply finishes_if; finishes_step|]. intros _.
      apply finishes_bind; [apply finishes_unpack_from|]. intros off_l.
      apply finishes_bind; [apply finishes_if; finishes_step|]. intros _.
      apply finishes_bind.
      * unfold byte_struct, prod_version_struct, on_conn. repeat finishes_step.
      * intros crypt_flag' s. apply IH. lia.
Qed.

Lemma parse_prelogin_finishes `{TdsBase} (octets : list Z) : finishes (parse_prelogin octets).
Proof.
  unfold parse_prelogin. apply finishes_bind.
  - intros [s login]. unfold on_session, zoom. cbn [fst].
    pose proof (@prelogin_options_finishes _ (S (length octets)) octets 0 2 s) as Hfin.
    destruct (prelogin_options (S (length octets)) octets 0 2 s) as [s' r].
    cbn [snd] in *. apply Hfin. unfold len. lia.
  - intros crypt_flag. unfold on_session, zoom, tls_establish_channel, bad_stream.
    repeat finishes_step;
      intros [s login]; unfold bind, modify, raise; cbn; discriminate.
Qed.

(** C5, as the code has it: the outcome of [parse_prelogin] by the flag the
    server sent and the flag the client asked for.  Server OFF: error for
    client ON, login-only encryption otherwise.  Server ON: the whole channel
    is encrypted, whatever the client flag.  Server REQ: error for client
    NOT_SUP, the whole channel otherwise.  Server NOT_SUP: error for client
    ON, no encryption otherwise. *)
Theorem parse_prelogin_encryption_matrix `{TdsBase}
  (octets : list Z) (s s1 : TdsSession) (login : TdsLogin)
  (server_flag client_flag : enc_name) :
  prelogin_options (S (length octets)) octets 0 2 s = (s1, Ok (enc_value server_flag)) ->
  tls_calls s = [] ->
  enc_flag login = enc_value client_flag ->
  match implemented_matrix server_flag client_flag with
  | Some mode =>
      snd (parse_prelogin octets (s, login)) = Ok tt /\
      negotiated_encryption (fst (parse_prelogin octets (s, login))) = mode
  | None => exists e, snd (parse_prelogin octets (s, login)) = Raise e
  end.
Proof.
  intros Hopts Htls Hclient.
  pose proof (prelogin_options_keeps_tls _ _ _ _ _ Hopts) as Hkeep.
  rewrite Htls in Hkeep.
  remember (parse_prelogin octets (s, login)) as res eqn:E.
  unfold parse_prelogin in E. unfold bind at 1, on_session at 1, zoom in E.
  cbn [fst snd] in E. rewrite Hopts in E.
  unfold bind at 1, modify at 1 in E. unfold bind at 1, gets at 1 in E.
  cbn [fst snd enc_flag] in E. rewrite Hclient in E.
  destruct server_flag, client_flag; cbn in E; subst res;
    unfold negotiated_encryption; cbn; rewrite ?Hkeep; cbn;
    first [ now split | eexists; reflexivity ].
Qed.

Lemma parse_prelogin_encryption_matrix_witness :
  snd (@parse_prelogin buffered_base (prelogin_reply ENCRYPT_OFF)
         (new_session 4096, login_with ENCRYPT_REQ)) = Ok tt /\
  negotiated_encryption
    (fst (@parse_prelogin buffered_base (prelogin_reply ENCRYPT_OFF)
            (new_session 4096, login_with ENCRYPT_REQ))) = encrypt_login_only.
Proof.
  exact (@parse_prelogin_encryption_matrix buffered_base (prelogin_reply ENCRYPT_OFF)
           (new_session 4096)
           (fst (@prelogin_options buffered_base 19 (prelogin_reply ENCRYPT_OFF) 0 2
                   (new_session 4096)))
           (login_with ENCRYPT_REQ) OFF REQ eq_refl eq_refl eq_refl).
Defined.

(** C5 as stated fails in four cells of the matrix.  Server NOT_SUP with
    client OFF: the specification asks for an error, [parse_prelogin] returns
    and nothing is encrypted. *)
Lemma prelogin_not_sup_against_off_is_no_error :
  let run := @parse_prelogin buffered_base (prelogin_reply ENCRYPT_NOT_SUP)
               (new_session 4096, login_with ENCRYPT_OFF) in
  specified_matrix NOT_SUP OFF = None /\
  snd run = Ok tt /\
  negotiated_encryption (fst run) = no_encryption.
Proof. vm_compute. repeat split. Qed.

(** The other three cells where the two matrices differ. *)
Example matrices_differ :
  filter (fun cell => negb (match specified_matrix (fst cell) (snd cell),
                                  implemented_matrix (fst cell) (snd cell) with
                            | None, None => true
                            | Some encrypt_login_only, Some encrypt_login_only
                            | Some encrypt_entire_channel, Some encrypt_entire_channel
                            | Some no_encryption, Some no_encryption => true
                            | _, _ => false
                            end))
         (list_prod [OFF; ON; REQ; NOT_SUP] [OFF; ON; REQ; NOT_SUP])
  = [(OFF, NOT_SUP); (ON, NOT_SUP); (NOT_SUP, OFF); (NOT_SUP, REQ)].
Proof. reflexivity. Qed.

(** ** [_read_packet] *)

Lemma len_slice_assign_same {A} (buf got : list A) (pos : Z) :
  0 <= pos -> pos + len got <= len buf ->
  len (slice_assign buf pos (pos + len got) got) = len buf.
Proof.
  intros Hpos Hfit. unfold slice_assign, len in *.
  rewrite !length_app, length_firstn, length_skipn. lia.
Qed.

Lemma nonempty_chunks_length (pre : list (list Z)) :
  Forall (fun c => c <> []) pre -> Z.of_nat (length pre) <= len (concat pre).
Proof.
  induction 1 as [|c pre Hc _ IH]; cbn [concat length].
  - unfold len. cbn. lia.
  - rewrite len_app. destruct c; [contradiction|]. unfold len in *. cbn [length]. lia.
Qed.

Lemma recv_into_keeps pos n : keeps beside_reading (recv_into pos n).
Proof.
  intros s s' r E. unfold recv_into in E.
  destruct (Z.max 0 (len (r_buf (_reader s)) - pos) <? n).
  - injection E as <- _. reflexivity.
  - destruct (inbox (_transport s)) as [|[bs|] rest];
      injection E as <- _; reflexivity.
Qed.

Lemma read_header_loop_keeps fuel : forall pos, keeps beside_reading (read_header_loop fuel pos).
Proof.
  induction fuel as [|fuel IH]; intros pos.
  - intros s s' r E. injection E as <- _. reflexivity.
  - cbn [read_header_loop]. apply keeps_if; [|apply keeps_ret].
    apply keeps_bind; [apply recv_into_keeps|]. intros received.
    apply keeps_if; [apply keeps_raise | apply IH].
Qed.

Lemma read_body_loop_keeps fuel : forall pos, keeps beside_reading (read_body_loop fuel pos).
Proof.
  induction fuel as [|fuel IH]; intros pos.
  - intros s s' r E. injection E as <- _. reflexivity.
  - cbn [read_body_loop]. apply keeps_bind; [apply keeps_gets|]. intros size.
    apply keeps_if; [|apply keeps_ret].
    apply keeps_bind; [apply recv_into_keeps|]. intros received.
    apply keeps_if; [apply keeps_raise|].
    apply keeps_bind; [apply keeps_modify; intros; reflexivity|]. intros _. apply IH.
Qed.

(** What one [recv_into] does when a whole chunk fits the request. *)
Lemma recv_into_chunk (pos n : Z) (c : list Z) (script : list event) (s : TdsSession) :
  inbox (_transport s) = Bytes c :: script ->
  0 <= pos -> len c <= n -> pos + n <= len (r_buf (_reader s)) ->
  recv_into pos n s
  = (with_transport (with_inbox script (_transport s))
       (with_reader
          (with_r_buf (slice_assign (r_buf (_reader s)) pos (pos + len c) c) (_reader s)) s),
     Ok (len c)).
Proof.
  intros Hin Hpos Hfit Hroom. unfold recv_into.
  replace (Z.max 0 (len (r_buf (_reader s)) - pos) <? n) with false
    by (symmetry; apply Z.ltb_ge; lia).
  rewrite Hin. rewrite firstn_all2 by (unfold len in Hfit; lia).
  rewrite skipn_all2 by (unfold len in Hfit; lia). reflexivity.
Qed.

(** What one [recv_into] does when nothing but a timeout or a zero-byte read
    is ahead. *)
Lemma recv_into_ending (pos n : Z) (script : list event) (e : exn) (s : TdsSession) :
  inbox (_transport s) = script -> next_read script = Some e ->
  0 <= pos -> 0 < n -> pos + n <= len (r_buf (_reader s)) ->
  (e = TimeoutError /\ snd (recv_into pos n s) = Raise TimeoutError) \/
  (e = ClosedConnectionError /\ snd (recv_into pos n s) = Ok 0).
Proof.
  intros Hin Hnext Hpos Hn Hroom. unfold recv_into.
  replace (Z.max 0 (len (r_buf (_reader s)) - pos) <? n) with false
    by (symmetry; apply Z.ltb_ge; lia).
  rewrite Hin. destruct script as [|[[|b bs]|] rest]; cbn in Hnext;
    try discriminate; injection Hnext as <-.
  - right. now split.
  - right. split; [reflexivity|]. rewrite firstn_nil. reflexivity.
  - left. now split.
Qed.

Lemma read_header_loop_stops (pre : list (list Z)) : forall fuel pos s tail e,
  inbox (_transport s) = map Bytes pre ++ tail ->
  Forall (fun c => c <> []) pre ->
  next_read tail = Some e ->
  0 <= pos -> pos + len (concat pre) < 8 ->
  8 <= len (r_buf (_reader s)) ->
  (length pre < fuel)%nat ->
  snd (read_header_loop fuel pos s) = Raise e.
Proof.
  induction pre as [|c pre IH]; intros fuel pos s tail e Hin Hne Hnext Hpos Hshort Hbuf Hfuel;
    (destruct fuel as [|fuel]; [inversion Hfuel|]); cbn [read_header_loop].
  - cbn [map app concat] in *. unfold len in Hshort at 1. cbn [length] in Hshort.
    replace (pos <? 8) with true by (symmetry; apply Z.ltb_lt; lia).
    unfold bind.
    destruct (@recv_into_ending pos (8 - pos) tail e s Hin Hnext) as [[-> Hr] | [-> Hr]];
      try lia; destruct (recv_into pos (8 - pos) s) as [s1 r]; cbn [snd] in Hr; subst r;
      reflexivity.
  - cbn [map app concat] in *. rewrite len_app in Hshort.
    inversion Hne as [|? ? Hc Hne']; subst.
    pose proof (len_nonneg (concat pre)).
    assert (Hlen : 0 < len c) by (destruct c; [contradiction | unfold len; cbn; lia]).
    replace (pos <? 8) with true by (symmetry; apply Z.ltb_lt; lia).
    unfold bind at 1.
    rewrite (@recv_into_chunk pos (8 - pos) c (map Bytes pre ++ tail) s) by (assumption || lia).
    replace (len c =? 0) with false by (symmetry; apply Z.eqb_neq; lia).
    apply (IH fuel (pos + len c) _ tail e); try assumption; try lia.
    + reflexivity.
    + cbn. rewrite len_slice_assign_same; lia.
    + cbn [length] in Hfuel. lia.
Qed.

Lemma read_body_loop_stops (pre : list (list Z)) : forall fuel pos s tail e,
  inbox (_transport s) = map Bytes pre ++ tail ->
  Forall (fun c => c <> []) pre ->
  next_read tail = Some e ->
  0 <= pos -> pos + len (concat pre) < r_size (_reader s) ->
  r_size (_reader s) <= len (r_buf (_reader s)) ->
  (length pre < fuel)%nat ->
  snd (read_body_loop fuel pos s) = Raise e.
Proof.
  induction pre as [|c pre IH]; intros fuel pos s tail e Hin Hne Hnext Hpos Hshort Hbuf Hfuel;
    (destruct fuel as [|fuel]; [inversion Hfuel|]); cbn [read_body_loop];
    unfold bind at 1, gets at 1.
  - cbn [map app concat] in *. unfold len in Hshort at 1. cbn [length] in Hshort.
    replace (pos <? r_size (_reader s)) with true by (symmetry; apply Z.ltb_lt; lia).
    unfold bind.
    destruct (@recv_into_ending pos (r_size (_reader s) - pos) tail e s Hin Hnext)
      as [[-> Hr] | [-> Hr]];
      try lia;
      destruct (recv_into pos (r_size (_reader s) - pos) s) as [s1 r];
      cbn [snd] in Hr; subst r; reflexivity.
  - cbn [map app concat] in *. rewrite len_app in Hshort.
    inversion Hne as [|? ? Hc Hne']; subst.
    pose proof (len_nonneg (concat pre)).
    assert (Hlen : 0 < len c) by (destruct c; [contradiction | unfold len; cbn; lia]).
    replace (pos <? r_size (_reader s)) with true by (symmetry; apply Z.ltb_lt; lia).
    unfold bind at 1.
    rewrite (@recv_into_chunk pos (r_size (_reader s) - pos) c (map Bytes pre ++ tail) s)
      by (assumption || lia).
    replace (len c =? 0) with false by (symmetry; apply Z.eqb_neq; lia).
    unfold bind at 1, modify at 1.
    apply (IH fuel (pos + len c) _ tail e); try assumption; try lia.
    + reflexivity.
    + cbn. lia.
    + cbn. rewrite len_slice_assign_same; lia.
    + cbn [length] in Hfuel. lia.
Qed.

Lemma firstn_slice_assign {A} (buf got : list A) (pos : Z) :
  0 <= pos -> pos <= len buf ->
  firstn (Z.to_nat (pos + len got)) (slice_assign buf pos (pos + len got) got)
  = firstn (Z.to_nat pos) buf ++ got.
Proof.
  intros Hpos Hfit. unfold slice_assign, len in *.
  rewrite app_assoc, firstn_app.
  assert (Hl : length (firstn (Z.to_nat pos) buf ++ got) = Z.to_nat (pos + Z.of_nat (length got))).
  { rewrite length_app, length_firstn. lia. }
  rewrite Hl, Nat.sub_diag. cbn [firstn]. rewrite app_nil_r.
  apply firstn_all2. lia.
Qed.

(** What one [recv_into] does when the chunk ahead is longer than the
    request: the rest of the chunk stays in the transport. *)
Lemma recv_into_partial (pos n : Z) (c : list Z) (script : list event) (s : TdsSession) :
  inbox (_transport s) = Bytes c :: script ->
  0 <= pos -> 0 < n -> n < len c -> pos + n <= len (r_buf (_reader s)) ->
  recv_into pos n s
  = (with_transport (with_inbox (Bytes (skipn (Z.to_nat n) c) :: script) (_transport s))
       (with_reader
          (with_r_buf (slice_assign (r_buf (_reader s)) pos
                         (pos + len (firstn (Z.to_nat n) c)) (firstn (Z.to_nat n) c))
             (_reader s)) s),
     Ok n) /\
  skipn (Z.to_nat n) c <> [] /\ len (firstn (Z.to_nat n) c) = n.
Proof.
  intros Hin Hpos Hn Hlong Hroom.
  assert (Hgot : len (firstn (Z.to_nat n) c) = n).
  { unfold len in *. rewrite length_firstn. lia. }
  assert (Hrest : skipn (Z.to_nat n) c <> []).
  { intros E. apply (f_equal (@length Z)) in E. rewrite length_skipn in E.
    unfold len in Hlong. cbn [length] in E. lia. }
  split; [|now split].
  unfold recv_into.
  replace (Z.max 0 (len (r_buf (_reader s)) - pos) <? n) with false
    by (symmetry; apply Z.ltb_ge; lia).
  rewrite Hin. rewrite Hgot.
  destruct (skipn (Z.to_nat n) c) as [|b unread]; [contradiction|]. reflexivity.
Qed.

Lemma read_header_loop_done fuel s : read_header_loop (S fuel) 8 s = (s, Ok 8).
Proof. reflexivity. Qed.

Lemma read_header_loop_full (pre : list (list Z)) : forall fuel pos s tail,
  inbox (_transport s) = map Bytes pre ++ tail ->
  Forall (fun c => c <> []) pre ->
  0 <= pos <= 8 -> 8 <= pos + len (concat pre) ->
  8 <= len (r_buf (_reader s)) ->
  8 - pos < Z.of_nat fuel ->
  exists s' pre',
    read_header_loop fuel pos s = (s', Ok 8) /\
    inbox (_transport s') = map Bytes pre' ++ tail /\
    Forall (fun c => c <> []) pre' /\
    8 + len (concat pre') = pos + len (concat pre) /\
    len (r_buf (_reader s')) = len (r_buf (_reader s)) /\
    firstn 8 (r_buf (_reader s'))
    = firstn (Z.to_nat pos) (r_buf (_reader s)) ++ firstn (Z.to_nat (8 - pos)) (concat pre).
Proof.
  assert (Hat8 : forall fuel s pre tail,
    inbox (_transport s) = map Bytes pre ++ tail ->
    Forall (fun c => c <> []) pre -> (0 < fuel)%nat ->
    exists s' pre',
      read_header_loop fuel 8 s = (s', Ok 8) /\
      inbox (_transport s') = map Bytes pre' ++ tail /\
      Forall (fun c => c <> []) pre' /\
      8 + len (concat pre') = 8 + len (concat pre) /\
      len (r_buf (_reader s')) = len (r_buf (_reader s)) /\
      firstn 8 (r_buf (_reader s'))
      = firstn (Z.to_nat 8) (r_buf (_reader s)) ++ firstn (Z.to_nat (8 - 8)) (concat pre)).
  { intros fuel s pre0 tail Hin Hne Hfuel. destruct fuel as [|fuel]; [inversion Hfuel|].
    exists s, pre0. rewrite read_header_loop_done.
    repeat split; try assumption. cbn [Z.sub Z.to_nat Z.add Z.opp Z.pos_sub firstn].
    now rewrite app_nil_r. }
  induction pre as [|c pre IH]; intros fuel pos s tail Hin Hne Hpos Hfull Hbuf Hfuel.
  - unfold len in Hfull at 1. cbn [concat length] in Hfull.
    assert (pos = 8) by lia. subst pos. apply Hat8; try assumption. lia.
  - destruct (Z.eq_dec pos 8) as [-> | Hlt].
    { apply Hat8; try assumption. lia. }
    destruct fuel as [|fuel]; [lia|].
    inversion Hne as [|? ? Hc Hne']; subst.
    assert (Hlen : 0 < len c) by (destruct c; [contradiction | unfold len; cbn; lia]).
    cbn [map app concat] in *. rewrite len_app in *.
    cbn [read_header_loop].
    replace (pos <? 8) with true by (symmetry; apply Z.ltb_lt; lia).
    unfold bind at 1.
    destruct (Z.le_gt_cases (len c) (8 - pos)) as [Hfit | Hlong].
    + rewrite (@recv_into_chunk pos (8 - pos) c (map Bytes pre ++ tail) s)
        by (assumption || lia).
      replace (len c =? 0) with false by (symmetry; apply Z.eqb_neq; lia).
      match goal with |- context [read_header_loop fuel (pos + len c) ?s1] =>
        destruct (IH fuel (pos + len c) s1 tail) as (s' & pre' & Hrun & Hin' & Hne'' & Htot & Hl & Hfirst)
      end; try assumption; try lia.
      * reflexivity.
      * cbn. rewrite len_slice_assign_same; lia.
      * exists s', pre'. split; [assumption|]. split; [assumption|]. split; [assumption|].
        split; [lia|].
        cbn [_reader with_transport with_reader r_buf with_r_buf] in Hl, Hfirst.
        rewrite len_slice_assign_same in Hl by lia. split; [assumption|].
        rewrite Hfirst. rewrite firstn_slice_assign by lia.
        rewrite <- app_assoc. f_equal.
        rewrite firstn_app. rewrite (firstn_all2 c) by (unfold len in Hfit; lia).
        f_equal. f_equal. unfold len. lia.
    + destruct (@recv_into_partial pos (8 - pos) c (map Bytes pre ++ tail) s)
        as (Hrecv & Hrest & Hgot); try assumption; try lia.
      rewrite Hrecv.
      replace (8 - pos =? 0) with false by (symmetry; apply Z.eqb_neq; lia).
      replace (pos + (8 - pos)) with 8 by lia.
      destruct fuel as [|fuel]; [lia|]. rewrite read_header_loop_done.
      eexists. exists (skipn (Z.to_nat (8 - pos)) c :: pre).
      split; [reflexivity|]. split; [reflexivity|].
      split; [constructor; assumption|].
      cbn [concat]. rewrite len_app.
      split.
      { unfold len in *. rewrite length_skipn. lia. }
      cbn [_reader with_transport with_reader r_buf with_r_buf].
      split; [apply len_slice_assign_same; lia|].
      replace 8%nat with (Z.to_nat (pos + len (firstn (Z.to_nat (8 - pos)) c)))
        at 1 by (rewrite Hgot; lia).
      rewrite firstn_slice_assign by lia. f_equal.
      rewrite firstn_app.
      replace (Z.to_nat (8 - pos) - length c)%nat with 0%nat by (unfold len in Hlong; lia).
      cbn [firstn]. now rewrite app_nil_r.
Qed.

Lemma put_cancel_spec (s : TdsSession) :
  cancel_ready s ->
  exists s',
    put_cancel s = (s', Ok tt) /\
    outbox (_transport s') = outbox (_transport s) ++ [cancel_packet (w_packet_no (_writer s))] /\
    in_cancel s' = true.
Proof.
  intros [Hbuf Hno]. unfold put_cancel.
  unfold bind at 1, on_writer at 1, zoom, begin_packet, modify. cbn [fst snd].
  unfold bind at 1, on_writer at 1, zoom, flush.
  cbn [_writer _transport with_writer with_transport].
  rewrite write_packet_ok by (cbn; unfold PacketType_CANCEL; lia).
  unfold modify. eexists. split; [reflexivity|].
  cbn [_transport with_in_cancel with_transport with_writer outbox after_sendall in_cancel].
  split; [|reflexivity]. unfold packet_of. rewrite slice_0. reflexivity.
Qed.

Lemma next_read_cases (script : list event) (e : exn) :
  next_read script = Some e -> e = TimeoutError \/ e = ClosedConnectionError.
Proof.
  destruct script as [|[[|b bs]|] rest]; cbn; intros E; try discriminate;
    injection E as <-; auto.
Qed.

Lemma nth_firstn_lt {A} (l : list A) (i n : nat) (d : A) :
  (i < n)%nat -> nth i (firstn n l) d = nth i l d.
Proof.
  revert i l. induction n as [|n IH]; intros i l Hlt; [lia|].
  destruct l as [|x l]; [now destruct i|].
  destruct i as [|i]; [reflexivity|]. cbn. apply IH. lia.
Qed.

Lemma wire_size_of_header (buf stream : list Z) :
  firstn 8 buf = firstn 8 stream ->
  256 * nth 2 buf 0 + nth 3 buf 0 = wire_size stream.
Proof.
  intros E. unfold wire_size.
  rewrite <- (@nth_firstn_lt _ buf 2 8 0), <- (@nth_firstn_lt _ buf 3 8 0) by lia.
  rewrite E. rewrite !nth_firstn_lt by lia. reflexivity.
Qed.

(** C6, as the code has it: when the transport, after delivering the chunks
    [pre], times out or reads zero bytes while [_read_packet] waits for its
    packet, a zero-byte read raises [ClosedConnectionError]; a timeout is
    raised again as [TimeoutError], after a CANCEL packet has gone out and
    [in_cancel] is set if the eight header bytes were not complete, and with
    nothing sent and [in_cancel] untouched if the header was complete and the
    body was being read. *)
Theorem read_packet_timeout_and_closed
  (pre : list (list Z)) (tail : list event) (e : exn) (s : TdsSession) :
  inbox (_transport s) = map Bytes pre ++ tail ->
  Forall (fun c => c <> []) pre ->
  next_read tail = Some e ->
  8 <= len (r_buf (_reader s)) ->
  cancel_ready s ->
  (len (concat pre) < 8 \/
   len (concat pre) < wire_size (concat pre) <= len (r_buf (_reader s))) ->
  snd (_read_packet s) = Raise e /\
  if is_timeout e && (len (concat pre) <? 8)
  then outbox (_transport (fst (_read_packet s)))
       = outbox (_transport s) ++ [cancel_packet (w_packet_no (_writer s))] /\
       in_cancel (fst (_read_packet s)) = true
  else outbox (_transport (fst (_read_packet s))) = outbox (_transport s) /\
       in_cancel (fst (_read_packet s)) = in_cancel s.
Proof.
  intros Hin Hne Hnext Hbuf Hready Hphase.
  pose proof (nonempty_chunks_length Hne) as Hcount.
  remember (_read_packet s) as res eqn:Eres. unfold _read_packet in Eres.
  destruct (len (concat pre) <? 8) eqn:Hhdr.
  - apply Z.ltb_lt in Hhdr.
    pose proof (@read_header_loop_stops pre 9 0 s tail e Hin Hne Hnext) as Hsnd.
    specialize (Hsnd ltac:(lia) ltac:(lia) Hbuf ltac:(lia)).
    destruct (read_header_loop 9 0 s) as [s1 r] eqn:Hloop. cbn [snd] in Hsnd. subst r.
    pose proof (read_header_loop_keeps _ _ _ Hloop) as Hframe.
    unfold beside_reading in Hframe. injection Hframe as Hw Hout Hic.
    unfold bind at 1, except_timeout in Eres. rewrite Hloop in Eres.
    destruct (next_read_cases _ Hnext) as [-> | ->]; cbn [is_timeout andb].
    + destruct (@put_cancel_spec s1) as (s2 & Hput & Hout2 & Hic2).
      { unfold cancel_ready. rewrite Hw. exact Hready. }
      unfold bind, raise in Eres. rewrite Hput in Eres. subst res. cbn [fst snd].
      split; [reflexivity|]. rewrite Hout2, Hout, Hw. now split.
    + subst res. cbn [fst snd]. split; [reflexivity|]. now split.
  - apply Z.ltb_ge in Hhdr. rewrite andb_false_r.
    destruct Hphase as [Hshort | [Hbody Hroom]]; [lia|].
    destruct (@read_header_loop_full pre 9 0 s tail Hin Hne)
      as (s1 & pre' & Hloop & Hin1 & Hne1 & Htot & Hlen1 & Hfirst); try lia.
    pose proof (read_header_loop_keeps _ _ _ Hloop) as Hframe.
    cbn [Z.to_nat firstn app] in Hfirst.
    replace (Z.to_nat (8 - 0)) with 8%nat in Hfirst by lia.
    apply wire_size_of_header in Hfirst.
    unfold bind at 1, except_timeout in Eres. rewrite Hloop in Eres.
    unfold bind at 1, modify at 1 in Eres.
    unfold bind at 1, unpack_header, modify at 1 in Eres.
    unfold bind at 1, modify at 1 in Eres.
    unfold bind at 1, gets at 1 in Eres.
    cbn [_reader with_reader with_spid with_r_have with_r_pos r_size r_buf] in Eres.
    rewrite Hfirst in Eres.
    match type of Eres with
    | res = read_body_loop ?fuel 8 ?s3 =>
        pose proof (@read_body_loop_stops pre' fuel 8 s3 tail e) as Hsnd;
        pose proof (@read_body_loop_keeps fuel 8 s3) as Hframe3;
        destruct (read_body_loop fuel 8 s3) as [s4 r] eqn:Hbodyrun
    end.
    cbn [snd] in Hsnd. pose proof (nonempty_chunks_length Hne1) as Hcount1.
    assert (Hr : r = Raise e).
    { apply Hsnd;
        first [ assumption | lia
              | cbn [r_size r_buf _reader _transport with_reader with_r_have with_spid
                     with_r_pos];
                first [ exact Hin1 | lia | rewrite Hlen1; lia ] ]. }
    specialize (Hframe3 _ _ eq_refl). subst res r. cbn [fst snd].
    split; [reflexivity|].
    unfold beside_reading in Hframe, Hframe3. cbn in Hframe3.
    injection Hframe3 as _ Hout3 Hic3. injection Hframe as _ Hout1 Hic1.
    split; congruence.
Qed.

Lemma read_packet_timeout_and_closed_witness :
  let s := expecting [Bytes [4; 1; 0]; TimedOut] (new_session 4096) in
  snd (_read_packet s) = Raise TimeoutError /\
  outbox (_transport (fst (_read_packet s)))
  = outbox (_transport s) ++ [cancel_packet (w_packet_no (_writer s))] /\
  in_cancel (fst (_read_packet s)) = true.
Proof.
  intros s.
  destruct (@read_packet_timeout_and_closed [[4; 1; 0]] [TimedOut] TimeoutError s)
    as [Hraise Hcancel].
  - reflexivity.
  - repeat constructor. discriminate.
  - reflexivity.
  - vm_compute. discriminate.
  - split; vm_compute; [|split]; discriminate.
  - left. vm_compute. reflexivity.
  - split; [exact Hraise | exact Hcancel].
Defined.

(** C6 as stated fails for the body: the header of a twelve-byte packet
    arrives, the next read times out, and [_read_packet] raises
    [TimeoutError] without having sent anything or set [in_cancel]. *)
Lemma body_timeout_sends_no_cancel :
  let s := expecting stalled_body (new_session 4096) in
  snd (_read_packet s) = Raise TimeoutError /\
  outbox (_transport (fst (_read_packet s))) = [] /\
  in_cancel (fst (_read_packet s)) = false.
Proof. vm_compute. repeat split. Qed.

(** The same script cut short inside the header does send the CANCEL. *)
Example header_timeout_sends_cancel :
  let s := expecting [Bytes [4; 1; 0]; TimedOut] (new_session 4096) in
  snd (_read_packet s) = Raise TimeoutError /\
  outbox (_transport (fst (_read_packet s))) = [[6; 1; 0; 8; 0; 0; 0; 0]] /\
  in_cancel (fst (_read_packet s)) = true.
Proof. vm_compute. repeat split. Qed.

(* ===================================================================== *)
(** * Part II, continued                                                  *)
(* ===================================================================== *)

(** ** [_read_packet] puts a packet together *)

Lemma session_same_receive (s : TdsSession) :
  with_transport (with_inbox (inbox (_transport s)) (_transport s))
    (with_reader (with_r_buf (r_buf (_reader s)) (_reader s)) s) = s.
Proof. destruct s as [[i o c] [b p h z t u] w]. reflexivity. Qed.

Lemma incoming_nonempty (script : list event) :
  incoming script <> [] ->
  exists b bs rest, script = Bytes (b :: bs) :: rest.
Proof.
  destruct script as [|[[|b bs]|] rest]; cbn; try congruence.
  intros _. now exists b, bs, rest.
Qed.

(** One [recv_into] with data ahead: it takes a non-empty piece off the
    front of the stream, no longer than asked for, into the buffer. *)
Lemma recv_into_data (pos n : Z) (s : TdsSession) :
  0 <= pos -> 0 < n -> pos + n <= len (r_buf (_reader s)) ->
  incoming (inbox (_transport s)) <> [] ->
  exists got script',
    got <> [] /\ len got <= n /\
    recv_into pos n s
    = (with_transport (with_inbox script' (_transport s))
         (with_reader
            (with_r_buf (slice_assign (r_buf (_reader s)) pos (pos + len got) got)
               (_reader s)) s),
       Ok (len got)) /\
    incoming (inbox (_transport s)) = got ++ incoming script'.
Proof.
  intros Hpos Hn Hroom Hdata.
  destruct (incoming_nonempty _ Hdata) as (b & bs & rest & Hin).
  unfold recv_into.
  replace (Z.max 0 (len (r_buf (_reader s)) - pos) <? n) with false
    by (symmetry; apply Z.ltb_ge; lia).
  rewrite Hin. cbn [incoming].
  set (c := b :: bs).
  exists (firstn (Z.to_nat n) c).
  assert (Hgot : firstn (Z.to_nat n) c <> []).
  { unfold c. destruct (Z.to_nat n) as [|m] eqn:E; [lia|]. cbn. discriminate. }
  assert (Hle : len (firstn (Z.to_nat n) c) <= n).
  { unfold len. rewrite length_firstn. lia. }
  destruct (skipn (Z.to_nat n) c) as [|x unread] eqn:Hskip.
  - exists rest. repeat split; try assumption.
    rewrite <- (firstn_skipn (Z.to_nat n) c) at 1. rewrite Hskip, app_nil_r. reflexivity.
  - exists (Bytes (x :: unread) :: rest). repeat split; try assumption.
    cbn [incoming]. rewrite <- Hskip, app_assoc, firstn_skipn. reflexivity.
Qed.

Lemma read_header_loop_reads (fuel : nat) : forall pos s,
  0 <= pos <= 8 ->
  8 <= pos + len (incoming (inbox (_transport s))) ->
  8 <= len (r_buf (_reader s)) ->
  8 - pos < Z.of_nat fuel ->
  exists buf' script',
    read_header_loop fuel pos s
    = (with_transport (with_inbox script' (_transport s))
         (with_reader (with_r_buf buf' (_reader s)) s), Ok 8) /\
    len buf' = len (r_buf (_reader s)) /\
    firstn 8 buf'
    = firstn (Z.to_nat pos) (r_buf (_reader s))
      ++ firstn (Z.to_nat (8 - pos)) (incoming (inbox (_transport s))) /\
    incoming script' = skipn (Z.to_nat (8 - pos)) (incoming (inbox (_transport s))).
Proof.
  induction fuel as [|fuel IH]; intros pos s Hpos Hdata Hbuf Hfuel; [lia|].
  cbn [read_header_loop]. destruct (pos <? 8) eqn:Hlt.
  - apply Z.ltb_lt in Hlt.
    destruct (@recv_into_data pos (8 - pos) s) as (got & script1 & Hne & Hle & Hrecv & Hstream);
      try lia.
    { intros E. rewrite E in Hdata. unfold len in Hdata. cbn in Hdata. lia. }
    assert (Hgot : 0 < len got) by (destruct got; [contradiction | unfold len; cbn; lia]).
    unfold bind at 1. rewrite Hrecv.
    replace (len got =? 0) with false by (symmetry; apply Z.eqb_neq; lia).
    match goal with |- context [read_header_loop fuel (pos + len got) ?s1] =>
      destruct (IH (pos + len got) s1) as (buf' & script' & Hrun & Hlen & Hfirst & Hrest)
    end.
    + lia.
    + cbn [_transport with_transport with_reader inbox with_inbox].
      rewrite Hstream, len_app in Hdata. lia.
    + cbn [_reader with_transport with_reader r_buf with_r_buf].
      rewrite len_slice_assign_same; lia.
    + lia.
    + cbn [_transport _reader with_transport with_reader inbox with_inbox r_buf with_r_buf]
        in Hrun, Hlen, Hfirst, Hrest.
      exists buf', script'. split; [rewrite Hrun; reflexivity|].
      rewrite len_slice_assign_same in Hlen by lia. split; [assumption|].
      rewrite Hstream. split.
      * rewrite Hfirst, firstn_slice_assign by lia.
        rewrite <- app_assoc. f_equal.
        rewrite firstn_app. rewrite (firstn_all2 got) by (unfold len in Hle; lia).
        f_equal. f_equal. unfold len. lia.
      * rewrite Hrest.
        replace (Z.to_nat (8 - pos))
          with (Z.to_nat (8 - (pos + len got)) + length got)%nat by (unfold len in *; lia).
        rewrite <- skipn_skipn. f_equal.
        rewrite skipn_app, skipn_all, Nat.sub_diag. reflexivity.
  - apply Z.ltb_ge in Hlt. assert (pos = 8) by lia. subst pos.
    exists (r_buf (_reader s)), (inbox (_transport s)).
    split; [unfold ret; now rewrite session_same_receive|].
    split; [reflexivity|].
    cbn [Z.sub Z.to_nat Z.add Z.opp Z.pos_sub firstn skipn]. now rewrite app_nil_r.
Qed.

Ltac reader_simpl :=
  cbn [_transport _reader with_transport with_reader with_spid inbox with_inbox r_buf
       with_r_buf r_size r_have with_r_have with_r_pos r_pos].

Lemma session_same_body (s : TdsSession) :
  with_transport (with_inbox (inbox (_transport s)) (_transport s))
    (with_reader (with_r_have (r_have (_reader s)) (with_r_buf (r_buf (_reader s)) (_reader s)))
       s) = s.
Proof. destruct s as [[i o c] [b p h z t u] w]. reflexivity. Qed.

Lemma read_body_loop_reads (fuel : nat) : forall pos s,
  0 <= pos <= r_size (_reader s) ->
  r_size (_reader s) <= pos + len (incoming (inbox (_transport s))) ->
  r_size (_reader s) <= len (r_buf (_reader s)) ->
  r_size (_reader s) - pos < Z.of_nat fuel ->
  exists buf' script' have',
    read_body_loop fuel pos s
    = (with_transport (with_inbox script' (_transport s))
         (with_reader (with_r_have have' (with_r_buf buf' (_reader s))) s), Ok tt) /\
    have' = r_have (_reader s) + (r_size (_reader s) - pos) /\
    len buf' = len (r_buf (_reader s)) /\
    firstn (Z.to_nat (r_size (_reader s))) buf'
    = firstn (Z.to_nat pos) (r_buf (_reader s))
      ++ firstn (Z.to_nat (r_size (_reader s) - pos)) (incoming (inbox (_transport s))) /\
    incoming script'
    = skipn (Z.to_nat (r_size (_reader s) - pos)) (incoming (inbox (_transport s))).
Proof.
  induction fuel as [|fuel IH]; intros pos s Hpos Hdata Hbuf Hfuel; [lia|].
  cbn [read_body_loop]. unfold bind at 1, gets at 1.
  set (size := r_size (_reader s)) in *.
  destruct (pos <? size) eqn:Hlt.
  - apply Z.ltb_lt in Hlt.
    destruct (@recv_into_data pos (size - pos) s)
      as (got & script1 & Hne & Hle & Hrecv & Hstream); try lia.
    { intros E. rewrite E in Hdata. unfold len in Hdata. cbn in Hdata. lia. }
    assert (Hgot : 0 < len got) by (destruct got; [contradiction | unfold len; cbn; lia]).
    unfold bind at 1. rewrite Hrecv.
    replace (len got =? 0) with false by (symmetry; apply Z.eqb_neq; lia).
    unfold bind at 1, modify at 1.
    match goal with |- context [read_body_loop fuel (pos + len got) ?s1] =>
      destruct (IH (pos + len got) s1)
        as (buf' & script' & have' & Hrun & Hhave & Hlen & Hfirst & Hrest)
    end.
    + cbn. fold size. lia.
    + cbn. fold size. rewrite Hstream, len_app in Hdata. lia.
    + cbn. fold size. rewrite len_slice_assign_same; lia.
    + cbn. fold size. lia.
    + exists buf', script', have'. split; [rewrite Hrun; reflexivity|].
      cbn [_transport _reader with_transport with_reader inbox with_inbox r_buf with_r_buf
             r_size r_have with_r_have] in Hhave, Hlen, Hfirst, Hrest.
      fold size in Hhave, Hfirst, Hrest.
      split; [lia|].
      rewrite len_slice_assign_same in Hlen by lia. split; [assumption|].
      rewrite Hstream. split.
      * rewrite Hfirst, firstn_slice_assign by lia.
        rewrite <- app_assoc. f_equal.
        rewrite firstn_app. rewrite (firstn_all2 got) by (unfold len in Hle; lia).
        f_equal. f_equal. unfold len. lia.
      * rewrite Hrest.
        replace (Z.to_nat (size - pos))
          with (Z.to_nat (size - (pos + len got)) + length got)%nat by (unfold len in *; lia).
        rewrite <- skipn_skipn. f_equal.
        rewrite skipn_app, skipn_all, Nat.sub_diag. reflexivity.
  - apply Z.ltb_ge in Hlt. assert (pos = size) by lia. subst pos.
    exists (r_buf (_reader s)), (inbox (_transport s)), (r_have (_reader s)).
    split; [unfold ret; now rewrite session_same_body|].
    split; [lia|]. split; [reflexivity|].
    rewrite Z.sub_diag. cbn [Z.to_nat firstn skipn]. rewrite app_nil_r.
    split; [|reflexivity]. reflexivity.
Qed.

Lemma firstn_split_at {A} (l : list A) (a b : nat) :
  firstn (a + b) l = firstn a l ++ firstn b (skipn a l).
Proof.
  revert l. induction a as [|a IH]; intros l; [reflexivity|].
  destruct l as [|x l]; [now rewrite skipn_nil, !firstn_nil|]. cbn. now rewrite IH.
Qed.

(** A whole packet on its way is read, whatever its pieces. *)
Lemma read_packet_whole (s : TdsSession) :
  let stream := incoming (inbox (_transport s)) in
  8 <= wire_size stream <= len stream ->
  wire_size stream <= len (r_buf (_reader s)) ->
  exists buf' script',
    _read_packet s = (holding_packet s buf' script' stream, Ok tt) /\
    len buf' = len (r_buf (_reader s)) /\
    firstn (Z.to_nat (wire_size stream)) buf' = firstn (Z.to_nat (wire_size stream)) stream /\
    incoming script' = skipn (Z.to_nat (wire_size stream)) stream.
Proof.
  intros stream Hsize Hroom.
  destruct (@read_header_loop_reads 9 0 s) as (buf1 & script1 & Hhdr & Hlen1 & Hfirst1 & Hrest1);
    try (fold stream; lia).
  fold stream in Hfirst1, Hrest1.
  replace (Z.to_nat (8 - 0)) with 8%nat in Hfirst1, Hrest1 by lia.
  change (Z.to_nat 0) with 0%nat in Hfirst1. rewrite firstn_O, app_nil_l in Hfirst1.
  assert (Hnth : forall i, (i < 8)%nat -> nth i buf1 0 = nth i stream 0).
  { intros i Hi. rewrite <- (@nth_firstn_lt _ buf1 i 8 0), Hfirst1 by lia.
    now apply nth_firstn_lt. }
  unfold _read_packet. unfold bind at 1, except_timeout. rewrite Hhdr.
  unfold bind at 1, modify at 1. unfold bind at 1, unpack_header, modify at 1.
  unfold bind at 1, modify at 1. unfold bind at 1, gets at 1.
  cbn [_reader with_reader with_transport with_spid with_r_have with_r_pos r_size r_buf
       with_r_buf r_pos r_have r_type r_status].
  rewrite !Hnth by lia. fold (wire_size stream).
  match goal with |- context [read_body_loop ?fuel 8 ?s3] =>
    destruct (@read_body_loop_reads fuel 8 s3)
      as (buf' & script' & have' & Hrun & Hhave & Hlen & Hfirst & Hrest)
  end.
  - reader_simpl. lia.
  - reader_simpl. rewrite Hrest1. unfold len in *. rewrite length_skipn. lia.
  - reader_simpl. lia.
  - reader_simpl. lia.
  - exists buf', script'. rewrite Hrun.
    cbn [_transport _reader with_transport with_reader with_spid inbox with_inbox r_buf
           with_r_buf r_size r_have with_r_have] in Hhave, Hlen, Hfirst, Hrest.
    replace have' with (wire_size stream) by lia.
    split; [reflexivity|]. split; [lia|].
    split.
    + change (Z.to_nat 8) with 8%nat in Hfirst. rewrite Hfirst, Hfirst1, Hrest1.
      rewrite <- firstn_split_at. f_equal. lia.
    + rewrite Hrest, Hrest1, skipn_skipn. f_equal. lia.
Qed.

(** X1: however the transport cuts the bytes into deliveries, when a whole
    packet is on its way (a header announcing [size >= 8] bytes, at least
    [size] bytes before any timeout or close, a buffer of [size] bytes or
    more) [_read_packet] returns with the packet's bytes at the front of the
    buffer, the reader behind the header with type, status, size and spid
    taken from it, and only the bytes after the packet left in the
    transport; nothing else in the session changes. *)
Theorem read_packet_reassembles (s : TdsSession) :
  let stream := incoming (inbox (_transport s)) in
  8 <= wire_size stream <= len stream ->
  wire_size stream <= len (r_buf (_reader s)) ->
  exists buf' script',
    _read_packet s = (holding_packet s buf' script' stream, Ok tt) /\
    len buf' = len (r_buf (_reader s)) /\
    firstn (Z.to_nat (wire_size stream)) buf' = firstn (Z.to_nat (wire_size stream)) stream /\
    incoming script' = skipn (Z.to_nat (wire_size stream)) stream.
Proof. exact (read_packet_whole s). Qed.

Lemma read_packet_reassembles_witness :
  let s := expecting [Bytes [4; 1; 0]; Bytes [11; 0; 51; 1; 0; 7; 8]; Bytes [9; 4; 0]]
             (new_session 4096) in
  exists buf' script',
    _read_packet s = (holding_packet s buf' script' [4; 1; 0; 11; 0; 51; 1; 0; 7; 8; 9; 4; 0],
                      Ok tt) /\
    firstn 11 buf' = [4; 1; 0; 11; 0; 51; 1; 0; 7; 8; 9] /\
    incoming script' = [4; 0].
Proof.
  intros s.
  destruct (@read_packet_reassembles s) as (buf' & script' & Hrun & _ & Hfirst & Hrest).
  - vm_compute. split; discriminate.
  - vm_compute. discriminate.
  - exists buf', script'. split; [exact Hrun|]. split; [exact Hfirst | exact Hrest].
Defined.

(** ** What the writer sends, the reader reads back *)

Lemma len_packet_of (w : TdsWriter) (final : bool) :
  8 <= w_pos w <= len (w_buf w) -> len (packet_of w final) = w_pos w.
Proof.
  intros [Hpos Hfit]. unfold packet_of. rewrite slice_0. unfold len in *.
  rewrite length_firstn, length_app, length_skipn. cbn [header_of length]. lia.
Qed.

Lemma packet_of_split (w : TdsWriter) (final : bool) :
  8 <= w_pos w <= len (w_buf w) ->
  packet_of w final = header_of w final ++ pending w.
Proof.
  intros [Hpos Hfit].
  rewrite <- (packet_of_payload w final) by lia.
  rewrite <- (firstn_skipn 8 (packet_of w final)) at 1. unfold payload. f_equal.
  unfold packet_of. rewrite slice_0, firstn_firstn.
  replace (Init.Nat.min 8 (Z.to_nat (w_pos w))) with 8%nat by lia.
  reflexivity.
Qed.

Lemma wire_size_div_mod (ty st size s1 s2 no pad : Z) (rest : list Z) :
  wire_size ([ty; st; size / 256; size mod 256; s1; s2; no; pad] ++ rest) = size.
Proof. unfold wire_size. cbn [nth app]. symmetry. apply Z.div_mod. lia. Qed.

(** X2: a packet that [_write_packet] hands to the transport, arriving at a
    reader in whatever pieces and followed by whatever else, is read back by
    [_read_packet] as it was written: type, status and length as the writer
    had them, spid zero, and behind the header the very bytes that were
    buffered; what follows the packet stays in the transport. *)
Theorem written_packet_reads_back
  (w w' : TdsWriter) (t t' : Transport) (final : bool) (pkt more : list Z) (s : TdsSession) :
  _write_packet final (w, t) = ((w', t'), Ok tt) ->
  8 <= w_pos w <= len (w_buf w) ->
  outbox t' = outbox t ++ [pkt] ->
  incoming (inbox (_transport s)) = pkt ++ more ->
  w_pos w <= len (r_buf (_reader s)) ->
  let s' := fst (_read_packet s) in
  snd (_read_packet s) = Ok tt /\
  r_type (_reader s') = Some (w_type w) /\
  r_status (_reader s') = Some (if final then 1 else 0) /\
  r_size (_reader s') = w_pos w /\
  r_pos (_reader s') = 8 /\
  _spid s' = 0 /\
  slice (r_buf (_reader s')) 8 (w_pos w) = pending w /\
  incoming (inbox (_transport s')) = more.
Proof.
  intros Hwrite Hpos Hout Hin Hroom.
  apply write_packet_inv in Hwrite. destruct Hwrite as (Hlen & Hty & Hp & Hno & E).
  injection E as -> ->. cbn [outbox after_sendall] in Hout.
  apply app_inj_tail in Hout. destruct Hout as [_ <-].
  pose proof (len_packet_of w final Hpos) as Hplen.
  assert (Hsize : wire_size (packet_of w final ++ more) = w_pos w).
  { rewrite packet_of_split by assumption. unfold header_of.
    rewrite <- app_assoc. apply wire_size_div_mod. }
  destruct (@read_packet_whole s) as (buf' & script' & Hrun & _ & Hfirst & Hrest).
  { rewrite Hin, Hsize, len_app, Hplen. pose proof (len_nonneg more). lia. }
  { rewrite Hin, Hsize. assumption. }
  rewrite Hin, Hsize in Hfirst, Hrest. rewrite Hrun. cbn [fst snd].
  unfold holding_packet. reader_simpl. cbn [r_type r_status _spid with_transport with_spid].
  rewrite Hin, Hsize. rewrite packet_of_split by assumption. unfold header_of.
  cbn [nth app]. repeat split.
  - unfold slice.
    replace (Z.to_nat (w_pos w - 8)) with (Z.to_nat (w_pos w) - 8)%nat by lia.
    change (Z.to_nat 8) with 8%nat.
    rewrite firstn_skipn_comm.
    replace (8 + (Z.to_nat (w_pos w) - 8))%nat with (Z.to_nat (w_pos w)) by lia.
    rewrite Hfirst. rewrite firstn_app.
    rewrite firstn_all2 by (unfold len in Hplen; lia).
    replace (Z.to_nat (w_pos w) - length (packet_of w final))%nat with 0%nat
      by (unfold len in Hplen; lia).
    cbn [firstn]. rewrite app_nil_r. apply packet_of_payload; lia.
  - rewrite Hrest. rewrite skipn_app.
    rewrite skipn_all2 by (unfold len in Hplen; lia).
    replace (Z.to_nat (w_pos w) - length (packet_of w final))%nat with 0%nat
      by (unfold len in Hplen; lia).
    reflexivity.
Qed.

Lemma written_packet_reads_back_witness :
  let w := fst loaded_writer in
  let s := expecting flushed_in_pieces (new_session 4096) in
  let s' := fst (_read_packet s) in
  snd (_read_packet s) = Ok tt /\
  r_type (_reader s') = Some (w_type w) /\
  r_status (_reader s') = Some 1 /\
  r_size (_reader s') = w_pos w /\
  r_pos (_reader s') = 8 /\
  _spid s' = 0 /\
  slice (r_buf (_reader s')) 8 (w_pos w) = pending w /\
  incoming (inbox (_transport s')) = [9; 9].
Proof.
  intros w s.
  apply (@written_packet_reads_back w (fst (fst (flush loaded_writer)))
           (snd loaded_writer) (snd (fst (flush loaded_writer))) true
           [1; 1; 0; 11; 0; 0; 0; 0; 1; 2; 3] [9; 9] s).
  - vm_compute. reflexivity.
  - vm_compute. split; discriminate.
  - vm_compute. reflexivity.
  - vm_compute. reflexivity.
  - vm_compute. discriminate.
Defined.

(** ** [recv] *)

Lemma slice_bound_inside (n i : Z) : 0 <= i <= n -> slice_bound n i = i.
Proof.
  intros H. unfold slice_bound.
  replace (i <? 0) with false by (symmetry; apply Z.ltb_ge; lia). lia.
Qed.

Lemma py_slice_slice {A} (l : list A) (a b : Z) :
  0 <= a <= b -> b <= len l -> py_slice l a b = slice l a b.
Proof.
  intros Hab Hb. unfold py_slice, slice. now rewrite !slice_bound_inside by lia.
Qed.

Lemma session_same_pos (s : TdsSession) :
  with_reader (with_r_pos (r_pos (_reader s)) (_reader s)) s = s.
Proof. destruct s as [tr [b p h z t u] w]. reflexivity. Qed.

(** One [recv] with unread bytes in the buffer. *)
Lemma recv_buffered (size : Z) (s : TdsSession) :
  0 < size ->
  0 <= r_pos (_reader s) < r_size (_reader s) ->
  r_size (_reader s) <= len (r_buf (_reader s)) ->
  recv size s
  = (with_reader
       (with_r_pos (r_pos (_reader s) + Z.min size (r_size (_reader s) - r_pos (_reader s)))
          (_reader s)) s,
     Ok (slice (r_buf (_reader s)) (r_pos (_reader s))
           (r_pos (_reader s) + Z.min size (r_size (_reader s) - r_pos (_reader s))))).
Proof.
  intros Hsize Hpos Hbuf. unfold recv. unfold bind at 1, gets at 1.
  replace (r_size (_reader s) <=? r_pos (_reader s)) with false
    by (symmetry; apply Z.leb_gt; lia).
  unfold bind at 1, ret at 1. unfold bind at 1, gets at 1.
  unfold bind at 1, modify at 1. unfold bind at 1, gets at 1. unfold ret.
  cbn [_reader with_reader r_buf with_r_pos].
  rewrite py_slice_slice by lia. reflexivity.
Qed.

Lemma slice_join {A} (l : list A) (a b c : Z) :
  0 <= a <= b -> b <= c -> slice l a b ++ slice l b c = slice l a c.
Proof.
  intros Hab Hbc. unfold slice.
  replace (Z.to_nat (c - a)) with (Z.to_nat (b - a) + Z.to_nat (c - b))%nat by lia.
  rewrite firstn_split_at, skipn_skipn. do 3 f_equal. lia.
Qed.

Lemma len_slice {A} (l : list A) (a b : Z) :
  0 <= a <= b -> b <= len l -> len (slice l a b) = b - a.
Proof.
  intros Hab Hb. unfold slice, len in *. rewrite length_firstn, length_skipn. lia.
Qed.

(** X3: while the packet in the buffer has the bytes, a run of [recv] calls
    with positive sizes touches nothing but the read position, returns pieces
    of exactly the sizes asked for, and the pieces put together are the bytes
    of the buffer from the old position on, in order. *)
Theorem recv_each_reads_in_order (sizes : list Z) : forall (s : TdsSession),
  Forall (fun size => 0 < size) sizes ->
  0 <= r_pos (_reader s) ->
  r_pos (_reader s) + total sizes <= r_size (_reader s) ->
  r_size (_reader s) <= len (r_buf (_reader s)) ->
  exists pieces,
    recv_each sizes s
    = (with_reader (with_r_pos (r_pos (_reader s) + total sizes) (_reader s)) s, Ok pieces) /\
    map len pieces = sizes /\
    concat pieces
    = slice (r_buf (_reader s)) (r_pos (_reader s)) (r_pos (_reader s) + total sizes).
Proof.
  induction sizes as [|size sizes IH]; intros s Hall Hpos Hfit Hbuf.
  - exists []. cbn [recv_each total fold_right]. rewrite Z.add_0_r, session_same_pos.
    repeat split. unfold slice. now rewrite Z.sub_diag.
  - inversion Hall as [|? ? Hsize Hrest]; subst.
    cbn [total fold_right] in *. fold (total sizes) in *.
    assert (Htot : 0 <= total sizes).
    { clear -Hrest. induction Hrest; cbn [total fold_right]; [lia|].
      fold (total l). lia. }
    cbn [recv_each]. unfold bind at 1. rewrite recv_buffered by lia.
    replace (Z.min size (r_size (_reader s) - r_pos (_reader s))) with size by lia.
    destruct (IH (with_reader (with_r_pos (r_pos (_reader s) + size) (_reader s)) s) Hrest)
      as (pieces & Hrun & Hlens & Hcat); try (reader_simpl; cbn [r_size r_buf]; lia).
    unfold bind at 1. rewrite Hrun. unfold ret.
    reader_simpl. cbn [r_size] in *.
    exists (slice (r_buf (_reader s)) (r_pos (_reader s)) (r_pos (_reader s) + size) :: pieces).
    split; [|split].
    + rewrite Z.add_assoc. reflexivity.
    + cbn [map]. rewrite Hlens, len_slice by lia. f_equal. lia.
    + cbn [concat]. rewrite Hcat. reader_simpl.
      rewrite slice_join by lia. f_equal. lia.
Qed.

Lemma recv_each_reads_in_order_witness :
  let s := holding [10; 20; 30; 40; 50; 60] (new_session 4096) in
  exists pieces,
    recv_each [1; 3; 2] s
    = (with_reader (with_r_pos (r_pos (_reader s) + total [1; 3; 2]) (_reader s)) s,
       Ok pieces) /\
    map len pieces = [1; 3; 2] /\
    concat pieces
    = slice (r_buf (_reader s)) (r_pos (_reader s)) (r_pos (_reader s) + total [1; 3; 2]).
Proof.
  intros s. apply (@recv_each_reads_in_order [1; 3; 2] s).
  - repeat constructor.
  - vm_compute. discriminate.
  - vm_compute. discriminate.
  - vm_compute. discriminate.
Defined.

(** X4: [recv] on a reader that has used up its packet fetches the next one
    first: with a whole packet on its way it returns the first bytes of that
    packet's payload, as many as asked for or as the packet has, and leaves
    the reader behind them. *)
Theorem recv_fetches_next_packet (size : Z) (s : TdsSession) :
  let stream := incoming (inbox (_transport s)) in
  let k := Z.min size (wire_size stream - 8) in
  r_size (_reader s) <= r_pos (_reader s) ->
  0 < size ->
  8 <= wire_size stream <= len stream ->
  wire_size stream <= len (r_buf (_reader s)) ->
  snd (recv size s) = Ok (slice stream 8 (8 + k)) /\
  r_pos (_reader (fst (recv size s))) = 8 + k /\
  r_size (_reader (fst (recv size s))) = wire_size stream /\
  incoming (inbox (_transport (fst (recv size s))))
  = skipn (Z.to_nat (wire_size stream)) stream.
Proof.
  intros stream k Hdone Hsize Hpacket Hroom.
  destruct (@read_packet_whole s) as (buf' & script' & Hrun & Hlen & Hfirst & Hrest);
    try assumption.
  fold stream in Hrun, Hfirst, Hrest.
  remember (recv size s) as res eqn:E. unfold recv in E.
  unfold bind at 1, gets at 1 in E.
  replace (r_size (_reader s) <=? r_pos (_reader s)) with true in E
    by (symmetry; apply Z.leb_le; lia).
  unfold bind at 1 in E. rewrite Hrun in E.
  unfold bind at 1, gets at 1 in E. unfold bind at 1, modify at 1 in E.
  unfold bind at 1, gets at 1 in E. unfold ret in E.
  unfold holding_packet in E.
  cbn [_reader with_reader with_transport with_spid r_buf r_pos r_size with_r_pos] in E.
  fold k in E. subst res. cbn [fst snd _reader _transport with_reader with_transport
    with_spid r_pos r_size with_r_pos inbox with_inbox].
  split; [|repeat split; assumption].
  f_equal. rewrite py_slice_slice by lia. unfold slice.
  replace (8 + k - 8) with k by lia. change (Z.to_nat 8) with 8%nat.
  rewrite !firstn_skipn_comm. f_equal.
  assert (Hcut : forall l : list Z,
            firstn (8 + Z.to_nat k) l
            = firstn (8 + Z.to_nat k) (firstn (Z.to_nat (wire_size stream)) l)).
  { intros l. rewrite firstn_firstn. f_equal. lia. }
  rewrite (Hcut buf'), (Hcut stream), Hfirst. reflexivity.
Qed.

Lemma recv_fetches_next_packet_witness :
  let s := expecting [Bytes [4; 1; 0]; Bytes [11; 0; 51; 1; 0; 7; 8]; Bytes [9; 4; 0]]
             (new_session 4096) in
  let stream := incoming (inbox (_transport s)) in
  let k := Z.min 2 (wire_size stream - 8) in
  snd (recv 2 s) = Ok (slice stream 8 (8 + k)) /\
  r_pos (_reader (fst (recv 2 s))) = 8 + k /\
  r_size (_reader (fst (recv 2 s))) = wire_size stream /\
  incoming (inbox (_transport (fst (recv 2 s))))
  = skipn (Z.to_nat (wire_size stream)) stream.
Proof.
  intros s. apply (@recv_fetches_next_packet 2 s).
  - vm_compute. discriminate.
  - reflexivity.
  - vm_compute. split; discriminate.
  - vm_compute. discriminate.
Defined.

(** ** The buffer size setter and [put_cancel] *)

(** X5: the [bufsize] setter, given a size that is not negative, leaves a
    buffer of exactly that size; the bytes both buffers have room for are
    kept, a grown buffer is padded with zeros, and position, packet number
    and type are not touched, not even when the position now lies beyond the
    end of the buffer. *)
Theorem bufsize_setter_keeps_content (v : Z) (w : TdsWriter) :
  0 <= v ->
  bufsize (set_bufsize v w) = v /\
  firstn (Z.to_nat (Z.min v (bufsize w))) (w_buf (set_bufsize v w))
  = firstn (Z.to_nat (Z.min v (bufsize w))) (w_buf w) /\
  skipn (Z.to_nat (bufsize w)) (w_buf (set_bufsize v w))
  = repeat 0 (Z.to_nat (v - bufsize w)) /\
  w_pos (set_bufsize v w) = w_pos w /\
  w_packet_no (set_bufsize v w) = w_packet_no w /\
  w_type (set_bufsize v w) = w_type w.
Proof.
  intros Hv. split; [now apply bufsize_set_bufsize|].
  split; [|split; [|apply set_bufsize_keeps]].
  - unfold set_bufsize, bufsize.
    destruct (len (w_buf w) =? v) eqn:Heq; [reflexivity|].
    destruct (len (w_buf w) <? v) eqn:Hlt; cbn [w_buf].
    + apply Z.ltb_lt in Hlt. rewrite firstn_app.
      replace (Z.to_nat (Z.min v (len (w_buf w))) - length (w_buf w))%nat with 0%nat
        by (unfold len in *; lia).
      cbn [firstn]. now rewrite app_nil_r.
    + rewrite slice_0, firstn_firstn. f_equal. lia.
  - unfold set_bufsize, bufsize.
    destruct (len (w_buf w) =? v) eqn:Heq.
    + apply Z.eqb_eq in Heq. rewrite skipn_all2 by (unfold len; lia).
      now replace (Z.to_nat (v - len (w_buf w))) with 0%nat by lia.
    + destruct (len (w_buf w) <? v) eqn:Hlt; cbn [w_buf].
      * rewrite skipn_app, skipn_all2 by (unfold len; lia).
        replace (Z.to_nat (len (w_buf w)) - length (w_buf w))%nat with 0%nat
          by (unfold len; lia).
        reflexivity.
      * apply Z.ltb_ge in Hlt.
        rewrite skipn_all2 by (rewrite slice_0, length_firstn; unfold len; lia).
        now replace (Z.to_nat (v - len (w_buf w))) with 0%nat by lia.
Qed.

Lemma bufsize_setter_keeps_content_witness :
  let w := fst loaded_writer in
  bufsize (set_bufsize 16 w) = 16 /\
  firstn (Z.to_nat (Z.min 16 (bufsize w))) (w_buf (set_bufsize 16 w))
  = firstn (Z.to_nat (Z.min 16 (bufsize w))) (w_buf w) /\
  skipn (Z.to_nat (bufsize w)) (w_buf (set_bufsize 16 w))
  = repeat 0 (Z.to_nat (16 - bufsize w)) /\
  w_pos (set_bufsize 16 w) = w_pos w /\
  w_packet_no (set_bufsize 16 w) = w_packet_no w /\
  w_type (set_bufsize 16 w) = w_type w.
Proof. intros w. apply (@bufsize_setter_keeps_content 16 w). lia. Defined.

(** X6: [put_cancel] on a writer whose buffer holds a header sends exactly
    one packet, the empty final packet of type CANCEL numbered with the
    writer's packet number, sets [in_cancel], and leaves the writer at the
    start of a CANCEL message with the next packet number; whatever the
    writer had buffered for another message is dropped.  With a buffer
    shorter than a header nothing is sent, [in_cancel] is not set and
    [struct.error] comes out. *)
Theorem put_cancel_sends_one_packet (s : TdsSession) :
  0 <= w_packet_no (_writer s) <= 255 ->
  put_cancel s =
    let w := _writer s in
    if 8 <=? len (w_buf w) then
      (with_in_cancel true
         (with_transport (after_sendall (cancel_packet (w_packet_no w)) (_transport s))
            (with_writer
               {| w_pos := 8; w_buf := cancel_packet (w_packet_no w) ++ skipn 8 (w_buf w);
                  w_packet_no := (w_packet_no w + 1) mod 256; w_type := PacketType_CANCEL |}
               s)),
       Ok tt)
    else
      (with_writer
         {| w_pos := 8; w_buf := w_buf w; w_packet_no := w_packet_no w;
            w_type := PacketType_CANCEL |} s,
       Raise StructError).
Proof.
  intros Hno. cbv zeta. unfold put_cancel.
  unfold bind at 1, on_writer at 1, zoom, begin_packet, modify. cbn [fst snd].
  unfold bind at 1, on_writer at 1, zoom, flush.
  cbn [_writer _transport with_writer with_transport].
  destruct (8 <=? len (w_buf (_writer s))) eqn:Hbuf.
  - apply Z.leb_le in Hbuf.
    rewrite write_packet_ok by (cbn; unfold PacketType_CANCEL; lia).
    unfold packet_of. rewrite slice_0. reflexivity.
  - apply Z.leb_gt in Hbuf. unfold _write_packet, header_pack_into. cbn [w_buf].
    replace (len (w_buf (_writer s)) <? 8) with true by (symmetry; apply Z.ltb_lt; lia).
    destruct s as [tr rd [p b n ty]]. reflexivity.
Qed.

Lemma put_cancel_sends_one_packet_witness :
  let s := with_writer (fst loaded_writer) (new_session 12) in
  snd (put_cancel s) = Ok tt /\
  outbox (_transport (fst (put_cancel s))) = [[6; 1; 0; 8; 0; 0; 0; 0]] /\
  pending (_writer (fst (put_cancel s))) = [] /\
  in_cancel (fst (put_cancel s)) = true.
Proof.
  intros s. rewrite (@put_cancel_sends_one_packet s) by (vm_compute; split; discriminate).
  vm_compute. repeat split.
Defined.

(** ** [querying_context] *)

Lemma set_state_allowed `{TdsBase} (st : tds_state) (s : TdsSession) :
  documented_transition (state s) st = true ->
  set_state st s = (entered st s, Ok st).
Proof.
  intros Hok. destruct (set_state_spec st s) as [_ Hrun]. now rewrite Hok in Hrun.
Qed.

Lemma set_state_refused `{TdsBase} (st : tds_state) (s : TdsSession) :
  documented_transition (state s) st = false ->
  exists text, set_state st s = (s, Raise (InterfaceError text)).
Proof.
  intros Hno. destruct (set_state_spec st s) as [_ Hrun]. now rewrite Hno in Hrun.
Qed.

Lemma state_entered `{TdsBase} (st : tds_state) (s : TdsSession) :
  state (entered st s) = st.
Proof. apply set_state_spec. Qed.

Lemma querying_context_begins `{TdsBase} (packet_type : Z) (body : M TdsSession unit)
  (s : TdsSession) :
  documented_transition (state s) TDS_QUERYING = true ->
  querying_context packet_type body s
  = try_except_else body
      (cur <- gets state ;;
       if negb (state_eqb cur TDS_DEAD) then _ <- set_state TDS_IDLE ;; ret tt else ret tt)
      (_ <- set_state TDS_PENDING ;; on_writer flush)
      (query_started packet_type s).
Proof.
  intros Hok. unfold querying_context, query_started.
  unfold bind at 1. rewrite (set_state_allowed _ _ Hok).
  cbn [state_eqb negb]. unfold bind at 1, ret at 1.
  unfold bind at 1, on_writer at 1, zoom, begin_packet, modify. cbn [fst snd]. reflexivity.
Qed.


(** X8: a request whose block raises is rolled back: [querying_context]
    passes the exception on, sends nothing itself, and puts the session into
    IDLE state, unless the block left it DEAD, in which case it stays DEAD. *)
Theorem querying_context_rolls_back `{TdsBase}
  (packet_type : Z) (body : M TdsSession unit) (s s2 : TdsSession) (e : exn) :
  documented_transition (state s) TDS_QUERYING = true ->
  body (query_started packet_type s) = (s2, Raise e) ->
  let s' := fst (querying_context packet_type body s) in
  snd (querying_context packet_type body s) = Raise e /\
  state s' = (if state_eqb (state s2) TDS_DEAD then TDS_DEAD else TDS_IDLE) /\
  _transport s' = _transport s2 /\
  _writer s' = _writer s2 /\
  messages s' = messages s2.
Proof.
  intros Hok Hbody. cbv zeta.
  remember (querying_context packet_type body s) as res eqn:E.
  rewrite querying_context_begins in E by assumption.
  unfold try_except_else in E. rewrite Hbody in E.
  unfold bind at 1 in E. unfold bind at 1, gets at 1 in E.
  destruct (state_eqb (state s2) TDS_DEAD) eqn:Hdead; cbn [negb] in E.
  - unfold ret, raise in E. subst res. cbn [fst snd].
    repeat split. destruct (state s2); try discriminate. reflexivity.
  - unfold bind at 1 in E.
    rewrite set_state_allowed in E
      by (destruct (state s2); try reflexivity; discriminate).
    unfold ret, raise in E. subst res. cbn [fst snd]. rewrite state_entered.
    unfold entered. destruct (state_eqb TDS_IDLE (state s2)); repeat split.
Qed.

(** X9: on a session that is neither IDLE nor already QUERYING,
    [querying_context] raises [InterfaceError] before the block runs: the
    session is left exactly as it was, whatever the block would have done. *)
Theorem querying_context_refuses `{TdsBase}
  (packet_type : Z) (body : M TdsSession unit) (s : TdsSession) :
  state s <> TDS_IDLE -> state s <> TDS_QUERYING ->
  exists text,
    querying_context packet_type body s = (s, Raise (InterfaceError text)).
Proof.
  intros Hidle Hquerying.
  destruct (@set_state_refused _ TDS_QUERYING s) as (text & Hrun).
  { destruct (state s); try reflexivity; contradiction. }
  exists text. unfold querying_context. unfold bind at 1. now rewrite Hrun.
Qed.


Lemma querying_context_rolls_back_witness :
  let s := new_session 12 in
  let body := (write_body 8 [[1; 2; 3]] ;; raise ValueError) in
  let s2 := fst (body (@query_started buffered_base 1 s)) in
  let s' := fst (@querying_context buffered_base 1 body s) in
  snd (@querying_context buffered_base 1 body s) = Raise ValueError /\
  state s' = (if state_eqb (state s2) TDS_DEAD then TDS_DEAD else TDS_IDLE) /\
  _transport s' = _transport s2 /\
  _writer s' = _writer s2 /\
  messages s' = messages s2.
Proof.
  intros s body s2.
  apply (@querying_context_rolls_back buffered_base 1 body s s2 ValueError).
  - reflexivity.
  - vm_compute. reflexivity.
Defined.

Lemma querying_context_refuses_witness :
  let s := with_state TDS_PENDING (new_session 12) in
  exists text,
    @querying_context buffered_base 1 (write_body 8 [[1; 2; 3]]) s
    = (s, Raise (InterfaceError text)).
Proof.
  intros s. apply (@querying_context_refuses buffered_base 1 _ s); discriminate.
Defined.

(** ** [process_end] and a cancel in flight *)

(** X10: a DONE token with the CANCELLED bit ends the cancel: on a session
    that is not DEAD, [process_end] clears [in_cancel], goes to IDLE, records
    row count and status, and returns; it raises no database exception, not
    even when the token also carries the ERROR bit. *)
Theorem process_end_cancelled_token `{TdsBase}
  (marker status rows : Z) (s s1 : TdsSession) :
  read_done_token marker s = (s1, Ok (status, rows)) ->
  is_done_marker marker = true ->
  state s1 <> TDS_DEAD ->
  truthy (Z.land status TDS_DONE_CANCELLED) = true ->
  process_end marker s
  = (done_recorded status rows (entered TDS_IDLE (with_in_cancel false s1)), Ok tt).
Proof.
  intros Hread Hmarker Halive Hcancelled.
  unfold process_end. erewrite bind_ok by exact Hread. cbn [fst snd].
  unfold apply_done_token. rewrite Hmarker, Hcancelled.
  unfold bind at 1, ret at 1. unfold bind at 1, gets at 1. cbn [orb].
  unfold bind at 1. unfold bind at 1, modify at 1. unfold bind at 1.
  rewrite set_state_allowed
    by (cbn [state with_in_cancel]; destruct (state s1); try reflexivity; contradiction).
  unfold ret at 1. unfold bind at 1, modify at 1. unfold bind at 1, modify at 1.
  unfold bind at 1, gets at 1. unfold bind at 1, gets at 1.
  cbn [negb]. rewrite andb_false_r. cbn [andb]. reflexivity.
Qed.

(** X11: while a cancel is in flight, a DONE token without the CANCELLED bit
    belongs to the response being dropped: [process_end] records row count
    and status and returns, leaving the state and [in_cancel] as they are,
    whatever the MORE and ERROR bits say. *)
Theorem process_end_while_cancelling `{TdsBase}
  (marker status rows : Z) (s s1 : TdsSession) :
  read_done_token marker s = (s1, Ok (status, rows)) ->
  is_done_marker marker = true ->
  in_cancel s1 = true ->
  truthy (Z.land status TDS_DONE_CANCELLED) = false ->
  process_end marker s = (done_recorded status rows s1, Ok tt) /\
  state (done_recorded status rows s1) = state s1 /\
  in_cancel (done_recorded status rows s1) = true.
Proof.
  intros Hread Hmarker Hcancel Hnc. split; [|now split].
  unfold process_end. erewrite bind_ok by exact Hread. cbn [fst snd].
  unfold apply_done_token. rewrite Hmarker, Hnc.
  unfold bind at 1, ret at 1. unfold bind at 1, gets at 1. rewrite Hcancel.
  cbn [orb negb]. rewrite andb_false_r.
  unfold bind at 1, ret at 1. unfold bind at 1, modify at 1. unfold bind at 1, modify at 1.
  unfold bind at 1, gets at 1. unfold bind at 1, gets at 1.
  cbn [in_cancel with_done_flags with_rows_affected]. rewrite Hcancel.
  cbn [negb]. rewrite andb_false_r. reflexivity.
Qed.

Lemma process_end_cancelled_token_witness :
  let s := holding done_cancelled_with_error
             (with_in_cancel true
                (with_state TDS_READING
                   (with_messages [message_numbered 547 "conflict"] (new_session 4096)))) in
  let s1 := fst (@read_done_token buffered_base TDS_DONE_TOKEN s) in
  @process_end buffered_base TDS_DONE_TOKEN s
  = (done_recorded 34 0 (@entered buffered_base TDS_IDLE (with_in_cancel false s1)), Ok tt).
Proof.
  intros s s1.
  apply (@process_end_cancelled_token buffered_base TDS_DONE_TOKEN 34 0 s s1).
  - vm_compute. reflexivity.
  - reflexivity.
  - vm_compute. discriminate.
  - reflexivity.
Defined.

Lemma process_end_while_cancelling_witness :
  let s := holding done_with_error
             (with_in_cancel true
                (with_state TDS_READING
                   (with_messages [message_numbered 547 "conflict"] (new_session 4096)))) in
  let s1 := fst (@read_done_token buffered_base TDS_DONE_TOKEN s) in
  @process_end buffered_base TDS_DONE_TOKEN s = (done_recorded 2 0 s1, Ok tt) /\
  state (done_recorded 2 0 s1) = state s1 /\
  in_cancel (done_recorded 2 0 s1) = true.
Proof.
  intros s s1.
  apply (@process_end_while_cancelling buffered_base TDS_DONE_TOKEN 2 0 s s1).
  - vm_compute. reflexivity.
  - reflexivity.
  - reflexivity.
  - reflexivity.
Defined.

(** ** Sequences of [set_state] calls *)

Lemma state_after_set_state `{TdsBase} (st : tds_state) (s : TdsSession) :
  state (fst (set_state st s))
  = if documented_transition (state s) st then st else state s.
Proof.
  destruct (set_state_spec st s) as [Hst Hrun].
  destruct (documented_transition (state s) st).
  - rewrite Hrun. exact Hst.
  - destruct Hrun as [text ->]. reflexivity.
Qed.

(** X12: no run of [set_state] calls brings a DEAD session back, and none
    kills a live one unless DEAD itself is asked for: after any calls, the
    session is DEAD exactly when it was DEAD before or one of the calls
    asked for DEAD. *)
Theorem dead_only_on_request `{TdsBase} (requests : list tds_state) : forall s : TdsSession,
  state (request_states requests s) = TDS_DEAD <->
  state s = TDS_DEAD \/ In TDS_DEAD requests.
Proof.
  induction requests as [|st rest IH]; intros s; cbn [request_states In].
  - tauto.
  - rewrite IH, state_after_set_state.
    destruct st, (state s); cbn; intuition congruence.
Qed.

(** ** [parse_prelogin] and the end of the option table *)

Lemma nth_slice_0 (p : list Z) (i : Z) :
  0 <= i -> nth 0 (slice p i (i + 1)) 0 = nth (Z.to_nat i) p 0.
Proof.
  intros Hi. unfold slice. replace (i + 1 - i) with 1 by lia.
  change (Z.to_nat 1) with 1%nat.
  revert p. generalize (Z.to_nat i) as n. induction n as [|n IH]; intros p.
  - destruct p; reflexivity.
  - destruct p as [|x p]; [reflexivity|]. cbn [skipn nth]. apply IH.
Qed.

Lemma unpack_from_ok {S A} size (decode : list Z -> A) p off (s s' : S) (a : A) :
  unpack_from size decode p off s = (s', Ok a) ->
  off + size <= len p /\ s' = s /\ a = decode (slice p off (off + size)).
Proof.
  unfold unpack_from. destruct (off + size <=? len p) eqn:Hfit; intros E.
  - apply Z.leb_le in Hfit. injection E as <- <-. auto.
  - discriminate.
Qed.

Lemma prelogin_options_ends_at_terminator `{TdsBase} (fuel : nat) :
  forall p i crypt_flag s s' flag,
  0 <= i ->
  prelogin_options fuel p i crypt_flag s = (s', Ok flag) ->
  exists k : nat,
    i + 5 * Z.of_nat k < len p /\
    nth (Z.to_nat (i + 5 * Z.of_nat k)) p 0 = PreLoginToken_TERMINATOR.
Proof.
  induction fuel as [|fuel IH]; intros p i crypt_flag s s' flag Hi Hrun.
  - discriminate.
  - cbn [prelogin_options] in Hrun.
    apply bind_ok_inv in Hrun. destruct Hrun as (s1 & [] & _ & Hrun).
    apply bind_ok_inv in Hrun. destruct Hrun as (s2 & type_id & Htype & Hrun).
    apply unpack_from_ok in Htype. destruct Htype as (Hfit & _ & ->).
    rewrite nth_slice_0 in Hrun by assumption.
    destruct (nth (Z.to_nat i) p 0 =? PreLoginToken_TERMINATOR) eqn:Hterm.
    + apply Z.eqb_eq in Hterm. exists 0%nat.
      rewrite Z.mul_0_r, Z.add_0_r. split; [lia | assumption].
    + apply bind_ok_inv in Hrun. destruct Hrun as (s3 & [] & _ & Hrun).
      apply bind_ok_inv in Hrun. destruct Hrun as (s4 & off_l & _ & Hrun).
      apply bind_ok_inv in Hrun. destruct Hrun as (s5 & [] & _ & Hrun).
      apply bind_ok_inv in Hrun. destruct Hrun as (s6 & flag' & _ & Hrun).
      apply IH in Hrun; [|lia]. destruct Hrun as (k & Hlt & Hnth).
      exists (S k). replace (i + 5 * Z.of_nat (S k)) with (i + 5 + 5 * Z.of_nat k) by lia.
      now split.
Qed.

(** X13: [parse_prelogin] returns only for a reply whose option table is
    closed: some byte at a multiple of five, where an option record would
    begin, is the terminator 0xFF.  A reply without one, the empty reply
    included, always ends in an exception. *)
Theorem parse_prelogin_needs_terminator `{TdsBase}
  (octets : list Z) (sl : TdsSession * TdsLogin) :
  snd (parse_prelogin octets sl) = Ok tt ->
  exists k : nat,
    (5 * k < length octets)%nat /\ nth (5 * k) octets 0 = PreLoginToken_TERMINATOR.
Proof.
  intros Hok. destruct (parse_prelogin octets sl) as [sl' r] eqn:Hrun.
  cbn [snd] in Hok. subst r. unfold parse_prelogin in Hrun.
  apply bind_ok_inv in Hrun. destruct Hrun as ([s1 l1] & flag & Hopts & _).
  unfold on_session, zoom in Hopts.
  destruct (prelogin_options (S (length octets)) octets 0 2 (fst sl)) as [s2 r2] eqn:Hloop.
  injection Hopts as _ _ ->.
  apply prelogin_options_ends_at_terminator in Hloop; [|lia].
  destruct Hloop as (k & Hlt & Hnth). exists k.
  replace (Z.to_nat (0 + 5 * Z.of_nat k)) with (5 * k)%nat in Hnth by lia.
  split; [unfold len in Hlt; lia | assumption].
Qed.

Lemma parse_prelogin_needs_terminator_witness :
  exists k : nat,
    (5 * k < length (prelogin_reply ENCRYPT_ON))%nat /\
    nth (5 * k) (prelogin_reply ENCRYPT_ON) 0 = PreLoginToken_TERMINATOR.
Proof.
  apply (@parse_prelogin_needs_terminator buffered_base (prelogin_reply ENCRYPT_ON)
           (new_session 4096, login_with ENCRYPT_ON)).
  vm_compute. reflexivity.
Defined.

(** ** [write_string] *)

Lemma write_loop_keeps_bufsize fuel : forall data off w t w' t',
  0 <= off -> 0 <= w_pos w ->
  write_loop fuel data off (w, t) = ((w', t'), Ok tt) ->
  len (w_buf w') = len (w_buf w).
Proof.
  induction fuel as [|fuel IH]; intros data off w t w' t' Hoff Hpos Hrun.
  - discriminate.
  - cbn [write_loop] in Hrun.
    destruct (off <? len data) eqn:Hmore.
    + apply Z.ltb_lt in Hmore.
      unfold bind at 1, get in Hrun. cbn [fst] in Hrun.
      destruct (len (w_buf w) - w_pos w <=? 0) eqn:Hleft.
      * apply bind_ok_inv in Hrun. destruct Hrun as ([w1 t1] & [] & Hpkt & Hrest).
        apply write_packet_inv in Hpkt.
        destruct Hpkt as (Hlen & _ & _ & _ & E). injection E as -> ->.
        apply IH in Hrest; [|lia|cbn; lia].
        rewrite Hrest. now apply len_after_packet.
      * apply Z.leb_gt in Hleft.
        unfold bind at 1, modify in Hrun.
        set (k := Z.min (len (w_buf w) - w_pos w) (len data - off)) in *.
        assert (Hk : 0 < k /\ w_pos w + k <= len (w_buf w) /\ off + k <= len data)
          by (unfold k; lia).
        apply IH in Hrun; [|lia|cbn; lia].
        rewrite Hrun. cbn [w_buf]. apply len_slice_assign; lia.
    + injection Hrun as <- <-. reflexivity.
Qed.

Lemma chars_substring (s : string) : forall i n,
  list_ascii_of_string (substring i n s)
  = firstn n (skipn i (list_ascii_of_string s)).
Proof.
  induction s as [|c s IH]; intros [|i] [|n]; cbn; try reflexivity.
  - now rewrite IH.
  - apply IH.
  - apply IH.
Qed.

Lemma length_chars (s : string) : length (list_ascii_of_string s) = String.length s.
Proof. induction s as [|c s IH]; cbn; congruence. Qed.

Lemma range_loop_pieces {A} (l : list A) (step : nat) :
  (0 < step)%nat ->
  forall fuel i, (length l <= fuel + i)%nat ->
  concat (map (fun j => firstn step (skipn j l)) (range_loop fuel i (length l) step))
  = skipn i l.
Proof.
  intros Hstep. induction fuel as [|fuel IH]; intros i Hfuel.
  - cbn. symmetry. apply skipn_all2. lia.
  - cbn [range_loop]. destruct (Nat.ltb i (length l)) eqn:Hlt.
    + cbn [map concat]. rewrite IH by lia.
      replace (i + step)%nat with (step + i)%nat by lia.
      rewrite <- skipn_skipn. apply firstn_skipn.
    + apply Nat.ltb_ge in Hlt. cbn. symmetry. now apply skipn_all2.
Qed.

Lemma range_pieces {A} (l : list A) (step : nat) :
  (0 < step)%nat ->
  concat (map (fun j => firstn step (skipn j l)) (range (length l) step)) = l.
Proof.
  intros Hstep. unfold range. rewrite range_loop_pieces by lia. reflexivity.
Qed.

Lemma ascii_encoder_characterwise (s : string) :
  ascii_encoder s
  = Ok (flat_map ascii_char (list_ascii_of_string s), Z.of_nat (String.length s)).
Proof.
  unfold ascii_encoder. do 2 f_equal.
  induction s as [|c s IH]; cbn; [reflexivity | now rewrite IH].
Qed.

Section WriteString.

Variable encode : Encoder.
Variable encode_char : ascii -> list Z.

(** The codec encodes a string character by character and consumes all of
    it, as the UCS-2 codec does. *)
Hypothesis encode_characterwise : forall s,
  encode s = Ok (flat_map encode_char (list_ascii_of_string s), Z.of_nat (String.length s)).

Lemma write_string_loop_partial fuel s : forall starts w t w' t',
  8 <= w_pos w ->
  write_string_loop fuel s encode starts (w, t) = ((w', t'), Ok tt) ->
  8 <= w_pos w' /\ len (w_buf w') = len (w_buf w) /\
  exists ps,
    outbox t' = outbox t ++ ps /\
    Forall (fun pkt => is_final pkt = false) ps /\
    concat (map payload ps) ++ pending w'
    = pending w ++ flat_map encode_char (concat (pieces s (len (w_buf w)) starts)).
Proof.
  induction starts as [|i rest IH]; intros w t w' t' Hpos Hrun.
  - injection Hrun as <- <-. split; [assumption|]. split; [reflexivity|].
    exists []. cbn. now rewrite !app_nil_r.
  - cbn [write_string_loop] in Hrun. unfold bind at 1, get in Hrun.
    cbn [fst] in Hrun. unfold bufsize in Hrun.
    rewrite encode_characterwise, Z.eqb_refl in Hrun.
    apply bind_ok_inv in Hrun. destruct Hrun as ([w1 t1] & [] & Hone & Hrest).
    unfold write in Hone.
    assert (Hlen1 : len (w_buf w1) = len (w_buf w))
      by (eapply write_loop_keeps_bufsize; [| |exact Hone]; lia).
    apply write_loop_partial in Hone; [|lia|assumption].
    destruct Hone as (Hpos1 & _ & ps1 & Hout1 & Hnf1 & Hcat1).
    apply IH in Hrest; [|assumption].
    destruct Hrest as (Hpos' & Hlen' & ps2 & Hout2 & Hnf2 & Hcat2).
    split; [assumption|]. split; [congruence|].
    exists (ps1 ++ ps2).
    split; [rewrite Hout2, Hout1, app_assoc; reflexivity|].
    split; [apply Forall_app; now split|].
    rewrite map_app, concat_app, <- app_assoc, Hcat2, app_assoc, Hcat1.
    cbn [skipn Z.to_nat]. rewrite Hlen1. unfold pieces. cbn [map concat].
    rewrite chars_substring, flat_map_app, app_assoc. reflexivity.
Qed.

Lemma write_string_loop_total fuel s : forall starts w t,
  writer_ok w ->
  2 * len (flat_map encode_char (concat (pieces s (len (w_buf w)) starts))) + 1
    < Z.of_nat fuel ->
  exists w' t',
    write_string_loop fuel s encode starts (w, t) = ((w', t'), Ok tt) /\ writer_ok w'.
Proof.
  induction starts as [|i rest IH]; intros w t Hok Hfuel.
  - exists w, t. now split.
  - unfold pieces in Hfuel. cbn [map concat] in Hfuel.
    rewrite flat_map_app, len_app in Hfuel.
    match type of Hfuel with context [len ?a + len ?b] =>
      pose proof (len_nonneg a); pose proof (len_nonneg b) end.
    destruct (@write_loop_total fuel
                (flat_map encode_char
                   (firstn (Z.to_nat (len (w_buf w))) (skipn i (list_ascii_of_string s))))
                0 w t Hok) as (w1 & t1 & Hone & Hok1 & Hlen1).
    { lia. }
    { destruct (w_pos w =? len (w_buf w)); lia. }
    destruct (IH w1 t1 Hok1) as (w' & t' & Hrest & Hok').
    { rewrite Hlen1. unfold pieces. lia. }
    exists w', t'. split; [|assumption].
    cbn [write_string_loop]. unfold bind at 1, get. cbn [fst]. unfold bufsize.
    rewrite encode_characterwise, Z.eqb_refl, chars_substring.
    unfold write. erewrite bind_ok by exact Hone. exact Hrest.
Qed.

(** X14: [write_string] cuts the text into pieces of [bufsize] characters and
    encodes each on its own.  For a codec that works character by character
    the cutting does not show on the wire: with the writer at the start of a
    message, [write_string] followed by [flush] sends packets whose payloads
    put together are the encoding of the whole text, the last packet alone
    marked final; and on a writer with room for payload the run does end. *)
Theorem write_string_sends_encoded_text (s : string) (w : TdsWriter) (t : Transport) :
  w_pos w = 8 ->
  (forall fuel w' t',
      (write_string fuel s encode ;; flush) (w, t) = ((w', t'), Ok tt) ->
      exists sent,
        outbox t' = outbox t ++ sent /\
        framed sent (flat_map encode_char (list_ascii_of_string s)))
  /\
  (8 < len (w_buf w) <= 65535 -> 0 <= w_type w <= 255 -> 0 <= w_packet_no w <= 255 ->
   exists fuel w' t', (write_string fuel s encode ;; flush) (w, t) = ((w', t'), Ok tt)).
Proof.
  intros Hpos. split.
  - intros fuel w' t' Hrun.
    apply bind_ok_inv in Hrun. destruct Hrun as ([w1 t1] & [] & Hstr & Hflush).
    unfold write_string in Hstr. unfold bind at 1, get in Hstr.
    cbn [fst] in Hstr. unfold bufsize in Hstr.
    destruct (len (w_buf w) =? 0) eqn:Hzero; [discriminate|].
    apply Z.eqb_neq in Hzero. pose proof (len_nonneg (w_buf w)).
    apply write_string_loop_partial in Hstr; [|lia].
    destruct Hstr as (Hpos1 & Hlen1 & ps & Hout & Hnf & Hcat).
    unfold pieces in Hcat. rewrite <- length_chars, range_pieces in Hcat by lia.
    apply write_packet_inv in Hflush. destruct Hflush as (Hlen & _ & _ & _ & E).
    injection E as -> ->. cbn [outbox after_sendall]. rewrite Hout, <- app_assoc.
    exists (ps ++ [packet_of w1 true]). split; [reflexivity|].
    exists ps, (packet_of w1 true). split; [reflexivity|].
    split; [|split; [assumption | apply packet_of_final; lia]].
    rewrite map_app, concat_app. cbn [map concat]. rewrite app_nil_r.
    rewrite packet_of_payload, Hcat, pending_at_8 by lia. reflexivity.
  - intros Hbuf Hty Hno.
    assert (Hok : writer_ok w) by (unfold writer_ok; lia).
    set (starts := range (String.length s) (Z.to_nat (len (w_buf w)))).
    set (fuel := Z.to_nat
           (2 * len (flat_map encode_char (concat (pieces s (len (w_buf w)) starts))) + 2)).
    destruct (@write_string_loop_total fuel s starts w t Hok) as (w1 & t1 & Hstr & Hok1).
    { unfold fuel.
      pose proof (len_nonneg (flat_map encode_char (concat (pieces s (len (w_buf w)) starts)))).
      lia. }
    destruct Hok1 as (Hbuf1 & Hpos1 & Hty1 & Hno1).
    exists fuel. eexists. eexists.
    erewrite bind_ok.
    2:{ unfold write_string. unfold bind at 1, get. cbn [fst]. unfold bufsize.
        replace (len (w_buf w) =? 0) with false by (symmetry; apply Z.eqb_neq; lia).
        exact Hstr. }
    unfold flush. apply write_packet_ok; lia.
Qed.

End WriteString.

Lemma write_string_sends_encoded_text_witness :
  exists fuel w' t' sent,
    (write_string fuel "SELECT 1 AS n;" ascii_encoder ;; flush) small_writer
    = ((w', t'), Ok tt) /\
    outbox t' = outbox (snd small_writer) ++ sent /\
    framed sent (flat_map ascii_char (list_ascii_of_string "SELECT 1 AS n;")).
Proof.
  destruct (@write_string_sends_encoded_text ascii_encoder ascii_char
              ascii_encoder_characterwise "SELECT 1 AS n;"
              (fst small_writer) (snd small_writer) eq_refl) as [Hpartial Htotal].
  destruct Htotal as (fuel & w' & t' & Hrun);
    [vm_compute; intuition discriminate ..|].
  destruct (Hpartial fuel w' t' Hrun) as (sent & Hout & Hframed).
  exists fuel, w', t', sent. repeat split; assumption.
Defined.

(** ** [_parse_instances] *)

Lemma split_token (sep : ascii) (tok rest : string) :
  all_chars (fun c => negb (Ascii.eqb c sep)) tok = true ->
  split sep (String.append tok (String sep rest)) = tok :: split sep rest.
Proof.
  induction tok as [|c tok IH]; intros Hok.
  - cbn. now rewrite Ascii.eqb_refl.
  - cbn in Hok. apply andb_true_iff in Hok. destruct Hok as [Hc Hok].
    cbn. apply negb_true_iff in Hc. rewrite Hc, IH by assumption. reflexivity.
Qed.

Lemma all_chars_weaken (P Q : ascii -> bool) (s : string) :
  (forall c, P c = true -> Q c = true) -> all_chars P s = true -> all_chars Q s = true.
Proof.
  intros HPQ. induction s as [|c s IH]; [reflexivity|]. cbn.
  rewrite !andb_true_iff. intros [Hc Hs]. auto.
Qed.

Lemma all_chars_app (P : ascii -> bool) (a b : string) :
  all_chars P (String.append a b) = all_chars P a && all_chars P b.
Proof.
  induction a as [|c a IH]; [reflexivity|]. cbn. now rewrite IH, andb_assoc.
Qed.

Lemma field_ok_no_semicolon (s : string) :
  field_ok s = true -> all_chars (fun c => negb (Ascii.eqb c ";")) s = true.
Proof.
  apply all_chars_weaken. intros c Hc. now apply andb_true_iff in Hc.
Qed.

Lemma field_ok_ascii (s : string) :
  field_ok s = true -> all_chars (fun c => Nat.ltb (nat_of_ascii c) 128) s = true.
Proof.
  apply all_chars_weaken. intros c Hc. now apply andb_true_iff in Hc.
Qed.

Lemma decode_ascii_wire (s : string) :
  all_chars (fun c => Nat.ltb (nat_of_ascii c) 128) s = true ->
  decode_ascii (wire s) = Ok s.
Proof.
  intros Hok. unfold decode_ascii.
  assert (Hall : forallb (fun b => b <? 128) (wire s) = true).
  { induction s as [|c s IH]; [reflexivity|]. cbn [all_chars wire forallb] in Hok |- *.
    apply andb_true_iff in Hok. destruct Hok as [Hc Hs].
    apply Nat.ltb_lt in Hc. rewrite IH by assumption.
    replace (Z.of_nat (nat_of_ascii c) <? 128) with true
      by (symmetry; apply Z.ltb_lt; lia).
    reflexivity. }
  rewrite Hall. f_equal. clear.
  induction s as [|c s IH]; [reflexivity|]. cbn [wire text_of].
  now rewrite Nat2Z.id, ascii_nat_embedding, IH.
Qed.

Lemma parse_tokens_name (tokens : list string) (n1 n2 : string) instdict results :
  parse_tokens tokens n1 false instdict results
  = parse_tokens tokens n2 false instdict results.
Proof. destruct tokens; reflexivity. Qed.

Lemma dict_set_nonempty {V} (d : dict V) k v : is_empty_dict (dict_set d k v) = false.
Proof. destruct d as [|[k' v'] d]; cbn; [reflexivity|]. now destruct (String.eqb k' k). Qed.

Lemma fold_dict_set_nonempty (r : list (string * string)) : forall d,
  is_empty_dict d = false ->
  is_empty_dict (fold_left (fun d kv => dict_set d (fst kv) (snd kv)) r d) = false.
Proof.
  induction r as [|kv r IH]; intros d Hd; [assumption|].
  cbn [fold_left]. apply IH, dict_set_nonempty.
Qed.

Lemma dict_of_nonempty (r : list (string * string)) :
  is_empty_dict r = false -> is_empty_dict (dict_of r) = false.
Proof.
  destruct r as [|kv r]; [discriminate|]. intros _.
  unfold dict_of. cbn [fold_left]. apply fold_dict_set_nonempty, dict_set_nonempty.
Qed.

(** The tokens of the pairs of a record fill the instance dictionary. *)
Lemma parse_tokens_pairs (r : list (string * string)) : forall tail name instdict results,
  forallb (fun kv => negb (is_empty_str (fst kv)) && field_ok (fst kv) && field_ok (snd kv)) r
    = true ->
  parse_tokens
    (split ";" (fold_right
       (fun kv acc =>
          String.append (fst kv) (String ";" (String.append (snd kv) (String ";" acc))))
       tail r)) name false instdict results
  = parse_tokens (split ";" tail) name false
      (fold_left (fun d kv => dict_set d (fst kv) (snd kv)) r instdict) results.
Proof.
  induction r as [|[k v] r IH]; intros tail name instdict results Hok; [reflexivity|].
  cbn [forallb fst snd] in Hok. rewrite !andb_true_iff in Hok.
  destruct Hok as [[[Hne Hk] Hv] Hrest].
  cbn [fold_right fold_left fst snd].
  rewrite split_token by now apply field_ok_no_semicolon.
  rewrite split_token by now apply field_ok_no_semicolon.
  cbn [parse_tokens]. apply negb_true_iff in Hne. rewrite Hne.
  rewrite (parse_tokens_name _ k name). now apply IH.
Qed.

Lemma string_app_assoc (a b c : string) :
  String.append (String.append a b) c = String.append a (String.append b c).
Proof. induction a as [|x a IH]; cbn; [reflexivity | now rewrite IH]. Qed.

Lemma record_text_then (r : list (string * string)) (tail : string) :
  String.append (record_text r) tail
  = fold_right
      (fun kv acc =>
         String.append (fst kv) (String ";" (String.append (snd kv) (String ";" acc))))
      (String ";" tail) r.
Proof.
  unfold record_text. induction r as [|kv r IH]; [reflexivity|].
  cbn [fold_right]. rewrite <- IH, string_app_assoc. cbn [String.append].
  now rewrite string_app_assoc.
Qed.

Lemma reply_text_then (rs : list (list (string * string))) (tail : string) :
  String.append (reply_text rs) tail
  = fold_right (fun r acc => String.append (record_text r) acc) tail rs.
Proof.
  unfold reply_text. induction rs as [|r rs IH]; [reflexivity|].
  cbn [fold_right]. now rewrite string_app_assoc, IH.
Qed.

(** The records are taken one by one; the loop ends at the end of the text
    or at a semicolon where a name would begin. *)
Lemma parse_tokens_records (rs : list (list (string * string))) :
  forall tail name results,
  forallb record_ok rs = true ->
  tail = EmptyString \/ (exists junk, tail = String ";" junk) ->
  match parse_tokens
          (split ";" (fold_right (fun r acc => String.append (record_text r) acc) tail rs))
          name false [] results with
  | Ok res => Ok (Some res)
  | Raise e => Raise e
  | OutOfFuel => OutOfFuel
  end = collect rs results.
Proof.
  induction rs as [|r rs IH]; intros tail name results Hok Htail.
  - cbn [fold_right collect]. destruct Htail as [-> | [junk ->]]; reflexivity.
  - cbn [forallb] in Hok. apply andb_true_iff in Hok. destruct Hok as [Hr Hrs].
    unfold record_ok in Hr. apply andb_true_iff in Hr. destruct Hr as [Hne Hpairs].
    apply negb_true_iff in Hne.
    cbn [fold_right collect]. rewrite record_text_then.
    rewrite parse_tokens_pairs by assumption.
    fold (dict_of r).
    match goal with |- context [split ";" (String ";" ?rest)] =>
      change (split ";" (String ";" rest)) with (EmptyString :: split ";" rest) end.
    cbn [parse_tokens is_empty_str]. rewrite dict_of_nonempty by assumption.
    destruct (dict_get (dict_of r) "InstanceName") as [inst|]; [|reflexivity].
    now apply IH.
Qed.

Lemma all_chars_reply_text (rs : list (list (string * string))) :
  forallb record_ok rs = true ->
  all_chars (fun c => Nat.ltb (nat_of_ascii c) 128) (reply_text rs) = true.
Proof.
  induction rs as [|r rs IH]; intros Hok; [reflexivity|].
  cbn [forallb] in Hok. apply andb_true_iff in Hok. destruct Hok as [Hr Hrs].
  cbn [reply_text fold_right]. fold (reply_text rs).
  rewrite all_chars_app, IH, andb_true_r by assumption.
  unfold record_ok in Hr. apply andb_true_iff in Hr. destruct Hr as [_ Hpairs].
  clear -Hpairs. induction r as [|[k v] r IHr]; [reflexivity|].
  cbn [forallb fst snd] in Hpairs. rewrite !andb_true_iff in Hpairs.
  destruct Hpairs as [[[_ Hk] Hv] Hrest].
  cbn [record_text fold_right fst snd]. fold (record_text r).
  rewrite all_chars_app. cbn [all_chars]. rewrite all_chars_app. cbn [all_chars].
  rewrite (field_ok_ascii _ Hk), (field_ok_ascii _ Hv), IHr by assumption.
  reflexivity.
Qed.

Lemma wire_nonempty (rs : list (list (string * string))) :
  rs <> [] -> 0 < len (wire (reply_text rs)).
Proof.
  destruct rs as [|r rs]; [congruence|]. intros _.
  cbn [reply_text fold_right]. destruct r as [|[k v] r].
  - cbn. unfold len. cbn [length]. lia.
  - cbn [record_text fold_right fst snd]. destruct k as [|c k].
    + cbn. unfold len. cbn [length]. lia.
    + cbn. unfold len. cbn [length]. lia.
Qed.

(** X15: [_parse_instances] reads back a browser reply record by record.
    For a message of type 5 whose text is a sequence of records, each a
    non-empty run of [name;value;] pairs closed by one more semicolon (names
    non-empty, names and values ASCII without semicolon), the result maps the
    upper-cased [InstanceName] of each record to the dictionary of its pairs;
    the first record without an [InstanceName] makes it a [KeyError].  The
    two bytes after the type are not looked at. *)
Theorem parse_instances_reads_records
  (rs : list (list (string * string))) (b1 b2 : Z) :
  rs <> [] ->
  forallb record_ok rs = true ->
  _parse_instances (5 :: b1 :: b2 :: wire (reply_text rs)) = collect rs [].
Proof.
  intros Hne Hok. unfold _parse_instances.
  pose proof (wire_nonempty Hne) as Hlen.
  replace (3 <? len (5 :: b1 :: b2 :: wire (reply_text rs))) with true.
  2:{ symmetry. apply Z.ltb_lt. unfold len in *. cbn [length]. lia. }
  cbn [nth skipn andb]. rewrite Z.eqb_refl.
  rewrite decode_ascii_wire by now apply all_chars_reply_text.
  apply (@parse_tokens_records rs EmptyString); [assumption | now left].
Qed.

Lemma parse_instances_reads_records_witness :
  _parse_instances (5 :: 0 :: 94 :: wire (reply_text two_instances))
  = Ok (Some [("SQLEXPRESS", nth 0 two_instances []); ("DEV", nth 1 two_instances [])]%string).
Proof.
  rewrite (@parse_instances_reads_records two_instances 0 94);
    [reflexivity | discriminate | reflexivity].
Defined.

(** X16: the loop of [_parse_instances] ends at the first semicolon that
    stands where a record would begin, and nothing after it is read: the
    result is that of the records before it, whatever ASCII text follows,
    a record without [InstanceName] included. *)
Theorem parse_instances_stops_at_empty_record
  (rs : list (list (string * string))) (junk : string) (b1 b2 : Z) :
  forallb record_ok rs = true ->
  all_chars (fun c => Nat.ltb (nat_of_ascii c) 128) junk = true ->
  _parse_instances
    (5 :: b1 :: b2 :: wire (String.append (reply_text rs) (String ";" junk)))
  = collect rs [].
Proof.
  intros Hok Hjunk. unfold _parse_instances.
  replace (3 <? len (5 :: b1 :: b2 :: wire (String.append (reply_text rs) (String ";" junk))))
    with true.
  2:{ symmetry. apply Z.ltb_lt. unfold len. cbn [length].
      assert (0 < length (wire (String.append (reply_text rs) (String ";" junk))))%nat.
      { generalize (reply_text rs) as text. intros [|c text]; cbn; lia. }
      lia. }
  cbn [nth skipn andb]. rewrite Z.eqb_refl.
  rewrite decode_ascii_wire.
  2:{ rewrite all_chars_app, all_chars_reply_text by assumption.
      cbn [all_chars andb]. rewrite Hjunk. reflexivity. }
  rewrite reply_text_then.
  apply parse_tokens_records; [assumption | right; now exists junk].
Qed.

Lemma parse_instances_stops_at_empty_record_witness :
  _parse_instances
    (5 :: 0 :: 0 ::
     wire (String.append (reply_text two_instances) (String ";" "tcp;1433;;")))
  = Ok (Some [("SQLEXPRESS", nth 0 two_instances []); ("DEV", nth 1 two_instances [])]%string).
Proof.
  rewrite (@parse_instances_stops_at_empty_record two_instances "tcp;1433;;" 0 0);
    reflexivity.
Defined.

(** ** [parse_prelogin] and an option cut short *)

(** X17: an option record of the PRELOGIN table is five bytes, and the loop
    of [parse_prelogin] asks for four before it unpacks the offset and the
    length from the four bytes behind the type.  Where a record that is not
    the terminator has fewer than four bytes left, the transport is closed
    and [InterfaceError] raised; where it has exactly four, the check lets it
    through, [unpack_from] raises [struct.error], and the transport stays
    open, the session as it was. *)
Theorem prelogin_option_cut_short `{TdsBase}
  (fuel : nat) (p : list Z) (i crypt_flag : Z) (s : TdsSession) :
  0 <= i ->
  nth (Z.to_nat i) p 0 <> PreLoginToken_TERMINATOR ->
  (len p < i + 4 ->
   prelogin_options (S fuel) p i crypt_flag s
   = (with_transport (fst (close (_transport s))) s,
      Raise (InterfaceError "Invalid size of PRELOGIN structure")))
  /\
  (len p = i + 4 ->
   prelogin_options (S fuel) p i crypt_flag s = (s, Raise StructError)).
Proof.
  intros Hi Hterm.
  assert (Hbyte : i < len p ->
            @byte_struct TdsSession p i s = (s, Ok (nth (Z.to_nat i) p 0))).
  { intros Hin. unfold byte_struct, unpack_from.
    replace (i + 1 <=? len p) with true by (symmetry; apply Z.leb_le; lia).
    unfold ret. now rewrite nth_slice_0. }
  apply Z.eqb_neq in Hterm.
  split; intros Hlen; cbn [prelogin_options].
  - destruct (len p <=? i) eqn:Hfirst; [reflexivity|].
    apply Z.leb_gt in Hfirst.
    erewrite bind_ok by reflexivity.
    erewrite bind_ok by (apply Hbyte; assumption).
    rewrite Hterm.
    replace (len p <? i + 4) with true by (symmetry; apply Z.ltb_lt; lia).
    reflexivity.
  - replace (len p <=? i) with false by (symmetry; apply Z.leb_gt; lia).
    erewrite bind_ok by reflexivity.
    erewrite bind_ok by (apply Hbyte; lia).
    rewrite Hterm.
    replace (len p <? i + 4) with false by (symmetry; apply Z.ltb_ge; lia).
    erewrite bind_ok by reflexivity.
    unfold off_len_struct, unpack_from.
    replace (i + 1 + 4 <=? len p) with false by (symmetry; apply Z.leb_gt; lia).
    reflexivity.
Qed.

Lemma prelogin_option_cut_short_witness :
  @prelogin_options buffered_base 5 [1; 0; 26; 0] 0 2 (new_session 4096)
  = (new_session 4096, Raise StructError).
Proof.
  apply (@prelogin_option_cut_short buffered_base 4 [1; 0; 26; 0] 0 2 (new_session 4096)).
  - lia.
  - vm_compute. discriminate.
  - reflexivity.
Defined.

(** ** [read_fast] and [recv] *)

(** X18: [read_fast] is [recv] without the copy.  From the same session both
    leave the same session behind and end the same way, and where they
    return, the bytes [recv] gives are those of the buffer [read_fast] gives,
    from its offset up to the new read position. *)
Theorem read_fast_agrees_with_recv (size : Z) (s : TdsSession) :
  fst (read_fast size s) = fst (recv size s) /\
  match snd (read_fast size s) with
  | Ok (buf, offset) =>
      snd (recv size s) = Ok (py_slice buf offset (r_pos (_reader (fst (recv size s)))))
  | Raise e => snd (recv size s) = Raise e
  | OutOfFuel => snd (recv size s) = OutOfFuel
  end.
Proof.
  unfold read_fast, recv, bind, gets, modify, ret.
  destruct (r_size (_reader s) <=? r_pos (_reader s)).
  - destruct (_read_packet s) as [s1 [[]|e|]]; cbn [fst snd]; split; reflexivity.
  - cbn [fst snd]. split; reflexivity.
Qed.
